(** * SendPulse client (package smtp): token cache, 401 refresh and request dispatch

    A shallow embedding of [smtp.Client] (Go).  The client's own functions
    ([NewClient], [Init], [getToken], [sendRequest] and the methods built on
    them) are transcribed function by function.  What the Go code reaches
    outside itself is split in two:

    - pure helpers of the Go standard library whose result the properties
      depend on are written out: [crypto/md5], [fmt]'s [%x] and [%d],
      [encoding/base64], [strings.Contains];
    - the rest of the outside world (the JSON codec, what the file system
      allows and what a call that fails leaves on it, the HTTP server) is an
      environment [Env] over which every theorem quantifies. *)

From Stdlib Require Import ZArith Lia Ascii String.
From stdpp Require Import base option list strings gmap pretty.

Local Open Scope Z_scope.

(* ===================================================================== *)
(** ** Bytes and strings

    A Go [string] and a [[]byte] are both sequences of bytes; they are
    [string] here (a list of [ascii], one per byte). *)

Definition byte_of (a : ascii) : Z := Z.of_N (Ascii.N_of_ascii a).
Definition byte_to (z : Z) : ascii := Ascii.ascii_of_N (Z.to_N (z mod 256)).

Definition bytes_of (s : string) : list Z := byte_of <$> String.list_ascii_of_string s.
Definition bytes_to (l : list Z) : string := String.string_of_list_ascii (byte_to <$> l).

Module Strings.

(** [strings.HasPrefix]. *)
Fixpoint HasPrefix (s prefix : string) : bool :=
  match prefix, s with
  | EmptyString, _ => true
  | String p prefix', String a s' =>
      if decide (a = p) then HasPrefix s' prefix' else false
  | String _ _, EmptyString => false
  end.

(** [strings.Contains s substr]: [substr] occurs in [s] (the empty string
    occurs everywhere). *)
Fixpoint Contains (s substr : string) : bool :=
  HasPrefix s substr
  || match s with
     | EmptyString => false
     | String _ s' => Contains s' substr
     end.

End Strings.

(* ===================================================================== *)
(** ** crypto/md5 (RFC 1321) on 32-bit words held in [Z] *)

Module Md5.

Definition mask32 : Z := 0xffffffff.
Definition add32 (x y : Z) : Z := Z.land (x + y) mask32.
Definition not32 (x : Z) : Z := Z.lxor x mask32.
Definition rotl32 (x : Z) (c : Z) : Z :=
  Z.land (Z.lor (Z.shiftl x c) (Z.shiftr x (32 - c))) mask32.

Definition K : list Z :=
  [ 0xd76aa478; 0xe8c7b756; 0x242070db; 0xc1bdceee;
    0xf57c0faf; 0x4787c62a; 0xa8304613; 0xfd469501;
    0x698098d8; 0x8b44f7af; 0xffff5bb1; 0x895cd7be;
    0x6b901122; 0xfd987193; 0xa679438e; 0x49b40821;
    0xf61e2562; 0xc040b340; 0x265e5a51; 0xe9b6c7aa;
    0xd62f105d; 0x02441453; 0xd8a1e681; 0xe7d3fbc8;
    0x21e1cde6; 0xc33707d6; 0xf4d50d87; 0x455a14ed;
    0xa9e3e905; 0xfcefa3f8; 0x676f02d9; 0x8d2a4c8a;
    0xfffa3942; 0x8771f681; 0x6d9d6122; 0xfde5380c;
    0xa4beea44; 0x4bdecfa9; 0xf6bb4b60; 0xbebfbc70;
    0x289b7ec6; 0xeaa127fa; 0xd4ef3085; 0x04881d05;
    0xd9d4d039; 0xe6db99e5; 0x1fa27cf8; 0xc4ac5665;
    0xf4292244; 0x432aff97; 0xab9423a7; 0xfc93a039;
    0x655b59c3; 0x8f0ccc92; 0xffeff47d; 0x85845dd1;
    0x6fa87e4f; 0xfe2ce6e0; 0xa3014314; 0x4e0811a1;
    0xf7537e82; 0xbd3af235; 0x2ad7d2bb; 0xeb86d391 ].

Definition shifts : list Z :=
  [ 7; 12; 17; 22; 7; 12; 17; 22; 7; 12; 17; 22; 7; 12; 17; 22;
    5;  9; 14; 20; 5;  9; 14; 20; 5;  9; 14; 20; 5;  9; 14; 20;
    4; 11; 16; 23; 4; 11; 16; 23; 4; 11; 16; 23; 4; 11; 16; 23;
    6; 10; 15; 21; 6; 10; 15; 21; 6; 10; 15; 21; 6; 10; 15; 21 ].

(** The four chaining words [(a, b, c, d)]. *)
Definition state : Type := Z * Z * Z * Z.

Definition init : state := (0x67452301, 0xefcdab89, 0x98badcfe, 0x10325476).

(** Little-endian decoding of up to four bytes. *)
Fixpoint le_word (bs : list Z) : Z :=
  match bs with
  | [] => 0
  | b :: bs' => Z.lor b (Z.shiftl (le_word bs') 8)
  end.

(** Little-endian encoding on [n] bytes. *)
Fixpoint le_bytes (n : nat) (x : Z) : list Z :=
  match n with
  | O => []
  | S n' => Z.land x 0xff :: le_bytes n' (Z.shiftr x 8)
  end.

(** The sixteen message words of one 64-byte block. *)
Definition words (block : list Z) : list Z :=
  (fun j : nat => le_word (take 4 (drop (4 * j) block))) <$> seq 0 16.

(** One of the 64 steps on block words [M]. *)
Definition step (M : list Z) (st : state) (i : nat) : state :=
  let '(a, b, c, d) := st in
  let iz := Z.of_nat i in
  let '(f, g) :=
    if iz <? 16 then (Z.lor (Z.land b c) (Z.land (not32 b) d), iz)
    else if iz <? 32 then (Z.lor (Z.land d b) (Z.land (not32 d) c), (5 * iz + 1) mod 16)
    else if iz <? 48 then (Z.lxor (Z.lxor b c) d, (3 * iz + 5) mod 16)
    else (Z.lxor c (Z.lor b (not32 d)), (7 * iz) mod 16) in
  let f' := add32 (add32 (add32 f a) (K !!! i)) (M !!! Z.to_nat g) in
  (d, add32 b (rotl32 f' (shifts !!! i)), b, c).

Definition compress (st : state) (block : list Z) : state :=
  let '(a0, b0, c0, d0) := st in
  let '(a, b, c, d) := foldl (step (words block)) st (seq 0 64) in
  (add32 a0 a, add32 b0 b, add32 c0 c, add32 d0 d).

(** Padding: one 0x80 byte, zeros up to 56 modulo 64, then the bit length
    on 64 bits, little-endian. *)
Definition pad (msg : list Z) : list Z :=
  let len := Z.of_nat (length msg) in
  let zeros := Z.to_nat ((55 - len) mod 64) in
  msg ++ 0x80 :: replicate zeros 0 ++ le_bytes 8 ((8 * len) mod 2 ^ 64).

(** Consumes the padded message block by block; [n] is the block count. *)
Fixpoint blocks (n : nat) (st : state) (bs : list Z) : state :=
  match n with
  | O => st
  | S n' => blocks n' (compress st (take 64 bs)) (drop 64 bs)
  end.

(** [md5.Sum]: the 16 digest bytes. *)
Definition Sum (msg : list Z) : list Z :=
  let p := pad msg in
  let '(a, b, c, d) := blocks (length p / 64)%nat init p in
  le_bytes 4 a ++ le_bytes 4 b ++ le_bytes 4 c ++ le_bytes 4 d.

End Md5.

(* ===================================================================== *)
(** ** fmt verbs *)

Module Fmt.

Definition hex_digit (n : Z) : ascii :=
  default "0"%char (String.get (Z.to_nat n) "0123456789abcdef").

(** [%x] on a byte array: two lower-case hexadecimal digits per byte. *)
Fixpoint hex (bs : list Z) : string :=
  match bs with
  | [] => ""
  | b :: bs' => String (hex_digit (b / 16)) (String (hex_digit (b mod 16)) (hex bs'))
  end.

(** [%d] on an [int]. *)
Definition dec (n : Z) : string := pretty n.

End Fmt.

(* ===================================================================== *)
(** ** encoding/base64, [StdEncoding] (padded, alphabet A-Za-z0-9+/) *)

Module Base64.

Definition alphabet : string :=
  "ABCDEFGHIJKLMNOPQRSTUVWXYZabcdefghijklmnopqrstuvwxyz0123456789+/".

Definition digit (n : Z) : ascii :=
  default "="%char (String.get (Z.to_nat (n mod 64)) alphabet).

Definition pad_char : ascii := "="%char.

Fixpoint encode (bs : list Z) : list ascii :=
  match bs with
  | [] => []
  | [a] =>
      [digit (a / 4); digit ((a mod 4) * 16); pad_char; pad_char]
  | [a; b] =>
      [digit (a / 4); digit ((a mod 4) * 16 + b / 16);
       digit ((b mod 16) * 4); pad_char]
  | a :: b :: c :: rest =>
      digit (a / 4) :: digit ((a mod 4) * 16 + b / 16)
      :: digit ((b mod 16) * 4 + c / 64) :: digit (c mod 64)
      :: encode rest
  end.

(** [base64.StdEncoding.EncodeToString([]byte(s))]. *)
Definition EncodeToString (s : string) : string :=
  String.string_of_list_ascii (encode (bytes_of s)).

End Base64.


(* ===================================================================== *)
(** ** Data model *)

(** Constants of the package. *)
Definition APIUrl : string := "https://api.sendpulse.com".
Definition ErrInvalidToken : string := "Invalid token".
Definition ErrInvalidResponse : string := "Bad response from server".
Definition ErrInvalidCredentials : string := "Invalid credentials".

Definition newline : string := String "010"%char EmptyString.

(** What an [interface{}] holds in this package: JSON-shaped data.  A
    [map[string]string] is a [VMap] whose values are all [VString]. *)
#[warnings="-register-all"] Inductive Value : Type :=
| VNil
| VBool (b : bool)
| VInt (n : Z)
| VString (s : string)
| VList (l : list Value)
| VMap (m : gmap string Value).

(** Go [error] values.  [Errorf msg cause] is [fmt.Errorf(msg, cause)], the
    format string kept as written; [LibError pkg] is an error made by a
    library package. *)
#[warnings="-register-all"] Inductive error : Type :=
| LibError (pkg : string)
| Errorf (msg : string) (cause : option error).

Inductive result (A : Type) : Type :=
| Ok (a : A)
| Err (e : error).
Arguments Ok {A} a.
Arguments Err {A} e.

(** [Client]; [httpClient] is reduced to its timeout, in seconds. *)
Record Client : Type := mkClient {
  UserID : string;
  Secret : string;
  TokenStorage : string;
  Token : string;
  httpClient_Timeout : Z;
}.

Definition set_Token (tok : string) (c : Client) : Client :=
  {| UserID := UserID c; Secret := Secret c; TokenStorage := TokenStorage c;
     Token := tok; httpClient_Timeout := httpClient_Timeout c |}.

Record ErrorResponse : Type := mkErrorResponse {
  IsError : bool;
  Message : string;
  ErrorCode : Z;
}.

Record TokenResponse : Type := mkTokenResponse {
  AccessToken : string;
  TokenType : string;
  ExpiresIn : Z;
}.

Record AddressBook : Type := mkAddressBook {
  AddressBook_ID : Z;
  AddressBook_Name : string;
}.

(** A nil [Variables] map and an empty one are both [∅]: the package only
    takes their length, and [omitempty] drops both. *)
Record Email : Type := mkEmail {
  Email_Email : string;
  Email_Variables : gmap string Value;
}.

Record Campaign : Type := mkCampaign {
  Campaign_ID : Z;
  Campaign_Name : string;
  Campaign_Status : string;
  Campaign_SenderName : string;
  Campaign_SenderEmail : string;
  Campaign_Subject : string;
}.

Record SMSCampaign : Type := mkSMSCampaign {
  SMSCampaign_ID : Z;
  SMSCampaign_Sender : string;
  SMSCampaign_Body : string;
  SMSCampaign_Status : string;
}.

Record Phone : Type := mkPhone {
  Phone_Phone : string;
  Phone_Variables : gmap string Value;
}.

(** A [time.Time] instant; its rendering belongs to the environment. *)
Definition Time : Type := Z.

(** The Go types [json.Unmarshal] is asked to fill. *)
Inductive GoType : Type :=
| TErrorResponse | TTokenResponse
| TAddressBook | TAddressBooks
| TEmail | TEmails
| TCampaign | TCampaigns
| TSMSCampaign
| TMap | TMaps.

Definition denote (t : GoType) : Type :=
  match t with
  | TErrorResponse => ErrorResponse
  | TTokenResponse => TokenResponse
  | TAddressBook => AddressBook
  | TAddressBooks => list AddressBook
  | TEmail => Email
  | TEmails => list Email
  | TCampaign => Campaign
  | TCampaigns => list Campaign
  | TSMSCampaign => SMSCampaign
  | TMap => gmap string Value
  | TMaps => list (gmap string Value)
  end.

(** The struct tags of [Email] and [Phone] as seen by [json.Marshal]. *)
Definition Email_value (e : Email) : Value :=
  let m : gmap string Value := {[ "email" := VString (Email_Email e) ]} in
  VMap (if decide (size (Email_Variables e) = 0%nat) then m
        else <["variables" := VMap (Email_Variables e)]> m).

Definition Phone_value (p : Phone) : Value :=
  let m : gmap string Value := {[ "phone" := VString (Phone_Phone p) ]} in
  VMap (if decide (size (Phone_Variables p) = 0%nat) then m
        else <["variables" := VMap (Phone_Variables p)]> m).

Definition strings_value (l : list string) : Value := VList (VString <$> l).

(* ===================================================================== *)
(** ** HTTP, the file system and the world *)

(** An outgoing [*http.Request]: method, URL, body ([None] when no body was
    given) and headers. *)
Record Request : Type := mkRequest {
  req_method : string;
  req_url : string;
  req_body : option string;
  req_header : gmap string string;
}.

(** What [httpClient.Do] followed by [io.ReadAll] can give. *)
Inductive HttpResult : Type :=
| DoError
| ReadError
| Response (StatusCode : Z) (body : string).

(** What the client does that is visible from outside, in order.  [EvHTTP]
    is one [httpClient.Do]; [EvPrint] is a line on standard output.
    [EvFetch] and [EvRetry] are ghost marks: an entry into [getToken], and
    the re-issue of a request after a refresh. *)
Inductive Event : Type :=
| EvHTTP (r : Request)
| EvFetch
| EvRetry
| EvPrint (s : string).

Definition loc : Type := positive.

(** The state outside the client: regular files by path, directories, the
    Go maps that callers hold by reference, and the trace so far. *)
Record World : Type := mkWorld {
  files : gmap string string;
  dirs : gset string;
  heap : gmap loc (gmap string Value);
  trace : list Event;
}.

Definition log (ev : Event) (w : World) : World :=
  {| files := files w; dirs := dirs w; heap := heap w; trace := trace w ++ [ev] |}.

Definition set_files (fs : gmap string string) (w : World) : World :=
  {| files := fs; dirs := dirs w; heap := heap w; trace := trace w |}.

Definition set_dirs (ds : gset string) (w : World) : World :=
  {| files := files w; dirs := ds; heap := heap w; trace := trace w |}.

Definition set_heap (h : gmap loc (gmap string Value)) (w : World) : World :=
  {| files := files w; dirs := dirs w; heap := h; trace := trace w |}.

(** The requests of a trace, oldest first. *)
Fixpoint requests (tr : list Event) : list Request :=
  match tr with
  | [] => []
  | EvHTTP r :: tr' => r :: requests tr'
  | _ :: tr' => requests tr'
  end.

Definition is_fetch (ev : Event) : bool :=
  match ev with EvFetch => true | _ => false end.
Definition is_retry (ev : Event) : bool :=
  match ev with EvRetry => true | _ => false end.

(** Number of [getToken] calls and of retried requests in a trace. *)
Definition fetches (tr : list Event) : nat := length (filter (λ ev, is_fetch ev = true) tr).
Definition retries (tr : list Event) : nat := length (filter (λ ev, is_retry ev = true) tr).

(** The environment: library functions whose result is left open, and the
    behaviour of the file system and of the server.

    - [json_Marshal], [json_Unmarshal]: [encoding/json];
    - [filepath_Join]: [path/filepath];
    - [http_NewRequest method url]: whether [http.NewRequest] accepts them;
    - [httpClient_Do earlier req]: the outcome of sending [req] after the
      requests [earlier] (a timeout is a [DoError]);
    - [os_MkdirAll_ok path]: whether a missing directory can be created;
    - [os_MkdirAll_made path]: the parents of [path] that [os.MkdirAll]
      makes on its way to [path]; of a call that fails, those it made before
      it failed;
    - [os_WriteFile_ok path]: whether the file can be written;
    - [os_WriteFile_partial path]: what a write that fails does to the file.
      [os.WriteFile] opens it with O_CREATE and O_TRUNC and then writes:
      [None] when the file could not be opened, [Some n] when it was opened,
      so created or emptied, and [n] bytes were written before the failure;
    - [strings_ToUpper], [time_Format]: [strings], [time]. *)
Record Env : Type := mkEnv {
  json_Marshal : Value → option string;
  json_Unmarshal : ∀ t : GoType, string → option (denote t);
  filepath_Join : string → string → string;
  http_NewRequest : string → string → bool;
  httpClient_Do : list Request → Request → HttpResult;
  os_MkdirAll_ok : string → bool;
  os_MkdirAll_made : string → gset string;
  os_WriteFile_ok : string → bool;
  os_WriteFile_partial : string → option nat;
  strings_ToUpper : string → string;
  time_Format : string → Time → string;
}.

(** The outcome of a method: [None] when the recursion budget ran out (the
    Go call would still be running), else the returned value or error, the
    client and the world after the call. *)
Definition Run (A : Type) : Type := option (result A * Client * World).

(** [fmt.Sprintf("%x", md5.Sum([]byte(userID+"::"+secret)))]. *)
Definition fingerprint (userID secret : string) : string :=
  Fmt.hex (Md5.Sum (bytes_of (userID +:+ "::" +:+ secret))).

(* ===================================================================== *)
(** ** The client *)

(** [NewClient]: no token yet, a 30 second timeout. *)
Definition NewClient (userID secret tokenStorage : string) : Client :=
  {| UserID := userID; Secret := secret; TokenStorage := tokenStorage;
     Token := ""; httpClient_Timeout := 30 |}.

Section Client.

Variable E : Env.

(** [os.MkdirAll]: an existing directory is not an error and nothing is
    made; a missing one is made after its missing parents. *)
Definition MkdirAll (path : string) (w : World) : option World :=
  if decide (path ∈ dirs w) then Some w
  else if os_MkdirAll_ok E path
       then Some (set_dirs ({[path]} ∪ os_MkdirAll_made E path ∪ dirs w) w)
       else None.

(** The world after an [os.MkdirAll] that failed: the parents made before
    the failure are there. *)
Definition failedMkdirAll (path : string) (w : World) : World :=
  set_dirs (os_MkdirAll_made E path ∪ dirs w) w.

(** [os.ReadFile]. *)
Definition ReadFile (path : string) (w : World) : option string :=
  files w !! path.

(** [os.WriteFile] when it succeeds: the file then holds exactly
    [content]. *)
Definition WriteFile (path content : string) (w : World) : option World :=
  if os_WriteFile_ok E path then Some (set_files (<[path := content]> (files w)) w)
  else None.

(** The world after an [os.WriteFile] that failed: the files as they were
    when the file could not be opened, else the file cut down to the bytes
    of [content] written before the failure, [content[:n]]. *)
Definition failedWrite (path content : string) (w : World) : World :=
  match os_WriteFile_partial E path with
  | None => w
  | Some n => set_files (<[path := substring 0 n content]> (files w)) w
  end.

(** The file that caches the token of [c]. *)
Definition tokenPath (c : Client) : string :=
  filepath_Join E (TokenStorage c) (fingerprint (UserID c) (Secret c)).

(** The first half of [sendRequest]: marshal the payload, make the
    request, set its headers. *)
Definition newRequest (c : Client) (path method : string) (data : option Value)
    (useToken : bool) : result Request :=
  let url := APIUrl +:+ "/" +:+ path in
  let marshalled : result (option string) :=
    match data with
    | None => Ok None
    | Some d =>
        match json_Marshal E d with
        | Some jsonData => Ok (Some jsonData)
        | None => Err (Errorf "failed to marshal request data: %w" (Some (LibError "json")))
        end
    end in
  match marshalled with
  | Err e => Err e
  | Ok body =>
      if http_NewRequest E method url then
        let header : gmap string string := {[ "Content-Type" := "application/json" ]} in
        let header :=
          if useToken && negb (bool_decide (Token c = ""))
          then <["Authorization" := "Bearer " +:+ Token c]> header
          else header in
        Ok {| req_method := method; req_url := url; req_body := body; req_header := header |}
      else Err (Errorf "failed to create request: %w" (Some (LibError "http")))
  end.

(** The payload of the token request. *)
Definition tokenRequestData (c : Client) : Value :=
  VMap {[ "grant_type" := VString "client_credentials";
          "client_id" := VString (UserID c);
          "client_secret" := VString (Secret c) ]}.

(** [getToken], over the [sendRequest] it calls. *)
Definition getToken_with
    (send : Client → string → string → option Value → bool → World → Run string)
    (c : Client) (w : World) : Run unit :=
  match send c "oauth/access_token" "POST" (Some (tokenRequestData c)) false (log EvFetch w) with
  | None => None
  | Some (Err err, c1, w1) => Some (Err err, c1, w1)
  | Some (Ok resp, c1, w1) =>
      match json_Unmarshal E TTokenResponse resp with
      | None =>
          Some (Err (Errorf "failed to parse token response: %w" (Some (LibError "json"))), c1, w1)
      | Some tokenResp =>
          let c2 := set_Token (AccessToken tokenResp) c1 in
          match WriteFile (tokenPath c2) (Token c2) w1 with
          | Some w2 => Some (Ok (), c2, w2)
          | None => Some (Err (LibError "os"), c2, failedWrite (tokenPath c2) (Token c2) w1)
          end
      end
  end.

(** [sendRequest].  [fuel] bounds the depth of the refresh-and-retry
    recursion, which the Go code leaves unbounded.  On a 401 the code also
    unmarshals the body into an [ErrorResponse]; it drops both the value and
    the error, so nothing of it is left here. *)
Fixpoint sendRequest (fuel : nat) (c : Client) (path method : string)
    (data : option Value) (useToken : bool) (w : World) : Run string :=
  match fuel with
  | O => None
  | S fuel' =>
      match newRequest c path method data useToken with
      | Err e => Some (Err e, c, w)
      | Ok req =>
          let w1 := log (EvHTTP req) w in
          match httpClient_Do E (requests (trace w)) req with
          | DoError =>
              Some (Err (Errorf "request failed: %w" (Some (LibError "http"))), c, w1)
          | ReadError =>
              Some (Err (Errorf "failed to read response: %w" (Some (LibError "io"))), c, w1)
          | Response StatusCode respBody =>
              if decide (StatusCode = 401) then
                if Strings.Contains respBody "invalid_client" then
                  Some (Err (Errorf ErrInvalidCredentials None), c, w1)
                else
                  match getToken_with (sendRequest fuel') c w1 with
                  | None => None
                  | Some (Err err, c2, w2) =>
                      Some (Err (Errorf "failed to refresh token: %w" (Some err)), c2, w2)
                  | Some (Ok _, c2, w2) =>
                      sendRequest fuel' c2 path method data true (log EvRetry w2)
                  end
              else Some (Ok respBody, c, w1)
          end
      end
  end.

(** [getToken]. *)
Definition getToken (fuel : nat) (c : Client) (w : World) : Run unit :=
  getToken_with (sendRequest fuel) c w.

(** [Init]. *)
Definition Init (fuel : nat) (c : Client) (w : World) : Run unit :=
  match MkdirAll (TokenStorage c) w with
  | None =>
      Some (Err (Errorf "failed to create token storage directory: %w" (Some (LibError "os"))),
            c, failedMkdirAll (TokenStorage c) w)
  | Some w1 =>
      let c1 :=
        match ReadFile (tokenPath c) w1 with
        | Some tokenData => set_Token tokenData c
        | None => c
        end in
      if decide (Token c1 = "") then getToken fuel c1 w1
      else Some (Ok (), c1, w1)
  end.

(** *** Methods over [sendRequest] *)

(** [resp, err := ...; if err != nil { return nil, err }] followed by
    [json.Unmarshal(resp, &x)] with its error wrapped under [msg]. *)
Definition decode (t : GoType) (msg : string) (r : Run string) : Run (denote t) :=
  match r with
  | None => None
  | Some (Err err, c, w) => Some (Err err, c, w)
  | Some (Ok resp, c, w) =>
      match json_Unmarshal E t resp with
      | Some x => Some (Ok x, c, w)
      | None => Some (Err (Errorf msg (Some (LibError "json"))), c, w)
      end
  end.

(** [_, err := ...; return err]. *)
Definition discard (r : Run string) : Run unit :=
  match r with
  | None => None
  | Some (Err err, c, w) => Some (Err err, c, w)
  | Some (Ok _, c, w) => Some (Ok (), c, w)
  end.

(** The [limit]/[offset] parameters of the list methods. *)
Definition paging (limit offset : Z) : gmap string Value :=
  let params : gmap string Value := ∅ in
  let params := if decide (limit > 0) then <["limit" := VInt limit]> params else params in
  if decide (offset > 0) then <["offset" := VInt offset]> params else params.

(** **** Address books *)

Definition ListAddressBooks (fuel : nat) (c : Client) (limit offset : Z) (w : World)
    : Run (list AddressBook) :=
  decode TAddressBooks "failed to parse address books: %w"
    (sendRequest fuel c "addressbooks" "GET" (Some (VMap (paging limit offset))) true w).

Definition CreateAddressBook (fuel : nat) (c : Client) (name : string) (w : World)
    : Run AddressBook :=
  if decide (name = "") then Some (Err (Errorf "empty book name" None), c, w)
  else
    let data := VMap {[ "bookName" := VString name ]} in
    decode TAddressBook "failed to parse address book: %w"
      (sendRequest fuel c "addressbooks" "POST" (Some data) true w).

Definition EditAddressBook (fuel : nat) (c : Client) (id : Z) (name : string) (w : World)
    : Run unit :=
  if decide (id = 0 ∨ name = "") then Some (Err (Errorf "empty book name or book id" None), c, w)
  else
    let data := VMap {[ "name" := VString name ]} in
    discard (sendRequest fuel c ("addressbooks/" +:+ Fmt.dec id) "PUT" (Some data) true w).

Definition RemoveAddressBook (fuel : nat) (c : Client) (id : Z) (w : World) : Run unit :=
  if decide (id = 0) then Some (Err (Errorf "empty book id" None), c, w)
  else discard (sendRequest fuel c ("addressbooks/" +:+ Fmt.dec id) "DELETE" None true w).

Definition GetBookInfo (fuel : nat) (c : Client) (id : Z) (w : World) : Run AddressBook :=
  if decide (id = 0) then Some (Err (Errorf "empty book id" None), c, w)
  else
    decode TAddressBook "failed to parse address book: %w"
      (sendRequest fuel c ("addressbooks/" +:+ Fmt.dec id) "GET" None true w).

(** **** Email management *)

Definition GetEmailsFromBook (fuel : nat) (c : Client) (id : Z) (w : World)
    : Run (list Email) :=
  if decide (id = 0) then Some (Err (Errorf "empty book id" None), c, w)
  else
    decode TEmails "failed to parse emails: %w"
      (sendRequest fuel c ("addressbooks/" +:+ Fmt.dec id +:+ "/emails") "GET" None true w).

Definition AddEmails (fuel : nat) (c : Client) (bookID : Z) (emails : list Email) (w : World)
    : Run unit :=
  if decide (bookID = 0 ∨ length emails = 0%nat)
  then Some (Err (Errorf "empty email list or book id" None), c, w)
  else
    match json_Marshal E (VList (Email_value <$> emails)) with
    | None => Some (Err (Errorf "failed to serialize emails: %w" (Some (LibError "json"))), c, w)
    | Some emailsJSON =>
        let data := VMap {[ "emails" := VString emailsJSON ]} in
        discard (sendRequest fuel c ("addressbooks/" +:+ Fmt.dec bookID +:+ "/emails")
                   "POST" (Some data) true w)
    end.

Definition RemoveEmails (fuel : nat) (c : Client) (bookID : Z) (emails : list string)
    (w : World) : Run unit :=
  if decide (bookID = 0 ∨ length emails = 0%nat)
  then Some (Err (Errorf "empty email list or book id" None), c, w)
  else
    match json_Marshal E (strings_value emails) with
    | None => Some (Err (Errorf "failed to serialize emails: %w" (Some (LibError "json"))), c, w)
    | Some emailsJSON =>
        let data := VMap {[ "emails" := VString emailsJSON ]} in
        discard (sendRequest fuel c ("addressbooks/" +:+ Fmt.dec bookID +:+ "/emails")
                   "DELETE" (Some data) true w)
    end.

Definition GetEmailInfo (fuel : nat) (c : Client) (bookID : Z) (email : string) (w : World)
    : Run Email :=
  if decide (bookID = 0 ∨ email = "")
  then Some (Err (Errorf "empty email or book id" None), c, w)
  else
    decode TEmail "failed to parse email info: %w"
      (sendRequest fuel c ("addressbooks/" +:+ Fmt.dec bookID +:+ "/emails/" +:+ email)
         "GET" None true w).

Definition UpdateEmailVariables (fuel : nat) (c : Client) (bookID : Z) (email : string)
    (variables : gmap string Value) (w : World) : Run unit :=
  if decide (bookID = 0 ∨ email = "" ∨ size variables = 0%nat)
  then Some (Err (Errorf "empty email, variables or book id" None), c, w)
  else
    let data := VMap {[ "email" := VString email; "variables" := VMap variables ]} in
    discard (sendRequest fuel c ("addressbooks/" +:+ Fmt.dec bookID +:+ "/emails/variable")
               "POST" (Some data) true w).

(** **** Campaigns *)

Definition ListCampaigns (fuel : nat) (c : Client) (limit offset : Z) (w : World)
    : Run (list Campaign) :=
  decode TCampaigns "failed to parse campaigns: %w"
    (sendRequest fuel c "campaigns" "GET" (Some (VMap (paging limit offset))) true w).

Definition GetCampaignInfo (fuel : nat) (c : Client) (id : Z) (w : World) : Run Campaign :=
  if decide (id = 0) then Some (Err (Errorf "empty campaign id" None), c, w)
  else
    decode TCampaign "failed to parse campaign: %w"
      (sendRequest fuel c ("campaigns/" +:+ Fmt.dec id) "GET" None true w).

(** The error of [json.Marshal(attachments)] is dropped by the code; a
    failed marshal leaves the empty string. *)
Definition CreateCampaign (fuel : nat) (c : Client)
    (senderName senderEmail subject body : string) (bookID : Z) (name : string)
    (attachments : list string) (w : World) : Run Campaign :=
  if decide (senderName = "" ∨ senderEmail = "" ∨ subject = "" ∨ body = "" ∨ bookID = 0)
  then Some (Err (Errorf "missing required campaign data" None), c, w)
  else
    let data : gmap string Value :=
      {[ "sender_name" := VString senderName;
         "sender_email" := VString senderEmail;
         "subject" := VString subject;
         "body" := VString (Base64.EncodeToString body);
         "list_id" := VInt bookID;
         "name" := VString name ]} in
    let data :=
      if decide (0 < length attachments)%nat
      then <["attachments" := VString (default "" (json_Marshal E (strings_value attachments)))]> data
      else data in
    decode TCampaign "failed to parse campaign: %w"
      (sendRequest fuel c "campaigns" "POST" (Some (VMap data)) true w).

Definition CancelCampaign (fuel : nat) (c : Client) (id : Z) (w : World) : Run unit :=
  if decide (id = 0) then Some (Err (Errorf "empty campaign id" None), c, w)
  else discard (sendRequest fuel c ("campaigns/" +:+ Fmt.dec id) "DELETE" None true w).

(** **** SMTP *)

(** The body a [Run string] carries, [nil] (the empty string once
    converted) on an error. *)
Definition body_of (r : result string) : string :=
  match r with Ok s => s | Err _ => "" end.

Definition error_of (r : result string) : result unit :=
  match r with Ok _ => Ok () | Err err => Err err end.

(** The [html] entry of the map after the type assertion
    [emailData["html"].(string)] and the assignment that follows it. *)
Definition encodeHTML (emailData : gmap string Value) : gmap string Value :=
  match emailData !! "html" with
  | Some (VString html) => <["html" := VString (Base64.EncodeToString html)]> emailData
  | _ => emailData
  end.

(** [SMTPSendMail].  The map is held by reference: [None] is the nil map,
    [Some l] a map whose entries are [heap w !! l], shared with the
    caller.  A reference to no map is not a Go state and gives no
    outcome. *)
Definition SMTPSendMail (fuel : nat) (c : Client) (emailData : option loc) (w : World)
    : Run unit :=
  match emailData with
  | None => Some (Err (Errorf "empty email data" None), c, w)
  | Some l =>
      match heap w !! l with
      | None => None
      | Some m =>
          let w1 :=
            match m !! "html" with
            | Some (VString _) => set_heap (<[l := encodeHTML m]> (heap w)) w
            | _ => w
            end in
          match json_Marshal E (VMap (encodeHTML m)) with
          | None =>
              Some (Err (Errorf "failed to serialize email data: %w" (Some (LibError "json"))),
                    c, w1)
          | Some emailJSON =>
              let data := VMap {[ "email" := VString emailJSON ]} in
              match sendRequest fuel c "smtp/emails" "POST" (Some data) true w1 with
              | None => None
              | Some (r, c', w') =>
                  Some (error_of r, c',
                        log (EvPrint ("Response: " +:+ body_of r +:+ newline)) w')
              end
          end
      end
  end.

Definition SMTPListEmails (fuel : nat) (c : Client) (limit offset : Z)
    (fromDate toDate sender recipient : string) (w : World)
    : Run (list (gmap string Value)) :=
  let params : gmap string Value :=
    {[ "limit" := VInt limit;
       "offset" := VInt offset;
       "from" := VString fromDate;
       "to" := VString toDate;
       "sender" := VString sender;
       "recipient" := VString recipient ]} in
  decode TMaps "failed to parse emails: %w"
    (sendRequest fuel c "smtp/emails" "GET" (Some (VMap params)) true w).

(** **** SMS *)

Definition SMSAddPhones (fuel : nat) (c : Client) (bookID : Z) (phones : list string)
    (w : World) : Run unit :=
  if decide (bookID = 0 ∨ length phones = 0%nat)
  then Some (Err (Errorf "empty phones or book id" None), c, w)
  else
    match json_Marshal E (strings_value phones) with
    | None => Some (Err (Errorf "failed to serialize phones: %w" (Some (LibError "json"))), c, w)
    | Some phonesJSON =>
        let data := VMap {[ "addressBookId" := VInt bookID; "phones" := VString phonesJSON ]} in
        discard (sendRequest fuel c "sms/numbers" "POST" (Some data) true w)
    end.

Definition SMSAddPhonesWithVariables (fuel : nat) (c : Client) (bookID : Z)
    (phones : list Phone) (w : World) : Run unit :=
  if decide (bookID = 0 ∨ length phones = 0%nat)
  then Some (Err (Errorf "empty phones or book id" None), c, w)
  else
    match json_Marshal E (VList (Phone_value <$> phones)) with
    | None => Some (Err (Errorf "failed to serialize phones: %w" (Some (LibError "json"))), c, w)
    | Some phonesJSON =>
        let data := VMap {[ "addressBookId" := VInt bookID; "phones" := VString phonesJSON ]} in
        discard (sendRequest fuel c "sms/numbers/variables" "POST" (Some data) true w)
    end.

Definition SMSSend (fuel : nat) (c : Client) (senderName : string) (phones : list string)
    (body : string) (date : option Time) (transliterate : bool) (route : string) (w : World)
    : Run unit :=
  if decide (senderName = "" ∨ length phones = 0%nat ∨ body = "")
  then Some (Err (Errorf "missing required SMS data" None), c, w)
  else
    match json_Marshal E (strings_value phones) with
    | None => Some (Err (Errorf "failed to serialize phones: %w" (Some (LibError "json"))), c, w)
    | Some phonesJSON =>
        let data : gmap string Value :=
          {[ "sender" := VString senderName;
             "phones" := VString phonesJSON;
             "body" := VString body;
             "transliterate" := VBool transliterate;
             "route" := VString route ]} in
        let data :=
          match date with
          | Some d => <["date" := VString (time_Format E "2006-01-02 15:04:05" d)]> data
          | None => data
          end in
        discard (sendRequest fuel c "sms/send" "POST" (Some (VMap data)) true w)
    end.

Definition SMSAddCampaign (fuel : nat) (c : Client) (senderName : string) (bookID : Z)
    (body : string) (date : option Time) (transliterate : bool) (w : World)
    : Run SMSCampaign :=
  if decide (senderName = "" ∨ bookID = 0 ∨ body = "")
  then Some (Err (Errorf "missing required SMS campaign data" None), c, w)
  else
    let data : gmap string Value :=
      {[ "sender" := VString senderName;
         "addressBookId" := VInt bookID;
         "body" := VString body;
         "transliterate" := VBool transliterate ]} in
    let data :=
      match date with
      | Some d => <["date" := VString (time_Format E "2006-01-02 15:04:05" d)]> data
      | None => data
      end in
    decode TSMSCampaign "failed to parse SMS campaign: %w"
      (sendRequest fuel c "sms/campaigns" "POST" (Some (VMap data)) true w).

(** **** Utilities *)

Definition GetBalance (fuel : nat) (c : Client) (currency : string) (w : World)
    : Run (gmap string Value) :=
  let url := if decide (currency = "") then "balance"
             else "balance/" +:+ strings_ToUpper E currency in
  decode TMap "failed to parse balance: %w" (sendRequest fuel c url "GET" None true w).

Definition allowedMethods : list string := ["POST"; "GET"; "DELETE"; "PUT"; "PATCH"].

(** The loop of [SendRawRequest] over [allowedMethods], with its [break]. *)
Fixpoint methodAllowed (method : string) (ms : list string) : bool :=
  match ms with
  | [] => false
  | m :: ms' => if decide (method = m) then true else methodAllowed method ms'
  end.

Definition SendRawRequest (fuel : nat) (c : Client) (path method : string)
    (data : option Value) (w : World) : Run string :=
  if negb (methodAllowed method allowedMethods)
  then Some (Err (Errorf "method not allowed" None), c, w)
  else sendRequest fuel c path method data true w.

End Client.

(* ===================================================================== *)
(** ** Properties as predicates on one call *)

(** The events a call added to the trace. *)
Definition added (w w' : World) : list Event := drop (length (trace w)) (trace w').

(** [w'] is [w] with more events, and maybe other files. *)
Definition extends (w w' : World) : Prop :=
  heap w' = heap w ∧ dirs w' = dirs w ∧ ∃ evs, trace w' = trace w ++ evs.

(** A response asks for a refresh: status 401 without the invalid-client
    signal. *)
Definition asks_refresh (h : HttpResult) : bool :=
  match h with
  | Response StatusCode body =>
      bool_decide (StatusCode = 401) && negb (Strings.Contains body "invalid_client")
  | _ => false
  end.

(** The answer to the first request of [sendRequest], [None] when no request
    could be made. *)
Definition first_response (E : Env) (c : Client) (path method : string) (data : option Value)
    (useToken : bool) (w : World) : option HttpResult :=
  match newRequest E c path method data useToken with
  | Ok req => Some (httpClient_Do E (requests (trace w)) req)
  | Err _ => None
  end.

(** The request re-issued after a refresh: same method, URL and body, the
    Authorization header set from the refreshed token [tok] when it is not
    empty. *)
Definition reissued (tok : string) (req : Request) : Request :=
  let header : gmap string string := {[ "Content-Type" := "application/json" ]} in
  {| req_method := req_method req;
     req_url := req_url req;
     req_body := req_body req;
     req_header := if bool_decide (tok = "") then header
                   else <["Authorization" := "Bearer " +:+ tok]> header |}.

(** Every call answered by a refresh-asking 401 makes exactly one [getToken]
    call and exactly one retried request. *)
Definition one_fetch_one_retry (E : Env) (fuel : nat) (c : Client) (path method : string)
    (data : option Value) (useToken : bool) (w : World) : Prop :=
  ∀ h r c' w',
    first_response E c path method data useToken w = Some h →
    asks_refresh h = true →
    sendRequest E fuel c path method data useToken w = Some (r, c', w') →
    fetches (added w w') = 1%nat ∧ retries (added w w') = 1%nat.


(** The token request that [getToken] sends through [sendRequest], and the
    three ways for [getToken] to fail: that call returns an error, its body
    does not parse, the token file cannot be written. *)
Definition token_call (E : Env) (fuel : nat) (c : Client) (w : World) : Run string :=
  sendRequest E fuel c "oauth/access_token" "POST" (Some (tokenRequestData c)) false
    (log EvFetch w).

Definition http_layer_errs (E : Env) (fuel : nat) (c : Client) (w : World) : Prop :=
  ∃ err c1 w1, token_call E fuel c w = Some (Err err, c1, w1).

Definition body_unparsable (E : Env) (fuel : nat) (c : Client) (w : World) : Prop :=
  ∃ resp c1 w1,
    token_call E fuel c w = Some (Ok resp, c1, w1)
    ∧ json_Unmarshal E TTokenResponse resp = None.

Definition write_fails (E : Env) (fuel : nat) (c : Client) (w : World) : Prop :=
  ∃ resp c1 w1 tokenResp,
    token_call E fuel c w = Some (Ok resp, c1, w1)
    ∧ json_Unmarshal E TTokenResponse resp = Some tokenResp
    ∧ os_WriteFile_ok E (tokenPath E c1) = false.

(** The string that is hashed, and the value of a hexadecimal digit. *)
Definition joined (userID secret : string) : string := userID +:+ "::" +:+ secret.

Definition hex_value (a : ascii) : Z :=
  let n := byte_of a in
  if n <? 58 then n - 48 else n - 87.

(** Distinct credential pairs have distinct fingerprints. *)
Definition fingerprint_injective : Prop :=
  ∀ u s u' s', (u, s) ≠ (u', s') → fingerprint u s ≠ fingerprint u' s'.

(** No request sent during a call with [useToken = false] carries an
    Authorization header. *)
Definition never_authorized (E : Env) (fuel : nat) (c : Client) (path method : string)
    (data : option Value) (w : World) : Prop :=
  ∀ r c' w' req,
    sendRequest E fuel c path method data false w = Some (r, c', w') →
    req ∈ requests (added w w') →
    req_header req !! "Authorization" = None.

(** After [SMTPSendMail] the caller's map holds the encoding under "html"
    and no longer the original string. *)
Definition html_replaced (E : Env) (fuel : nat) (c : Client) (l : loc) (w : World) : Prop :=
  ∀ m html r c' w',
    heap w !! l = Some m →
    m !! "html" = Some (VString html) →
    SMTPSendMail E fuel c (Some l) w = Some (r, c', w') →
    ∃ m', heap w' !! l = Some m'
          ∧ m' !! "html" = Some (VString (Base64.EncodeToString html))
          ∧ m' !! "html" ≠ Some (VString html).

(** The local argument checks: the errors they return. *)
Definition validation_messages : list string :=
  [ "empty book name"; "empty book name or book id"; "empty book id";
    "empty email list or book id"; "empty email or book id";
    "empty email, variables or book id"; "empty campaign id";
    "missing required campaign data"; "empty email data";
    "empty phones or book id"; "missing required SMS data";
    "missing required SMS campaign data"; "method not allowed" ].

Definition ValidationError (e : error) : Prop :=
  ∃ msg, msg ∈ validation_messages ∧ e = Errorf msg None.

Definition CredentialsError (e : error) : Prop :=
  e = Errorf ErrInvalidCredentials None.

(** What a refused call returns: an error of the local checks, the client
    and the world as they were (no request). *)
Definition refused {A} (c : Client) (w : World) (run : Run A) : Prop :=
  ∃ e, run = Some (Err e, c, w) ∧ ValidationError e.

(* ===================================================================== *)
(** ** A scripted environment

    The [n]-th request is answered by the [n]-th entry of [script] and by a
    transport failure once the script is over; a response body is taken to
    be the token itself; every payload marshals to the same text.  A
    directory is made without parents; with [writable] off the token file
    cannot be opened. *)

Definition scripted_Unmarshal (t : GoType) : string → option (denote t) :=
  match t with
  | TTokenResponse =>
      λ body, Some {| AccessToken := body; TokenType := "Bearer"; ExpiresIn := 3600 |}
  | _ => λ _, None
  end.

Definition scripted (script : list HttpResult) (writable : bool) : Env :=
  {| json_Marshal := λ _, Some "{}";
     json_Unmarshal := scripted_Unmarshal;
     filepath_Join := λ dir name, dir +:+ "/" +:+ name;
     http_NewRequest := λ _ _, true;
     httpClient_Do := λ earlier _, default DoError (script !! length earlier);
     os_MkdirAll_ok := λ _, true;
     os_MkdirAll_made := λ _, ∅;
     os_WriteFile_ok := λ _, writable;
     os_WriteFile_partial := λ _, None;
     strings_ToUpper := λ s, s;
     time_Format := λ _ _, "2006-01-02 15:04:05" |}.

(** As [scripted] on a disk where a file is opened and the write then
    fails after [n] bytes, and where a directory is made after the parents
    [parents]. *)
Definition scripted_disk (script : list HttpResult) (n : nat) (parents : gset string) : Env :=
  {| json_Marshal := λ _, Some "{}";
     json_Unmarshal := scripted_Unmarshal;
     filepath_Join := λ dir name, dir +:+ "/" +:+ name;
     http_NewRequest := λ _ _, true;
     httpClient_Do := λ earlier _, default DoError (script !! length earlier);
     os_MkdirAll_ok := λ _, true;
     os_MkdirAll_made := λ _, parents;
     os_WriteFile_ok := λ _, false;
     os_WriteFile_partial := λ _, Some n;
     strings_ToUpper := λ s, s;
     time_Format := λ _ _, "2006-01-02 15:04:05" |}.

Definition world0 : World :=
  {| files := ∅; dirs := {["tokens"]}; heap := ∅; trace := [] |}.

Definition client0 : Client := NewClient "user" "secret" "tokens".

(** A client that already holds a token. *)
Definition client1 : Client := set_Token "cached" client0.

(** The token file of ["user"] and ["secret"] under ["tokens"], and a world
    where it holds a token. *)
Definition token_file : string := "tokens/20b4b61d3f0126b9aac227a68dbe3e26".

Definition world_cached : World :=
  {| files := {[ token_file := "cached" ]}; dirs := {["tokens"]}; heap := ∅; trace := [] |}.

(** Worlds where the caller holds a map at address 1: one whose "html"
    entry is a page, one whose "html" entry is the empty string, one with no
    entry at all. *)
Definition world_mail (emailData : gmap string Value) : World :=
  {| files := ∅; dirs := {["tokens"]}; heap := {[ 1%positive := emailData ]}; trace := [] |}.

Definition mail_page : gmap string Value :=
  {[ "html" := VString "<p>Hi</p>"; "subject" := VString "Hello" ]}.

Definition mail_blank : gmap string Value :=
  {[ "html" := VString ""; "subject" := VString "Hello" ]}.

Definition json_headers : gmap string string := {[ "Content-Type" := "application/json" ]}.

Definition bearer (tok : string) : gmap string string :=
  <["Authorization" := "Bearer " +:+ tok]> json_headers.

(** The requests the scripted runs below send. *)
Definition balance_request (header : gmap string string) : Request :=
  {| req_method := "GET"; req_url := "https://api.sendpulse.com/balance";
     req_body := None; req_header := header |}.

Definition token_request : Request :=
  {| req_method := "POST"; req_url := "https://api.sendpulse.com/oauth/access_token";
     req_body := Some "{}"; req_header := json_headers |}.

Definition mail_request (header : gmap string string) : Request :=
  {| req_method := "POST"; req_url := "https://api.sendpulse.com/smtp/emails";
     req_body := Some "{}"; req_header := header |}.

(* ===================================================================== *)
(** ** What the client keeps *)

(** The fields of the client that only [NewClient] sets. *)
Definition same_credentials (c c' : Client) : Prop :=
  UserID c' = UserID c ∧ Secret c' = Secret c ∧ TokenStorage c' = TokenStorage c
  ∧ httpClient_Timeout c' = httpClient_Timeout c.

(** Of the world outside the trace, at most the token file of [c] differs
    between [w] and [w']. *)
Definition token_file_only (E : Env) (c : Client) (w w' : World) : Prop :=
  heap w' = heap w ∧ dirs w' = dirs w
  ∧ ∀ path, path ≠ tokenPath E c → files w' !! path = files w !! path.

Definition keeps (E : Env) (c : Client) (w : World) (c' : Client) (w' : World) : Prop :=
  same_credentials c c' ∧ token_file_only E c w w'.

(** The token file holds the token the client has in memory. *)
Definition cached (E : Env) (c : Client) (w : World) : Prop :=
  files w !! tokenPath E c = Some (Token c).

(** A request as this package makes them: to the API host, with a JSON
    content type, and with no other header than the bearer token. *)
Definition api_request (req : Request) : Prop :=
  Strings.HasPrefix (req_url req) (APIUrl +:+ "/") = true
  ∧ (req_header req = json_headers ∨ ∃ tok, tok ≠ "" ∧ req_header req = bearer tok).

(** The answers to a token request that make [getToken] fail without any
    further request: no answer, an answer that cannot be read, a 401 that
    names invalid_client, a body that does not parse, a token file that
    cannot be written. *)
Definition fetch_fails (E : Env) (c : Client) (h : HttpResult) : Prop :=
  match h with
  | DoError | ReadError => True
  | Response StatusCode body =>
      StatusCode = 401
      ∨ json_Unmarshal E TTokenResponse body = None
      ∨ os_WriteFile_ok E (tokenPath E c) = false
  end.

(** What the trace gained holds only requests as the package makes them. *)
Definition sends_api_requests (w w' : World) : Prop :=
  ∃ evs, trace w' = trace w ++ evs ∧ Forall api_request (requests evs).

(** An environment like [scripted], with a server that gives the same answer
    to every request. *)
Definition stubborn (h : HttpResult) : Env :=
  {| json_Marshal := λ _, Some "{}";
     json_Unmarshal := scripted_Unmarshal;
     filepath_Join := λ dir name, dir +:+ "/" +:+ name;
     http_NewRequest := λ _ _, true;
     httpClient_Do := λ _ _, h;
     os_MkdirAll_ok := λ _, true;
     os_MkdirAll_made := λ _, ∅;
     os_WriteFile_ok := λ _, true;
     os_WriteFile_partial := λ _, None;
     strings_ToUpper := λ s, s;
     time_Format := λ _ _, "2006-01-02 15:04:05" |}.

(** A public method behaves: the credentials stay, at most the token file
    changes, and every request goes to the API. *)
Definition behaves (E : Env) (c : Client) (w : World) {A} (run : Run A) : Prop :=
  ∀ r c' w', run = Some (r, c', w') → keeps E c w c' w' ∧ sends_api_requests w w'.

(** What [SMTPSendMail] keeps: as [behaves], but for the maps of the
    callers. *)
Definition behaves_but_heap (E : Env) (c : Client) (w : World) {A} (run : Run A) : Prop :=
  ∀ r c' w',
    run = Some (r, c', w') →
    same_credentials c c' ∧ dirs w' = dirs w
    ∧ (∀ path, path ≠ tokenPath E c → files w' !! path = files w !! path)
    ∧ sends_api_requests w w'.

(* ===================================================================== *)
(** ** The batch script (package main)

    [main] reads a template and a workbook, makes a client and sends the
    template to the first column of each sheet.  The libraries it calls
    ([godotenv], [excelize], [strings.TrimSpace], the text of an error) are
    a [Host]; the files are those of the [World]. *)

Module Main.

(** [cooldown], in minutes. *)
Definition cooldown : nat := 70.

(** A workbook: the sheets in the order of [GetSheetList], each with what
    [GetRows] gives for it. *)
Definition Workbook : Type := list (string * result (list (list string))).

(** - [godotenv_Load]: the error of [godotenv.Load], if any;
    - [os_Getenv]: the environment once it is loaded;
    - [excelize_OpenFile], with the sheets it will give;
    - [strings_TrimSpace];
    - [error_text]: [err.Error()], as [%v] prints it. *)
Record Host : Type := mkHost {
  godotenv_Load : option error;
  os_Getenv : string → string;
  excelize_OpenFile : string → result Workbook;
  strings_TrimSpace : string → string;
  error_text : error → string;
}.

(** The running script: its client, the world, and for every
    [time.Sleep(time.Minute)] so far the number of events before it. *)
Record Process : Type := mkProcess {
  client : Client;
  world : World;
  naps : list nat;
}.

(** How [main] ends. *)
Inductive Exit : Type :=
| Returned
| Panicked (e : error).

(** [fmt.Printf] and [fmt.Println], once formatted. *)
Definition print (line : string) (p : Process) : Process :=
  {| client := client p; world := log (EvPrint line) (world p); naps := naps p |}.

(** [time.Sleep(time.Minute)]. *)
Definition sleep (p : Process) : Process :=
  {| client := client p; world := world p;
     naps := naps p ++ [length (trace (world p))] |}.

(** A map literal: a new map, at an address that holds none. *)
Definition newMap (m : gmap string Value) (w : World) : loc * World :=
  let l := fresh (dom (heap w)) in
  (l, set_heap (<[l := m]> (heap w)) w).

(** The [emailData] literal of the loop. *)
Definition emailData (templateStr email : string) : gmap string Value :=
  {[ "html" := VString templateStr;
     "text" := VString "";
     "subject" := VString "Bewerbung um einen Ausbildungsplatz als Bauzeichner";
     "from" := VMap {[ "name" := VString "Bachar Gmagour";
                       "email" := VString "bewerbung@bachargmagour.com" ]};
     "to" := VList [VMap {[ "email" := VString email ]}] ]}.

Section Script.

Variable E : Env.
Variable H : Host.
Variable fuel : nat.

(** The loop [for i := 1; i < len(rows) && i <= 50; i++] from row [i] on:
    [rest] is [rows[i:]], so that [i < len(rows)] reads [rest] is not
    empty. *)
Fixpoint rowsLoop (templateStr sheet : string) (rest : list (list string)) (i : nat)
    (sent : Z) (p : Process) : option (Z * Process) :=
  match rest with
  | [] => Some (sent, p)
  | row :: rest' =>
      if decide (i ≤ 50)%nat then
        match row with
        | [] => rowsLoop templateStr sheet rest' (S i) sent p
        | cell :: _ =>
            let email := strings_TrimSpace H cell in
            if decide (email = "") then rowsLoop templateStr sheet rest' (S i) sent p
            else
              let '(l, w1) := newMap (emailData templateStr email) (world p) in
              match SMTPSendMail E fuel (client p) (Some l) w1 with
              | None => None
              | Some (Err err, c', w2) =>
                  rowsLoop templateStr sheet rest' (S i) sent
                    (print ("❌ Failed to send email to " +:+ email +:+ ": "
                            +:+ error_text H err +:+ newline)
                       {| client := c'; world := w2; naps := naps p |})
              | Some (Ok _, c', w2) =>
                  rowsLoop templateStr sheet rest' (S i) (sent + 1)
                    (print ("✅ Email sent to " +:+ email +:+ " (sheet: " +:+ sheet
                            +:+ ", row: " +:+ Fmt.dec (Z.of_nat i + 1) +:+ ")" +:+ newline)
                       {| client := c'; world := w2; naps := naps p |})
              end
        end
      else Some (sent, p)
  end.

(** The loop [for remaining := cooldown; remaining > 0; remaining -=
    time.Minute], in minutes. *)
Fixpoint cooldownLoop (remaining : nat) (p : Process) : Process :=
  match remaining with
  | O => p
  | S remaining' =>
      cooldownLoop remaining'
        (sleep (print ("🕒 " +:+ Fmt.dec (Z.of_nat remaining) +:+ " minutes remaining..."
                       +:+ newline) p))
  end.

(** The loop over the sheets from sheet [si] on: [sheets] is what is left,
    so that [si < len(sheets)-1] reads one more sheet follows. *)
Fixpoint sheetsLoop (templateStr : string) (sheets : Workbook) (p : Process)
    : option Process :=
  match sheets with
  | [] => Some p
  | (sheet, got) :: rest =>
      let p := print ("📄 Processing sheet: " +:+ sheet +:+ newline) p in
      match got with
      | Err err =>
          sheetsLoop templateStr rest
            (print ("❌ Failed to read rows from sheet " +:+ sheet +:+ ": "
                    +:+ error_text H err +:+ newline) p)
      | Ok rows =>
          if decide (length rows < 2)%nat then
            sheetsLoop templateStr rest
              (print ("⚠️  Sheet " +:+ sheet +:+ " has no emails to send." +:+ newline) p)
          else
            match rowsLoop templateStr sheet (drop 1 rows) 1 0 p with
            | None => None
            | Some (sent, p) =>
                let p := print ("✅ Finished sheet " +:+ sheet +:+ ": " +:+ Fmt.dec sent
                                +:+ " emails sent" +:+ newline) p in
                let p :=
                  match rest with
                  | [] => p
                  | _ :: _ =>
                      cooldownLoop cooldown
                        (print ("⏳ Waiting 70 minutes before next batch..." +:+ newline) p)
                  end in
                sheetsLoop templateStr rest p
            end
      end
  end.

(** [main]: how it ends, the world it leaves and the sleeps it made.  The
    text a panic writes on standard error is not part of the trace. *)
Definition main (w : World) : option (Exit * World * list nat) :=
  match godotenv_Load H with
  | Some err => Some (Panicked err, w, [])
  | None =>
      match ReadFile "template.html" w with
      | None =>
          Some (Panicked (Errorf "failed to read template: %w" (Some (LibError "os"))), w, [])
      | Some templateStr =>
          match excelize_OpenFile H "out.xlsx" with
          | Err err =>
              Some (Panicked (Errorf "failed to open Excel file: %w" (Some err)), w, [])
          | Ok sheets =>
              let c := NewClient (os_Getenv H "CLIENT_ID") (os_Getenv H "CLIENT_SECRET")
                         "tokens" in
              match Init E fuel c w with
              | None => None
              | Some (Err err, _, w1) => Some (Panicked err, w1, [])
              | Some (Ok _, c1, w1) =>
                  match sheetsLoop templateStr sheets
                          {| client := c1; world := w1; naps := [] |} with
                  | None => None
                  | Some p =>
                      Some (Returned,
                            world (print ("🎉 All sheets processed!" +:+ newline) p),
                            naps p)
                  end
              end
          end
      end
  end.

End Script.

(** The address a row gives, if any: its first cell, trimmed, when the row
    has cells and that one is not blank. *)
Definition recipient (H : Host) (row : list string) : option string :=
  match row with
  | [] => None
  | cell :: _ =>
      let email := strings_TrimSpace H cell in
      if decide (email = "") then None else Some email
  end.

(** The addresses the loop of one sheet mails, in order: those of the rows
    2 to 51. *)
Definition recipients (H : Host) (rows : list (list string)) : list string :=
  omap (recipient H) (take 50 (drop 1 rows)).

(** The map of a mail once [SMTPSendMail] has been given it: the template
    encoded once. *)
Definition mailed (templateStr email : string) : gmap string Value :=
  <["html" := VString (Base64.EncodeToString templateStr)]> (emailData templateStr email).

(** The sheets after which [main] waits: those followed by another sheet,
    whose rows could be read and are at least two. *)
Fixpoint waits (sheets : Workbook) : nat :=
  match sheets with
  | [] => 0
  | (_, got) :: rest =>
      (match got, rest with
       | Ok rows, _ :: _ => if decide (length rows < 2)%nat then 0 else 1
       | _, _ => 0
       end + waits rest)%nat
  end.

(** The lines of a wait of [n] minutes, as the loop over [remaining] prints
    them: from [n] minutes down to 1. *)
Fixpoint countdown (n : nat) : list Event :=
  match n with
  | O => []
  | S n' =>
      EvPrint ("🕒 " +:+ Fmt.dec (Z.of_nat n) +:+ " minutes remaining..." +:+ newline)
      :: countdown n'
  end.

(** A host for scripted runs: the environment holds the credentials of
    [client0], cells are taken as they are, errors print as "error". *)
Definition host (book : Workbook) : Host :=
  {| godotenv_Load := None;
     os_Getenv := λ name, if decide (name = "CLIENT_ID") then "user"
                          else if decide (name = "CLIENT_SECRET") then "secret" else "";
     excelize_OpenFile := λ _, Ok book;
     strings_TrimSpace := λ s, s;
     error_text := λ _, "error" |}.

End Main.

(** A process, a sheet and a workbook for scripted runs: a header row, two
    rows with an address, an empty row and a row with a blank cell. *)
Definition process0 : Main.Process :=
  {| Main.client := client1; Main.world := world0; Main.naps := [] |}.

Definition sheet0 : list (list string) :=
  [ ["Email"]; ["a@example.org"]; []; [""]; ["b@example.org"; "B"] ].

Definition book0 : Main.Workbook :=
  [ ("one", Ok sheet0); ("bad", Err (LibError "excelize")); ("none", Ok [["Email"]]);
    ("two", Ok sheet0); ("last", Ok sheet0) ].

(** A world with the template and a cached token for ["user"]. *)
Definition world_batch : World :=
  {| files := {[ "template.html" := "<p>Hi</p>"; token_file := "cached" ]};
     dirs := {["tokens"]}; heap := ∅; trace := [] |}.

(* ===================================================================== *)
(** ** Library functions: checks against known values *)

Example md5_empty : Fmt.hex (Md5.Sum (bytes_of "")) = "d41d8cd98f00b204e9800998ecf8427e".
Proof. vm_compute. reflexivity. Qed.
Example md5_abc : Fmt.hex (Md5.Sum (bytes_of "abc")) = "900150983cd24fb0d6963f7d28e17f72".
Proof. vm_compute. reflexivity. Qed.
Example md5_joined : Fmt.hex (Md5.Sum (bytes_of "a::b::c")) = "ef7093beb22e1bc92d13a2a0bef471c6".
Proof. vm_compute. reflexivity. Qed.
Example md5_user : Fmt.hex (Md5.Sum (bytes_of "user::secret")) = "20b4b61d3f0126b9aac227a68dbe3e26".
Proof. vm_compute. reflexivity. Qed.
Example md5_55 : Fmt.hex (Md5.Sum (replicate 55 120)) = "04364420e25c512fd958a70738aa8f72".
Proof. vm_compute. reflexivity. Qed.
Example md5_56 : Fmt.hex (Md5.Sum (replicate 56 120)) = "668a72d5ba17f08e62dabcafad6db14b".
Proof. vm_compute. reflexivity. Qed.
Example md5_64 : Fmt.hex (Md5.Sum (replicate 64 120)) = "c1bb4f81d892b2d57947682aeb252456".
Proof. vm_compute. reflexivity. Qed.
Example md5_120 : Fmt.hex (Md5.Sum (replicate 120 120)) = "fb98667f98096de92620b64f46e1c5b5".
Proof. vm_compute. reflexivity. Qed.
Example base64_a : Base64.EncodeToString "a" = "YQ==".
Proof. vm_compute. reflexivity. Qed.
Example base64_abc : Base64.EncodeToString "abc" = "YWJj".
Proof. vm_compute. reflexivity. Qed.
Example base64_joined : Base64.EncodeToString "a::b::c" = "YTo6Yjo6Yw==".
Proof. vm_compute. reflexivity. Qed.
Example base64_user : Base64.EncodeToString "user::secr" = "dXNlcjo6c2Vjcg==".
Proof. vm_compute. reflexivity. Qed.
Example dec_12 : Fmt.dec 12 = "12" /\ Fmt.dec (-7) = "-7" /\ Fmt.dec 0 = "0".
Proof. vm_compute. auto. Qed.
Example contains_ex :
  Strings.Contains "error: invalid_client (401)" "invalid_client" = true
  /\ Strings.Contains "expired" "invalid_client" = false
  /\ Strings.Contains "" "" = true.
Proof. vm_compute. auto. Qed.

(* ===================================================================== *)
(** ** The dispatcher, case by case *)

Section Dispatcher.

Variable E : Env.

Lemma requests_app (tr1 tr2 : list Event) :
  requests (tr1 ++ tr2) = requests tr1 ++ requests tr2.
Proof.
  induction tr1 as [|ev tr1 IH]; simpl; [done|].
  destruct ev; simpl; by rewrite IH.
Qed.

Lemma added_app (w w' : World) (evs : list Event) :
  trace w' = trace w ++ evs → added w w' = evs.
Proof. unfold added. intros ->. by rewrite drop_app_length. Qed.

Lemma added_log w ev : added w (log ev w) = [ev].
Proof. by apply added_app. Qed.

(** The request could not be built: nothing is sent. *)
Lemma sendRequest_not_built fuel c path method data useToken w e :
  newRequest E c path method data useToken = Err e →
  sendRequest E (S fuel) c path method data useToken w = Some (Err e, c, w).
Proof. intros H. simpl. by rewrite H. Qed.

Lemma sendRequest_transport fuel c path method data useToken w req :
  newRequest E c path method data useToken = Ok req →
  httpClient_Do E (requests (trace w)) req = DoError →
  sendRequest E (S fuel) c path method data useToken w
  = Some (Err (Errorf "request failed: %w" (Some (LibError "http"))), c, log (EvHTTP req) w).
Proof. intros H1 H2. simpl. by rewrite H1, H2. Qed.

Lemma sendRequest_read fuel c path method data useToken w req :
  newRequest E c path method data useToken = Ok req →
  httpClient_Do E (requests (trace w)) req = ReadError →
  sendRequest E (S fuel) c path method data useToken w
  = Some (Err (Errorf "failed to read response: %w" (Some (LibError "io"))), c,
          log (EvHTTP req) w).
Proof. intros H1 H2. simpl. by rewrite H1, H2. Qed.

(** An answer other than 401 ends the call with its body. *)
Lemma sendRequest_answered fuel c path method data useToken w req status body :
  newRequest E c path method data useToken = Ok req →
  httpClient_Do E (requests (trace w)) req = Response status body →
  status ≠ 401 →
  sendRequest E (S fuel) c path method data useToken w
  = Some (Ok body, c, log (EvHTTP req) w).
Proof.
  intros Hreq Hdo Hst. simpl. rewrite Hreq, Hdo. by rewrite decide_False.
Qed.

(** The refresh path, as one equation. *)
Lemma sendRequest_refresh fuel c path method data useToken w req body :
  newRequest E c path method data useToken = Ok req →
  httpClient_Do E (requests (trace w)) req = Response 401 body →
  Strings.Contains body "invalid_client" = false →
  sendRequest E (S fuel) c path method data useToken w
  = match getToken E fuel c (log (EvHTTP req) w) with
    | None => None
    | Some (Err err, c2, w2) =>
        Some (Err (Errorf "failed to refresh token: %w" (Some err)), c2, w2)
    | Some (Ok _, c2, w2) => sendRequest E fuel c2 path method data true (log EvRetry w2)
    end.
Proof.
  intros H1 H2 H3. simpl. rewrite H1, H2. rewrite decide_True by done. by rewrite H3.
Qed.

(** [getToken] on a token request answered by something else than a 401. *)
Lemma getToken_plain fuel c w req status body tokenResp :
  newRequest E c "oauth/access_token" "POST" (Some (tokenRequestData c)) false = Ok req →
  httpClient_Do E (requests (trace w)) req = Response status body →
  status ≠ 401 →
  json_Unmarshal E TTokenResponse body = Some tokenResp →
  os_WriteFile_ok E (tokenPath E c) = true →
  getToken E (S fuel) c w
  = Some (Ok (), set_Token (AccessToken tokenResp) c,
          set_files (<[tokenPath E c := AccessToken tokenResp]> (files w))
            (log (EvHTTP req) (log EvFetch w))).
Proof.
  intros H1 H2 H3 H4 H5. unfold getToken, getToken_with. simpl sendRequest.
  rewrite H1. replace (requests (trace w ++ [EvFetch])) with (requests (trace w))
    by (rewrite requests_app; simpl; by rewrite app_nil_r).
  rewrite H2. rewrite decide_False by done. rewrite H4.
  unfold WriteFile. change (tokenPath E (set_Token _ c)) with (tokenPath E c).
  by rewrite H5.
Qed.

End Dispatcher.

(* ===================================================================== *)
(** ** What a call leaves alone *)

Section Frame.

Variable E : Env.

Lemma extends_refl w : extends w w.
Proof. repeat split. exists []. by rewrite app_nil_r. Qed.

Lemma extends_trans w1 w2 w3 : extends w1 w2 → extends w2 w3 → extends w1 w3.
Proof.
  intros (Hh1 & Hd1 & evs1 & Ht1) (Hh2 & Hd2 & evs2 & Ht2).
  repeat split; [congruence | congruence |].
  exists (evs1 ++ evs2). rewrite Ht2, Ht1. by rewrite app_assoc.
Qed.

Lemma extends_log w ev : extends w (log ev w).
Proof. repeat split. by exists [ev]. Qed.

Lemma extends_set_files w fs : extends w (set_files fs w).
Proof. repeat split. exists []. simpl. by rewrite app_nil_r. Qed.

Lemma extends_WriteFile path content w w' :
  WriteFile E path content w = Some w' → extends w w'.
Proof.
  unfold WriteFile. destruct (os_WriteFile_ok E path); [|done].
  intros [= <-]. apply extends_set_files.
Qed.

Lemma extends_failedWrite path content w : extends w (failedWrite E path content w).
Proof.
  unfold failedWrite. destruct (os_WriteFile_partial E path);
    [apply extends_set_files | apply extends_refl].
Qed.

(** [getToken] keeps what the [sendRequest] under it keeps, and starts
    with its mark. *)
Lemma getToken_with_extends send c w r c' w' :
  (∀ c0 path method data useToken w0 r0 c0' w0',
      send c0 path method data useToken w0 = Some (r0, c0', w0') → extends w0 w0') →
  getToken_with E send c w = Some (r, c', w') →
  extends (log EvFetch w) w'.
Proof.
  intros Hsend. unfold getToken_with.
  destruct (send c _ _ _ _ _) as [[[[resp|err] c1] w1]|] eqn:Hs; [| |done].
  - apply Hsend in Hs.
    destruct (json_Unmarshal E TTokenResponse resp) as [tokenResp|].
    + destruct (WriteFile E _ _ w1) as [w2|] eqn:Hw.
      * intros [= <- <- <-]. apply extends_WriteFile in Hw. by eapply extends_trans.
      * intros [= <- <- <-]. eapply extends_trans; [exact Hs | apply extends_failedWrite].
    + by intros [= <- <- <-].
  - apply Hsend in Hs. by intros [= <- <- <-].
Qed.

Lemma sendRequest_extends fuel :
  ∀ c path method data useToken w r c' w',
    sendRequest E fuel c path method data useToken w = Some (r, c', w') → extends w w'.
Proof.
  induction fuel as [|fuel IH]; intros c path method data useToken w r c' w'; [done|].
  simpl.
  destruct (newRequest E c path method data useToken) as [req|e].
  2: { intros [= <- <- <-]. apply extends_refl. }
  destruct (httpClient_Do E (requests (trace w)) req) as [| |status body].
  1,2: intros [= <- <- <-]; apply extends_log.
  destruct (decide (status = 401)).
  2: { intros [= <- <- <-]. apply extends_log. }
  destruct (Strings.Contains body "invalid_client").
  { intros [= <- <- <-]. apply extends_log. }
  destruct (getToken_with E (sendRequest E fuel) c (log (EvHTTP req) w))
    as [[[[[]|err] c2] w2]|] eqn:Hg; [| |done].
  - intros Hretry. apply IH in Hretry.
    apply (getToken_with_extends _ _ _ _ _ _ IH) in Hg.
    eapply extends_trans; [apply extends_log|].
    eapply extends_trans; [apply extends_log|].
    eapply extends_trans; [exact Hg|].
    eapply extends_trans; [apply extends_log|]. exact Hretry.
  - intros [= <- <- <-].
    apply (getToken_with_extends _ _ _ _ _ _ IH) in Hg.
    eapply extends_trans; [apply extends_log|].
    eapply extends_trans; [apply extends_log|]. exact Hg.
Qed.

Lemma getToken_extends fuel c w r c' w' :
  getToken E fuel c w = Some (r, c', w') → extends (log EvFetch w) w'.
Proof. apply getToken_with_extends, sendRequest_extends. Qed.

(** More fuel does not change the outcome of a call that returned. *)
Lemma sendRequest_unfold fuel c path method data useToken w :
  sendRequest E (S fuel) c path method data useToken w
  = match newRequest E c path method data useToken with
    | Err e => Some (Err e, c, w)
    | Ok req =>
        match httpClient_Do E (requests (trace w)) req with
        | DoError =>
            Some (Err (Errorf "request failed: %w" (Some (LibError "http"))), c,
                  log (EvHTTP req) w)
        | ReadError =>
            Some (Err (Errorf "failed to read response: %w" (Some (LibError "io"))), c,
                  log (EvHTTP req) w)
        | Response StatusCode respBody =>
            if decide (StatusCode = 401) then
              if Strings.Contains respBody "invalid_client" then
                Some (Err (Errorf ErrInvalidCredentials None), c, log (EvHTTP req) w)
              else
                match getToken E fuel c (log (EvHTTP req) w) with
                | None => None
                | Some (Err err, c2, w2) =>
                    Some (Err (Errorf "failed to refresh token: %w" (Some err)), c2, w2)
                | Some (Ok _, c2, w2) =>
                    sendRequest E fuel c2 path method data true (log EvRetry w2)
                end
            else Some (Ok respBody, c, log (EvHTTP req) w)
        end
    end.
Proof. reflexivity. Qed.

Lemma getToken_with_mono send send' c w out :
  (∀ c0 path method data useToken w0 out0,
      send c0 path method data useToken w0 = Some out0 →
      send' c0 path method data useToken w0 = Some out0) →
  getToken_with E send c w = Some out → getToken_with E send' c w = Some out.
Proof.
  intros Hmono. unfold getToken_with.
  destruct (send c _ _ _ _ _) as [out0|] eqn:Hs; [|done].
  by rewrite (Hmono _ _ _ _ _ _ _ Hs).
Qed.

Lemma sendRequest_fuel_S fuel :
  ∀ c path method data useToken w out,
    sendRequest E fuel c path method data useToken w = Some out →
    sendRequest E (S fuel) c path method data useToken w = Some out.
Proof.
  induction fuel as [|fuel IH]; intros c path method data useToken w out; [done|].
  rewrite (sendRequest_unfold (S fuel)), (sendRequest_unfold fuel).
  destruct (newRequest E c path method data useToken) as [req|e]; [|done].
  destruct (httpClient_Do E (requests (trace w)) req) as [| |status body]; [done..|].
  destruct (decide (status = 401)); [|done].
  destruct (Strings.Contains body "invalid_client"); [done|].
  destruct (getToken E fuel c (log (EvHTTP req) w)) as [[[r2 c2] w2]|] eqn:Hg; [|done].
  unfold getToken in *. rewrite (getToken_with_mono _ _ _ _ _ IH Hg).
  destruct r2 as [[]|err]; [apply IH|done].
Qed.

Lemma sendRequest_fuel_le fuel fuel' c path method data useToken w out :
  (fuel ≤ fuel')%nat →
  sendRequest E fuel c path method data useToken w = Some out →
  sendRequest E fuel' c path method data useToken w = Some out.
Proof.
  induction 1 as [|fuel' _ IH]; [done|]. intros Hout. by apply sendRequest_fuel_S, IH.
Qed.

End Frame.

(* ===================================================================== *)
(** ** The refresh, step by step *)

Section Refreshing.

Variable E : Env.

Lemma asks_refresh_inv h :
  asks_refresh h = true →
  ∃ body, h = Response 401 body ∧ Strings.Contains body "invalid_client" = false.
Proof.
  destruct h as [| |status body]; [done..|]. simpl.
  intros [Hst Hsig]%andb_true_iff. apply bool_decide_eq_true in Hst as ->.
  exists body. split; [done|]. by apply negb_true_iff.
Qed.

Lemma requests_log_other w ev :
  (∀ r, ev ≠ EvHTTP r) → requests (trace (log ev w)) = requests (trace w).
Proof.
  intros Hev. simpl. rewrite requests_app.
  destruct ev; simpl; rewrite ?app_nil_r; try done. by destruct (Hev r).
Qed.

Lemma requests_log_http w req :
  requests (trace (log (EvHTTP req) w)) = requests (trace w) ++ [req].
Proof. simpl. by rewrite requests_app. Qed.

Lemma fetches_app tr1 tr2 : fetches (tr1 ++ tr2) = (fetches tr1 + fetches tr2)%nat.
Proof. unfold fetches. by rewrite filter_app, length_app. Qed.

Lemma retries_app tr1 tr2 : retries (tr1 ++ tr2) = (retries tr1 + retries tr2)%nat.
Proof. unfold retries. by rewrite filter_app, length_app. Qed.

Lemma fetches_cons ev tr :
  fetches (ev :: tr) = ((if is_fetch ev then 1 else 0) + fetches tr)%nat.
Proof.
  unfold fetches. rewrite filter_cons.
  destruct (decide (is_fetch ev = true)) as [->|Hno]; [done|].
  by destruct (is_fetch ev).
Qed.

Lemma retries_cons ev tr :
  retries (ev :: tr) = ((if is_retry ev then 1 else 0) + retries tr)%nat.
Proof.
  unfold retries. rewrite filter_cons.
  destruct (decide (is_retry ev = true)) as [->|Hno]; [done|].
  by destruct (is_retry ev).
Qed.

Lemma trace_failedWrite path content w : trace (failedWrite E path content w) = trace w.
Proof. unfold failedWrite. by destruct (os_WriteFile_partial E path). Qed.

(** A request is built from the token of the client and from nothing else
    of it: built again with the token, it is the request re-issued with the
    token the client then holds. *)
Lemma newRequest_reissued c c2 path method data useToken req :
  newRequest E c path method data useToken = Ok req →
  newRequest E c2 path method data true = Ok (reissued (Token c2) req).
Proof.
  unfold newRequest. destruct data as [d|].
  - destruct (json_Marshal E d); [|done].
    destruct (http_NewRequest E method _); [|done].
    intros [= <-]. simpl. unfold reissued. simpl. by destruct (bool_decide (Token c2 = "")).
  - destruct (http_NewRequest E method _); [|done].
    intros [= <-]. simpl. unfold reissued. simpl. by destruct (bool_decide (Token c2 = "")).
Qed.

(** An answer that does not ask for a refresh ends the call after this one
    request. *)
Lemma sendRequest_plain fuel c path method data useToken w req :
  newRequest E c path method data useToken = Ok req →
  asks_refresh (httpClient_Do E (requests (trace w)) req) = false →
  ∃ r, sendRequest E (S fuel) c path method data useToken w
       = Some (r, c, log (EvHTTP req) w)
       ∧ ∀ status body,
           httpClient_Do E (requests (trace w)) req = Response status body →
           status ≠ 401 → r = Ok body.
Proof.
  intros Hreq Hplain. rewrite sendRequest_unfold, Hreq.
  destruct (httpClient_Do E (requests (trace w)) req) as [| |status body].
  - eexists. split; [done|]. by intros.
  - eexists. split; [done|]. by intros.
  - simpl in Hplain. destruct (decide (status = 401)) as [->|Hst].
    + rewrite bool_decide_eq_true_2 in Hplain by done. simpl in Hplain.
      apply negb_false_iff in Hplain. rewrite Hplain.
      eexists. split; [done|]. by intros status body' [= <- <-] ?.
    + eexists. split; [done|]. by intros status' body' [= <- <-] _.
Qed.

(** What a call adds to the trace starts with its request.  Nothing
    follows it unless the answer asks for a refresh, and then a fetch
    does. *)
Lemma sendRequest_starts fuel c path method data useToken w req r c' w' :
  newRequest E c path method data useToken = Ok req →
  sendRequest E fuel c path method data useToken w = Some (r, c', w') →
  ∃ rest,
    trace w' = trace w ++ EvHTTP req :: rest
    ∧ if asks_refresh (httpClient_Do E (requests (trace w)) req)
      then ∃ rest', rest = EvFetch :: rest'
      else rest = [].
Proof.
  intros Hreq. destruct fuel as [|fuel]; [done|]. rewrite sendRequest_unfold, Hreq.
  destruct (httpClient_Do E (requests (trace w)) req) as [| |status body].
  1,2: intros [= <- <- <-]; by exists [].
  simpl. destruct (decide (status = 401)) as [->|Hst].
  2: { rewrite bool_decide_eq_false_2 by done. intros [= <- <- <-]. by exists []. }
  rewrite bool_decide_eq_true_2 by done.
  destruct (Strings.Contains body "invalid_client").
  { intros [= <- <- <-]. by exists []. }
  simpl.
  destruct (getToken E fuel c (log (EvHTTP req) w)) as [[[[[]|err] c2] w2]|] eqn:Hg;
    [| |done].
  - intros Hretry.
    apply getToken_extends in Hg. destruct Hg as (_ & _ & evs & Hevs).
    apply sendRequest_extends in Hretry. destruct Hretry as (_ & _ & evs' & Hevs').
    exists (EvFetch :: evs ++ EvRetry :: evs'). split; [|eauto].
    rewrite Hevs'. simpl. rewrite Hevs. simpl. rewrite <- !app_assoc. by simpl.
  - intros [= <- <- <-].
    apply getToken_extends in Hg. destruct Hg as (_ & _ & evs & Hevs).
    exists (EvFetch :: evs). split; [|eauto].
    rewrite Hevs. simpl. rewrite <- !app_assoc. by simpl.
Qed.

(** A refresh whose token request succeeds on its own answer: the call goes
    on as the retry, with the token in memory and in the file. *)
Lemma sendRequest_refresh_ok fuel c path method data useToken w req body treq status2 body2
    tokenResp :
  newRequest E c path method data useToken = Ok req →
  httpClient_Do E (requests (trace w)) req = Response 401 body →
  Strings.Contains body "invalid_client" = false →
  newRequest E c "oauth/access_token" "POST" (Some (tokenRequestData c)) false = Ok treq →
  httpClient_Do E (requests (trace w) ++ [req]) treq = Response status2 body2 →
  status2 ≠ 401 →
  json_Unmarshal E TTokenResponse body2 = Some tokenResp →
  os_WriteFile_ok E (tokenPath E c) = true →
  sendRequest E (S (S fuel)) c path method data useToken w
  = sendRequest E (S fuel) (set_Token (AccessToken tokenResp) c) path method data true
      (log EvRetry (set_files (<[tokenPath E c := AccessToken tokenResp]> (files w))
                      (log (EvHTTP treq) (log EvFetch (log (EvHTTP req) w))))).
Proof.
  intros Hreq Hdo Hsig Htreq Hdo2 Hst2 Hparse Hwrite.
  rewrite (sendRequest_refresh E (S fuel) c path method data useToken w req body) by done.
  rewrite (getToken_plain E fuel c (log (EvHTTP req) w) treq status2 body2 tokenResp);
    try done.
  by rewrite requests_log_http.
Qed.

(** A refresh whose token request cannot be built. *)
Lemma sendRequest_refresh_not_built fuel c path method data useToken w req body e :
  newRequest E c path method data useToken = Ok req →
  httpClient_Do E (requests (trace w)) req = Response 401 body →
  Strings.Contains body "invalid_client" = false →
  newRequest E c "oauth/access_token" "POST" (Some (tokenRequestData c)) false = Err e →
  sendRequest E (S (S fuel)) c path method data useToken w
  = Some (Err (Errorf "failed to refresh token: %w" (Some e)), c,
          log EvFetch (log (EvHTTP req) w)).
Proof.
  intros Hreq Hdo Hsig Htreq.
  rewrite (sendRequest_refresh E (S fuel) c path method data useToken w req body) by done.
  unfold getToken, getToken_with. by rewrite sendRequest_unfold, Htreq.
Qed.

(** A fetch whose token request fails on its own answer.  No file changes,
    but for the token file when its write is what failed. *)
Lemma getToken_fails fuel c w treq :
  newRequest E c "oauth/access_token" "POST" (Some (tokenRequestData c)) false = Ok treq →
  asks_refresh (httpClient_Do E (requests (trace w)) treq) = false →
  fetch_fails E c (httpClient_Do E (requests (trace w)) treq) →
  ∃ err c' w',
    getToken E (S fuel) c w = Some (Err err, c', w')
    ∧ trace w' = trace w ++ [EvFetch; EvHTTP treq]
    ∧ same_credentials c c'
    ∧ (files w' = files w
       ∨ ∃ status2 body2 tokenResp n,
           httpClient_Do E (requests (trace w)) treq = Response status2 body2
           ∧ status2 ≠ 401
           ∧ json_Unmarshal E TTokenResponse body2 = Some tokenResp
           ∧ os_WriteFile_ok E (tokenPath E c) = false
           ∧ os_WriteFile_partial E (tokenPath E c) = Some n
           ∧ Token c' = AccessToken tokenResp
           ∧ files w' = <[tokenPath E c := substring 0 n (AccessToken tokenResp)]> (files w)).
Proof.
  intros Htreq Hplain Hfail.
  unfold getToken, getToken_with. rewrite sendRequest_unfold, Htreq.
  rewrite (requests_log_other _ EvFetch) by done.
  set (w3 := log (EvHTTP treq) (log EvFetch w)).
  assert (Htr : trace w3 = trace w ++ [EvFetch; EvHTTP treq]).
  { subst w3. simpl. by rewrite <- !app_assoc. }
  assert (Hsame : same_credentials c c) by by repeat split.
  destruct (httpClient_Do E (requests (trace w)) treq) as [| |status2 body2].
  - eexists _, c, w3. split; [done|]. split; [done|]. split; [done|]. by left.
  - eexists _, c, w3. split; [done|]. split; [done|]. split; [done|]. by left.
  - simpl in Hplain, Hfail. destruct (decide (status2 = 401)) as [->|Hst].
    + rewrite bool_decide_eq_true_2 in Hplain by done. simpl in Hplain.
      apply negb_false_iff in Hplain. rewrite Hplain.
      eexists _, c, w3. split; [done|]. split; [done|]. split; [done|]. by left.
    + destruct (json_Unmarshal E TTokenResponse body2) as [tokenResp|] eqn:Hparse.
      2: { eexists _, c, w3. split; [done|]. split; [done|]. split; [done|]. by left. }
      destruct Hfail as [?|[?|Hwrite]]; [done..|].
      unfold WriteFile.
      change (tokenPath E (set_Token (AccessToken tokenResp) c)) with (tokenPath E c).
      rewrite Hwrite.
      eexists _, (set_Token (AccessToken tokenResp) c), _. split; [done|].
      split; [by rewrite trace_failedWrite|]. split; [by repeat split|].
      unfold failedWrite. simpl.
      destruct (os_WriteFile_partial E (tokenPath E c)) as [n|] eqn:Hpartial; [|by left].
      right. by exists status2, body2, tokenResp, n.
Qed.

(** A refresh whose token request fails on its own answer: the call fails
    with the error of the fetch, in the world the fetch left. *)
Lemma sendRequest_refresh_fails fuel c path method data useToken w req body treq :
  newRequest E c path method data useToken = Ok req →
  httpClient_Do E (requests (trace w)) req = Response 401 body →
  Strings.Contains body "invalid_client" = false →
  newRequest E c "oauth/access_token" "POST" (Some (tokenRequestData c)) false = Ok treq →
  asks_refresh (httpClient_Do E (requests (trace w) ++ [req]) treq) = false →
  fetch_fails E c (httpClient_Do E (requests (trace w) ++ [req]) treq) →
  ∃ err c' w',
    getToken E (S fuel) c (log (EvHTTP req) w) = Some (Err err, c', w')
    ∧ sendRequest E (S (S fuel)) c path method data useToken w
      = Some (Err (Errorf "failed to refresh token: %w" (Some err)), c', w')
    ∧ trace w' = trace w ++ [EvHTTP req; EvFetch; EvHTTP treq]
    ∧ same_credentials c c'
    ∧ (files w' = files w
       ∨ ∃ status2 body2 tokenResp n,
           httpClient_Do E (requests (trace w) ++ [req]) treq = Response status2 body2
           ∧ status2 ≠ 401
           ∧ json_Unmarshal E TTokenResponse body2 = Some tokenResp
           ∧ os_WriteFile_ok E (tokenPath E c) = false
           ∧ os_WriteFile_partial E (tokenPath E c) = Some n
           ∧ Token c' = AccessToken tokenResp
           ∧ files w' = <[tokenPath E c := substring 0 n (AccessToken tokenResp)]> (files w)).
Proof.
  intros Hreq Hdo Hsig Htreq Hplain Hfail.
  rewrite <- requests_log_http in Hplain, Hfail.
  destruct (getToken_fails fuel c (log (EvHTTP req) w) treq Htreq Hplain Hfail)
    as (err & c' & w' & Hfetch & Htr & Hsame & Hfiles).
  rewrite requests_log_http in Hfiles.
  exists err, c', w'. split; [done|]. split.
  { rewrite (sendRequest_refresh E (S fuel) c path method data useToken w req body) by done.
    by rewrite Hfetch. }
  split; [|done]. rewrite Htr. simpl. by rewrite <- !app_assoc.
Qed.

(** Every retried request follows a fetch of its own: a call that returns
    has retried no more often than it has fetched. *)
Lemma getToken_with_counts send c w r c' w' :
  (∀ c0 path method data useToken w0 r0 c0' w0',
      send c0 path method data useToken w0 = Some (r0, c0', w0') →
      ∃ evs, trace w0' = trace w0 ++ evs ∧ (retries evs ≤ fetches evs)%nat) →
  getToken_with E send c w = Some (r, c', w') →
  ∃ evs, trace w' = trace w ++ EvFetch :: evs ∧ (retries evs ≤ fetches evs)%nat.
Proof.
  intros Hsend. unfold getToken_with.
  destruct (send c _ _ _ _ _) as [[[[resp|err] c1] w1]|] eqn:Hs; [| |done].
  - apply Hsend in Hs as (evs & Hevs & Hle). simpl in Hevs. rewrite <- app_assoc in Hevs.
    destruct (json_Unmarshal E TTokenResponse resp) as [tokenResp|].
    + unfold WriteFile. destruct (os_WriteFile_ok E _).
      * intros [= <- <- <-]. by exists evs.
      * intros [= <- <- <-]. exists evs. by rewrite trace_failedWrite.
    + intros [= <- <- <-]. by exists evs.
  - apply Hsend in Hs as (evs & Hevs & Hle). simpl in Hevs. rewrite <- app_assoc in Hevs.
    intros [= <- <- <-]. by exists evs.
Qed.

Lemma sendRequest_counts fuel :
  ∀ c path method data useToken w r c' w',
    sendRequest E fuel c path method data useToken w = Some (r, c', w') →
    ∃ evs, trace w' = trace w ++ evs ∧ (retries evs ≤ fetches evs)%nat.
Proof.
  induction fuel as [|fuel IH]; intros c path method data useToken w r c' w'; [done|].
  rewrite sendRequest_unfold.
  destruct (newRequest E c path method data useToken) as [req|e].
  2: { intros [= <- <- <-]. exists []. by rewrite app_nil_r. }
  assert (Hone : ∃ evs, trace (log (EvHTTP req) w) = trace w ++ evs
                        ∧ (retries evs ≤ fetches evs)%nat) by by exists [EvHTTP req].
  destruct (httpClient_Do E (requests (trace w)) req) as [| |status body].
  1,2: by intros [= <- <- <-].
  destruct (decide (status = 401)).
  2: { by intros [= <- <- <-]. }
  destruct (Strings.Contains body "invalid_client").
  { by intros [= <- <- <-]. }
  destruct (getToken E fuel c (log (EvHTTP req) w)) as [[[[[]|err] c2] w2]|] eqn:Hg;
    [| |done].
  - intros Hretry. apply IH in Hretry as (evs' & Hevs' & Hle').
    apply (getToken_with_counts _ _ _ _ _ _ IH) in Hg as (evs & Hevs & Hle).
    exists (EvHTTP req :: EvFetch :: evs ++ EvRetry :: evs'). split.
    + rewrite Hevs'. simpl. rewrite Hevs. simpl. rewrite <- !app_assoc. by simpl.
    + rewrite !retries_cons, !fetches_cons, retries_app, fetches_app,
        retries_cons, fetches_cons. simpl. lia.
  - intros [= <- <- <-].
    apply (getToken_with_counts _ _ _ _ _ _ IH) in Hg as (evs & Hevs & Hle).
    exists (EvHTTP req :: EvFetch :: evs). split.
    + rewrite Hevs. simpl. rewrite <- !app_assoc. by simpl.
    + rewrite !retries_cons, !fetches_cons. simpl. lia.
Qed.

End Refreshing.

(* ===================================================================== *)
(** ** The dispatcher: the claims *)

Section DispatcherClaims.

Variable E : Env.

(** C8. A response whose status is not 401 is returned as it is: the call
    gives the raw body and no error whatever the status, 4xx and 5xx
    included, after this one request and with the client unchanged. *)
Theorem sendRequest_other_status fuel c path method data useToken w req status body :
  newRequest E c path method data useToken = Ok req →
  httpClient_Do E (requests (trace w)) req = Response status body →
  status ≠ 401 →
  ∃ w',
    sendRequest E (S fuel) c path method data useToken w = Some (Ok body, c, w')
    ∧ added w w' = [EvHTTP req]
    ∧ fetches (added w w') = 0%nat
    ∧ retries (added w w') = 0%nat
    ∧ files w' = files w.
Proof.
  intros Hreq Hdo Hst. exists (log (EvHTTP req) w). split.
  - simpl. rewrite Hreq, Hdo. by rewrite decide_False.
  - rewrite added_log. by repeat split.
Qed.

(** C2. A 401 response whose body carries the invalid-client signal makes
    the call fail with the invalid-credentials error; the trace gains the
    one request only: [getToken] is not called and nothing is retried. *)
Theorem sendRequest_invalid_client fuel c path method data useToken w req body :
  newRequest E c path method data useToken = Ok req →
  httpClient_Do E (requests (trace w)) req = Response 401 body →
  Strings.Contains body "invalid_client" = true →
  ∃ e w',
    sendRequest E (S fuel) c path method data useToken w = Some (Err e, c, w')
    ∧ CredentialsError e
    ∧ added w w' = [EvHTTP req]
    ∧ fetches (added w w') = 0%nat
    ∧ retries (added w w') = 0%nat
    ∧ files w' = files w.
Proof.
  intros Hreq Hdo Hsig.
  exists (Errorf ErrInvalidCredentials None), (log (EvHTTP req) w).
  split.
  { simpl. rewrite Hreq, Hdo. rewrite decide_True by done. by rewrite Hsig. }
  rewrite added_log. by repeat split.
Qed.

(** C1, amended. A call whose first answer is a 401 without the
    invalid-client signal enters [getToken].
    - When the token request is answered by another status than 401 with a
      body that parses, and the token file can be written, the same request
      is built again with the refreshed token and sent.  If the answer to
      it does not ask for a refresh again, the call ends there, after
      exactly one fetch and exactly one retried request, and it returns the
      body of the retry when the status of the retry is not 401 (a 200 for
      one).  If the answer to it asks for a refresh again, a call that
      returns has sent it and has then entered [getToken] once more: at
      least two fetches.
    - When the token request cannot be built, or fails on its own answer
      (no answer, an unreadable one, a 401 naming invalid_client, a body
      that does not parse, a token file that cannot be written), the call
      fails with the error of the fetch, the one [getToken] returned,
      wrapped under "failed to refresh token", after exactly one fetch and
      no retried request.
    - In every case a call that returns has made at least one fetch and no
      more retried requests than fetches. *)
Theorem sendRequest_refresh_once c path method data useToken w req1 body1 :
  newRequest E c path method data useToken = Ok req1 →
  httpClient_Do E (requests (trace w)) req1 = Response 401 body1 →
  Strings.Contains body1 "invalid_client" = false →
  (∀ fuel treq status2 body2 tokenResp,
     newRequest E c "oauth/access_token" "POST" (Some (tokenRequestData c)) false = Ok treq →
     httpClient_Do E (requests (trace w) ++ [req1]) treq = Response status2 body2 →
     status2 ≠ 401 →
     json_Unmarshal E TTokenResponse body2 = Some tokenResp →
     os_WriteFile_ok E (tokenPath E c) = true →
     let tok := AccessToken tokenResp in
     let retried := httpClient_Do E (requests (trace w) ++ [req1; treq]) (reissued tok req1) in
     (asks_refresh retried = false →
      ∃ r w',
        sendRequest E (S (S fuel)) c path method data useToken w
        = Some (r, set_Token tok c, w')
        ∧ added w w' = [EvHTTP req1; EvFetch; EvHTTP treq; EvRetry;
                        EvHTTP (reissued tok req1)]
        ∧ fetches (added w w') = 1%nat
        ∧ retries (added w w') = 1%nat
        ∧ files w' = <[tokenPath E c := tok]> (files w)
        ∧ ∀ status3 body3, retried = Response status3 body3 → status3 ≠ 401 → r = Ok body3)
     ∧ (asks_refresh retried = true →
        ∀ fuel' r c' w',
          sendRequest E fuel' c path method data useToken w = Some (r, c', w') →
          (∃ rest, added w w' = [EvHTTP req1; EvFetch; EvHTTP treq; EvRetry;
                                 EvHTTP (reissued tok req1); EvFetch] ++ rest)
          ∧ (2 ≤ fetches (added w w'))%nat))
  ∧ (∀ fuel e,
       newRequest E c "oauth/access_token" "POST" (Some (tokenRequestData c)) false = Err e →
       ∃ w',
         getToken E (S fuel) c (log (EvHTTP req1) w) = Some (Err e, c, w')
         ∧ sendRequest E (S (S fuel)) c path method data useToken w
           = Some (Err (Errorf "failed to refresh token: %w" (Some e)), c, w')
         ∧ added w w' = [EvHTTP req1; EvFetch]
         ∧ fetches (added w w') = 1%nat
         ∧ retries (added w w') = 0%nat)
  ∧ (∀ fuel treq,
       newRequest E c "oauth/access_token" "POST" (Some (tokenRequestData c)) false = Ok treq →
       asks_refresh (httpClient_Do E (requests (trace w) ++ [req1]) treq) = false →
       fetch_fails E c (httpClient_Do E (requests (trace w) ++ [req1]) treq) →
       ∃ err c' w',
         getToken E (S fuel) c (log (EvHTTP req1) w) = Some (Err err, c', w')
         ∧ sendRequest E (S (S fuel)) c path method data useToken w
           = Some (Err (Errorf "failed to refresh token: %w" (Some err)), c', w')
         ∧ added w w' = [EvHTTP req1; EvFetch; EvHTTP treq]
         ∧ fetches (added w w') = 1%nat
         ∧ retries (added w w') = 0%nat)
  ∧ (∀ fuel r c' w',
       sendRequest E fuel c path method data useToken w = Some (r, c', w') →
       (1 ≤ fetches (added w w'))%nat
       ∧ (retries (added w w') ≤ fetches (added w w'))%nat).
Proof.
  intros Hreq1 Hdo1 Hsig. split; [|split; [|split]].
  - intros fuel treq status2 body2 tokenResp Htreq Hdo2 Hst2 Hparse Hwrite tok retried.
    set (w2 := log EvRetry (set_files (<[tokenPath E c := tok]> (files w))
                              (log (EvHTTP treq) (log EvFetch (log (EvHTTP req1) w))))).
    assert (Htr2 : trace w2 = trace w ++ [EvHTTP req1; EvFetch; EvHTTP treq; EvRetry]).
    { subst w2. simpl. by rewrite <- !app_assoc. }
    assert (Hreqs : requests (trace w2) = requests (trace w) ++ [req1; treq]).
    { rewrite Htr2, requests_app. by simpl. }
    pose proof (newRequest_reissued E c (set_Token tok c) _ _ _ _ _ Hreq1) as Hagain.
    change (Token (set_Token tok c)) with tok in Hagain.
    split.
    + intros Hplain.
      destruct (sendRequest_plain E fuel (set_Token tok c) path method data true w2
                  (reissued tok req1) Hagain) as (r & Hrun & Hbody).
      { by rewrite Hreqs. }
      exists r, (log (EvHTTP (reissued tok req1)) w2).
      split.
      { rewrite (sendRequest_refresh_ok E fuel c path method data useToken w req1 body1 treq
                   status2 body2 tokenResp) by done.
        exact Hrun. }
      rewrite (added_app w (log (EvHTTP (reissued tok req1)) w2)
                 [EvHTTP req1; EvFetch; EvHTTP treq; EvRetry; EvHTTP (reissued tok req1)]).
      2: { subst w2. simpl. by rewrite <- !app_assoc. }
      repeat split. intros status3 body3 Hdo3. apply Hbody. by rewrite Hreqs.
    + intros Hagain401 fuel' r c' w' Hrun.
      destruct fuel' as [|[|fuel']]; [done | |].
      { rewrite (sendRequest_refresh E 0 c path method data useToken w req1 body1) in Hrun
          by done. done. }
      rewrite (sendRequest_refresh_ok E fuel' c path method data useToken w req1 body1 treq
                 status2 body2 tokenResp) in Hrun by done.
      fold tok in Hrun. fold w2 in Hrun.
      apply (sendRequest_starts E _ _ _ _ _ _ _ _ _ _ _ Hagain) in Hrun
        as (rest & Hrest & Hfetch).
      rewrite Hreqs in Hfetch. fold retried in Hfetch. rewrite Hagain401 in Hfetch.
      destruct Hfetch as [rest' ->].
      rewrite (added_app w w'
                 ([EvHTTP req1; EvFetch; EvHTTP treq; EvRetry;
                   EvHTTP (reissued tok req1); EvFetch] ++ rest')).
      2: { rewrite Hrest, Htr2. by rewrite <- !app_assoc. }
      split; [by exists rest'|].
      rewrite fetches_app, !fetches_cons. simpl. lia.
  - intros fuel e Htreq. exists (log EvFetch (log (EvHTTP req1) w)). split.
    { unfold getToken, getToken_with. by rewrite sendRequest_unfold, Htreq. }
    split.
    { by apply sendRequest_refresh_not_built with (body := body1). }
    rewrite (added_app w _ [EvHTTP req1; EvFetch]).
    2: { simpl. by rewrite <- !app_assoc. }
    by repeat split.
  - intros fuel treq Htreq Hplain Hfail.
    destruct (sendRequest_refresh_fails E fuel c path method data useToken w req1 body1 treq)
      as (err & c' & w' & Hfetch & Hrun & Htr & _); try done.
    exists err, c', w'. split; [done|]. split; [done|].
    rewrite (added_app w w' _ Htr). by repeat split.
  - intros fuel r c' w' Hrun.
    pose proof (sendRequest_starts E _ _ _ _ _ _ _ _ _ _ _ Hreq1 Hrun)
      as (rest & Hrest & Hfetch).
    rewrite Hdo1 in Hfetch. simpl in Hfetch. rewrite Hsig in Hfetch. simpl in Hfetch.
    destruct Hfetch as [rest' ->].
    apply sendRequest_counts in Hrun as (evs & Hevs & Hle).
    rewrite (added_app w w' _ Hevs).
    assert (evs = EvHTTP req1 :: EvFetch :: rest') as ->.
    { rewrite Hevs in Hrest. by apply app_inv_head in Hrest. }
    split; [|done]. rewrite !fetches_cons. simpl. lia.
Qed.

End DispatcherClaims.

(** *** Scripted runs of the dispatcher *)

(** A 500 answer is returned as a body, not as an error. *)
Lemma sendRequest_other_status_witness :
  ∃ w',
    sendRequest (scripted [Response 500 "oops"] true) 1 client1 "balance" "GET" None true world0
    = Some (Ok "oops", client1, w')
    ∧ added world0 w' = [EvHTTP (balance_request (bearer "cached"))]
    ∧ fetches (added world0 w') = 0%nat
    ∧ retries (added world0 w') = 0%nat
    ∧ files w' = files world0.
Proof.
  apply (sendRequest_other_status (scripted [Response 500 "oops"] true) 0 client1
           "balance" "GET" None true world0 (balance_request (bearer "cached")) 500 "oops");
    [reflexivity | reflexivity | lia].
Defined.

(** A 401 naming invalid_client ends the call at once. *)
Lemma sendRequest_invalid_client_witness :
  ∃ e w',
    sendRequest (scripted [Response 401 "error: invalid_client"; Response 200 "fresh"] true)
      1 client1 "balance" "GET" None true world0 = Some (Err e, client1, w')
    ∧ CredentialsError e
    ∧ added world0 w' = [EvHTTP (balance_request (bearer "cached"))]
    ∧ fetches (added world0 w') = 0%nat
    ∧ retries (added world0 w') = 0%nat
    ∧ files w' = files world0.
Proof.
  apply (sendRequest_invalid_client
           (scripted [Response 401 "error: invalid_client"; Response 200 "fresh"] true)
           0 client1 "balance" "GET" None true world0
           (balance_request (bearer "cached")) "error: invalid_client");
    reflexivity.
Defined.

(** An expired token: one fetch, one retry, the body of the retry. *)
Lemma sendRequest_refresh_once_witness :
  ∃ r w',
    sendRequest (scripted [Response 401 "expired"; Response 200 "fresh"; Response 200 "ok"] true)
      2 client1 "balance" "GET" None true world0
    = Some (r, set_Token "fresh" client1, w')
    ∧ r = Ok "ok"
    ∧ added world0 w'
      = [EvHTTP (balance_request (bearer "cached")); EvFetch; EvHTTP token_request; EvRetry;
         EvHTTP (reissued "fresh" (balance_request (bearer "cached")))]
    ∧ fetches (added world0 w') = 1%nat
    ∧ retries (added world0 w') = 1%nat.
Proof.
  destruct (sendRequest_refresh_once
              (scripted [Response 401 "expired"; Response 200 "fresh"; Response 200 "ok"] true)
              client1 "balance" "GET" None true world0
              (balance_request (bearer "cached")) "expired" eq_refl eq_refl eq_refl)
    as (Hok & _).
  destruct (Hok 0%nat token_request 200 "fresh"
              {| AccessToken := "fresh"; TokenType := "Bearer"; ExpiresIn := 3600 |}
              eq_refl eq_refl ltac:(lia) eq_refl eq_refl) as [Hends _].
  destruct (Hends eq_refl) as (r & w' & Hrun & Hadded & Hfetches & Hretries & _ & Hbody).
  exists r, w'. split; [exact Hrun|]. split; [|by repeat split].
  apply (Hbody 200 "ok"); [reflexivity | lia].
Defined.

(** A refreshed token that is refused again: the refresh is repeated. *)
Example sendRequest_refresh_twice :
  ∃ w',
    sendRequest
      (scripted [Response 401 "expired"; Response 200 "t1"; Response 401 "expired";
                 Response 200 "t2"; Response 200 "ok"] true)
      3 client1 "balance" "GET" None true world0
    = Some (Ok "ok", set_Token "t2" client1, w')
    ∧ fetches (added world0 w') = 2%nat
    ∧ retries (added world0 w') = 2%nat.
Proof. eexists. split; [reflexivity|]. split; vm_compute; reflexivity. Qed.

(** C1 as stated fails: the call below is answered by a 401 without the
    signal, the token request then fails in transport, and the call ends
    after one fetch with no retried request. *)
Lemma one_fetch_one_retry_counterexample :
  ¬ one_fetch_one_retry (scripted [Response 401 "expired"] true) 2 client1
      "balance" "GET" None true world0.
Proof.
  intros H.
  edestruct H as [_ Hretries]; [reflexivity | reflexivity | reflexivity |].
  vm_compute in Hretries. discriminate.
Qed.

(* ===================================================================== *)
(** ** The Authorization header *)

Section Authorization.

Variable E : Env.

Lemma newRequest_no_token c path method data req :
  newRequest E c path method data false = Ok req →
  req_header req !! "Authorization" = None.
Proof.
  unfold newRequest.
  destruct (match data with Some d => _ | None => _ end) as [body|e]; [|done].
  destruct (http_NewRequest E method _); [|done].
  by intros [= <-].
Qed.

Lemma reissued_header tok req :
  tok ≠ "" →
  req_header (reissued tok req) !! "Authorization" = Some ("Bearer " +:+ tok).
Proof.
  intros Htok. unfold reissued. simpl.
  rewrite bool_decide_eq_false_2 by done. apply lookup_insert_eq.
Qed.

(** C9, amended. The request that a call with [useToken = false] builds
    has no Authorization header, whatever token the client holds.  It is
    the first request of the call, anything after it starts with a
    [getToken], and it is the only one unless it is answered by a 401
    without the invalid-client signal.  After such an answer and a
    [getToken] that succeeds, the call goes on as a call with
    [useToken = true]: the same request is built again from the token the
    client then holds, with "Bearer " and that token as Authorization
    header when the token is not empty and with no Authorization header
    when it is empty.  A call that returns has sent it right after the
    fetch, and the call does return, with this as its last request, when
    the answer to it does not ask for a refresh again. *)
Theorem sendRequest_no_token fuel c path method data w req :
  newRequest E c path method data false = Ok req →
  req_header req !! "Authorization" = None
  ∧ (∀ r c' w',
       sendRequest E fuel c path method data false w = Some (r, c', w') →
       ∃ rest, added w w' = EvHTTP req :: rest
               ∧ (rest = [] ∨ ∃ rest', rest = EvFetch :: rest'))
  ∧ (asks_refresh (httpClient_Do E (requests (trace w)) req) = false →
     ∃ r, sendRequest E (S fuel) c path method data false w
          = Some (r, c, log (EvHTTP req) w))
  ∧ (asks_refresh (httpClient_Do E (requests (trace w)) req) = true →
     ∀ c2 w2,
       getToken E fuel c (log (EvHTTP req) w) = Some (Ok (), c2, w2) →
       newRequest E c2 path method data true = Ok (reissued (Token c2) req)
       ∧ req_header (reissued (Token c2) req) !! "Authorization"
         = (if decide (Token c2 = "") then None else Some ("Bearer " +:+ Token c2))
       ∧ sendRequest E (S fuel) c path method data false w
         = sendRequest E fuel c2 path method data true (log EvRetry w2)
       ∧ (∀ r c' w',
            sendRequest E (S fuel) c path method data false w = Some (r, c', w') →
            ∃ evs rest,
              added w w'
              = EvHTTP req :: EvFetch :: evs
                  ++ EvRetry :: EvHTTP (reissued (Token c2) req) :: rest)
       ∧ (asks_refresh (httpClient_Do E (requests (trace w2)) (reissued (Token c2) req))
          = false →
          ∃ r, sendRequest E (S fuel) c path method data false w
               = Some (r, c2, log (EvHTTP (reissued (Token c2) req)) (log EvRetry w2)))).
Proof.
  intros Hreq. split; [by eapply newRequest_no_token|]. split; [|split].
  - intros r c' w' Hrun.
    destruct (sendRequest_starts E _ _ _ _ _ _ _ _ _ _ _ Hreq Hrun) as (rest & Hrest & Hnext).
    exists rest. split; [by apply added_app|].
    destruct (asks_refresh _); [by right | by left].
  - intros Hplain.
    destruct (sendRequest_plain E fuel c path method data false w req Hreq Hplain)
      as (r & Hrun & _).
    by exists r.
  - intros Hask c2 w2 Hfetch.
    destruct (asks_refresh_inv _ Hask) as (body & Hdo & Hsig).
    pose proof (newRequest_reissued E c c2 _ _ _ _ _ Hreq) as Hagain.
    assert (Hgo : sendRequest E (S fuel) c path method data false w
                  = sendRequest E fuel c2 path method data true (log EvRetry w2)).
    { rewrite (sendRequest_refresh E fuel c path method data false w req body) by done.
      by rewrite Hfetch. }
    split; [done|]. split; [|split; [done|split]].
    + destruct (decide (Token c2 = "")) as [Hempty|Htok]; [|by apply reissued_header].
      unfold reissued. simpl. by rewrite bool_decide_eq_true_2.
    + intros r c' w' Hrun. rewrite Hgo in Hrun.
      apply (sendRequest_starts E _ _ _ _ _ _ _ _ _ _ _ Hagain) in Hrun
        as (rest & Hrest & _).
      apply getToken_extends in Hfetch as (_ & _ & evs & Hevs).
      exists evs, rest. apply added_app.
      rewrite Hrest. simpl. rewrite Hevs. simpl. rewrite <- !app_assoc. by simpl.
    + intros Hplain. rewrite Hgo.
      destruct fuel as [|fuel']; [done|].
      destruct (sendRequest_plain E fuel' c2 path method data true (log EvRetry w2)
                  (reissued (Token c2) req) Hagain) as (r & Hrun & _).
      { by rewrite (requests_log_other _ EvRetry). }
      by exists r.
Qed.

End Authorization.

(** A call without token on a client that holds one.  The server asks for
    a refresh: the request goes out again, now with the fetched token. *)
Lemma sendRequest_no_token_witness :
  req_header (balance_request json_headers) !! "Authorization" = None
  ∧ newRequest (scripted [Response 401 "expired"; Response 200 "fresh"; Response 200 "ok"] true)
      (set_Token "fresh" client1) "balance" "GET" None true
    = Ok (reissued "fresh" (balance_request json_headers))
  ∧ req_header (reissued "fresh" (balance_request json_headers)) !! "Authorization"
    = Some "Bearer fresh".
Proof.
  destruct (sendRequest_no_token
              (scripted [Response 401 "expired"; Response 200 "fresh"; Response 200 "ok"] true)
              1 client1 "balance" "GET" None world0 (balance_request json_headers) eq_refl)
    as (Hnone & _ & _ & Hretry).
  edestruct (Hretry eq_refl (set_Token "fresh" client1)) as (Hbuilt & Hheader & _);
    [reflexivity|].
  split; [exact Hnone|]. split; [exact Hbuilt | exact Hheader].
Defined.

(** A refresh that fetches an empty token: the request goes out again as it
    was, without an Authorization header. *)
Example sendRequest_retry_empty_token :
  ∃ w',
    sendRequest (scripted [Response 401 "expired"; Response 200 ""; Response 200 "ok"] true)
      2 client1 "balance" "GET" None true world0
    = Some (Ok "ok", set_Token "" client1, w')
    ∧ requests (added world0 w')
      = [balance_request (bearer "cached"); token_request; balance_request json_headers].
Proof. eexists. split; [reflexivity|]. vm_compute. reflexivity. Qed.

(** C9 as stated fails: the call is made with [useToken = false], is
    answered by a 401 without the signal, and after the refresh the same
    request goes out again with the new token in its Authorization header. *)
Lemma never_authorized_counterexample :
  ¬ never_authorized (scripted [Response 401 "expired"; Response 200 "fresh"; Response 200 "ok"]
                        true) 2 client1 "balance" "GET" None world0.
Proof.
  intros H.
  assert (Hnone : req_header (reissued "fresh" (balance_request json_headers))
                    !! "Authorization" = None).
  { eapply H; [reflexivity|].
    do 2 apply list_elem_of_further. apply list_elem_of_here. }
  rewrite reissued_header in Hnone; done.
Qed.

(* ===================================================================== *)
(** ** The token manager *)

Section TokenManager.

Variable E : Env.

Lemma MkdirAll_exists path w : path ∈ dirs w → MkdirAll E path w = Some w.
Proof. intros H. unfold MkdirAll. by rewrite decide_True. Qed.

Lemma MkdirAll_files path w w1 : MkdirAll E path w = Some w1 → files w1 = files w.
Proof.
  unfold MkdirAll. destruct (decide (path ∈ dirs w)); [by intros [= <-]|].
  destruct (os_MkdirAll_ok E path); [by intros [= <-]|done].
Qed.



(** C5. When the token request that [getToken] sends through
    [sendRequest] comes back, [getToken] returns; it fails exactly when
    that call returned an error, or the body it returned does not parse,
    or the token file cannot be written; and when it succeeds the token
    parsed from that body is the token in memory and the whole content of
    the fingerprinted file, every other file being as the call left it. *)
Theorem getToken_outcome fuel c w :
  is_Some (token_call E fuel c w) →
  ∃ r c' w',
    getToken E fuel c w = Some (r, c', w')
    ∧ ((∃ err, r = Err err)
       ↔ http_layer_errs E fuel c w ∨ body_unparsable E fuel c w ∨ write_fails E fuel c w)
    ∧ (r = Ok () →
       ∃ resp c1 w1 tokenResp,
         token_call E fuel c w = Some (Ok resp, c1, w1)
         ∧ json_Unmarshal E TTokenResponse resp = Some tokenResp
         ∧ c' = set_Token (AccessToken tokenResp) c1
         ∧ Token c' = AccessToken tokenResp
         ∧ files w' !! tokenPath E c' = Some (AccessToken tokenResp)
         ∧ (∀ path, path ≠ tokenPath E c' → files w' !! path = files w1 !! path)
         ∧ trace w' = trace w1).
Proof.
  intros [[[r1 c1] w1] Hcall].
  unfold getToken, getToken_with, http_layer_errs, body_unparsable, write_fails.
  fold (token_call E fuel c w). rewrite Hcall.
  destruct r1 as [resp|err].
  - destruct (json_Unmarshal E TTokenResponse resp) as [tokenResp|] eqn:Hparse.
    + unfold WriteFile. change (tokenPath E (set_Token _ c1)) with (tokenPath E c1).
      destruct (os_WriteFile_ok E (tokenPath E c1)) eqn:Hwrite.
      * eexists _, _, _. split; [done|]. split.
        -- split.
           ++ by intros [err [=]].
           ++ intros [(err & c2 & w2 & [=]) | [(resp' & c2 & w2 & [= -> -> ->] & Hno)
                      | (resp' & c2 & w2 & tr & [= -> -> ->] & _ & Hno)]]; congruence.
        -- intros _. exists resp, c1, w1, tokenResp. simpl.
           repeat split; try done.
           ++ apply lookup_insert_eq.
           ++ intros path Hne. by apply lookup_insert_ne.
      * eexists _, _, _. split; [done|]. split.
        -- split; [|eauto]. intros _. right; right. by exists resp, c1, w1, tokenResp.
        -- done.
    + eexists _, _, _. split; [done|]. split.
      * split; [|eauto]. intros _. right; left. by exists resp, c1, w1.
      * done.
  - eexists _, _, _. split; [done|]. split.
    + split; [|eauto]. intros _. left. by exists err, c1, w1.
    + done.
Qed.

Lemma methodAllowed_elem_of method ms : methodAllowed method ms = true ↔ method ∈ ms.
Proof.
  induction ms as [|m ms IH]; simpl.
  - split; [done|]. by intros ?%not_elem_of_nil.
  - destruct (decide (method = m)) as [->|Hne].
    + split; [intros _; apply list_elem_of_here|done].
    + rewrite IH, elem_of_cons. split; [by right|]. by intros [?|?].
Qed.

(** C7. [SendRawRequest] goes on to [sendRequest], with the token, exactly
    for the methods POST, GET, DELETE, PUT and PATCH; any other method is
    refused by the local check with the world untouched: no request.
    TRACE is refused, PATCH goes through. *)
Theorem SendRawRequest_allow_list fuel c path method data w :
  SendRawRequest E fuel c path method data w
  = (if decide (method ∈ ["POST"; "GET"; "DELETE"; "PUT"; "PATCH"])
     then sendRequest E fuel c path method data true w
     else Some (Err (Errorf "method not allowed" None), c, w))
  ∧ ValidationError (Errorf "method not allowed" None)
  ∧ SendRawRequest E fuel c path "TRACE" data w
    = Some (Err (Errorf "method not allowed" None), c, w)
  ∧ SendRawRequest E fuel c path "PATCH" data w
    = sendRequest E fuel c path "PATCH" data true w.
Proof.
  split; [|split; [|split; reflexivity]].
  - unfold SendRawRequest.
    destruct (methodAllowed method allowedMethods) eqn:Hm; simpl.
    + apply methodAllowed_elem_of in Hm. by rewrite decide_True.
    + rewrite decide_False; [done|]. intros Hin%methodAllowed_elem_of.
      unfold allowedMethods in Hm. congruence.
  - exists "method not allowed". split; [|done].
    unfold validation_messages. rewrite !elem_of_cons. naive_solver.
Qed.

End TokenManager.

(** *** Scripted runs of the token manager *)

Example tokenPath_user :
  tokenPath (scripted [] true) client0 = token_file.
Proof. vm_compute. reflexivity. Qed.



(** How a client comes to hold a token without a file: the token file
    cannot be opened for writing, [getToken] fails after it has set the
    token in memory, and the caller calls [Init] again. *)
Example Init_after_failed_write :
  ∃ w',
    Init (scripted [Response 200 "cached"] false) 1 client0 world0
    = Some (Err (LibError "os"), client1, w')
    ∧ files w' = ∅
    ∧ Init (scripted [Response 200 "cached"] false) 1 client1 w' = Some (Ok (), client1, w').
Proof. eexists. split; [reflexivity|]. split; vm_compute; reflexivity. Qed.

(** A fetch answered by a token. *)
Lemma getToken_outcome_witness :
  ∃ r c' w',
    getToken (scripted [Response 200 "fresh"] true) 1 client0 world0 = Some (r, c', w')
    ∧ ((∃ err, r = Err err)
       ↔ http_layer_errs (scripted [Response 200 "fresh"] true) 1 client0 world0
         ∨ body_unparsable (scripted [Response 200 "fresh"] true) 1 client0 world0
         ∨ write_fails (scripted [Response 200 "fresh"] true) 1 client0 world0)
    ∧ (r = Ok () →
       ∃ resp c1 w1 tokenResp,
         token_call (scripted [Response 200 "fresh"] true) 1 client0 world0
         = Some (Ok resp, c1, w1)
         ∧ json_Unmarshal (scripted [Response 200 "fresh"] true) TTokenResponse resp
           = Some tokenResp
         ∧ c' = set_Token (AccessToken tokenResp) c1
         ∧ Token c' = AccessToken tokenResp
         ∧ files w' !! tokenPath (scripted [Response 200 "fresh"] true) c'
           = Some (AccessToken tokenResp)
         ∧ (∀ path, path ≠ tokenPath (scripted [Response 200 "fresh"] true) c' →
              files w' !! path = files w1 !! path)
         ∧ trace w' = trace w1).
Proof.
  apply (getToken_outcome (scripted [Response 200 "fresh"] true) 1 client0 world0).
  eexists. reflexivity.
Defined.

Example getToken_fresh :
  ∃ w', getToken (scripted [Response 200 "fresh"] true) 1 client0 world0
        = Some (Ok (), set_Token "fresh" client0, w')
        ∧ files w' !! token_file = Some "fresh"
        ∧ added world0 w' = [EvFetch; EvHTTP token_request].
Proof. eexists. split; [reflexivity|]. split; vm_compute; reflexivity. Qed.

Example getToken_unwritable :
  ∃ w', getToken (scripted [Response 200 "fresh"] false) 1 client0 world0
        = Some (Err (LibError "os"), set_Token "fresh" client0, w')
        ∧ files w' !! token_file = None.
Proof. eexists. split; [reflexivity|]. vm_compute; reflexivity. Qed.

(* ===================================================================== *)
(** ** The fingerprint *)

Lemma land_byte x : 0 ≤ Z.land x 0xff < 256.
Proof.
  change 0xff with (Z.ones 8). rewrite Z.land_ones by lia.
  apply Z.mod_pos_bound. lia.
Qed.

Lemma Md5_Sum_bytes msg : Forall (λ b, 0 ≤ b < 256) (Md5.Sum msg).
Proof.
  unfold Md5.Sum. destruct (Md5.blocks _ _ _) as [[[a b] c] d].
  simpl. repeat constructor; apply land_byte.
Qed.

Lemma Md5_Sum_length msg : length (Md5.Sum msg) = 16%nat.
Proof.
  unfold Md5.Sum. by destruct (Md5.blocks _ _ _) as [[[a b] c] d].
Qed.

Lemma hex_value_digit n : 0 ≤ n < 16 → hex_value (Fmt.hex_digit n) = n.
Proof.
  intros Hn.
  assert (Hcases : n = 0 ∨ n = 1 ∨ n = 2 ∨ n = 3 ∨ n = 4 ∨ n = 5 ∨ n = 6 ∨ n = 7
                   ∨ n = 8 ∨ n = 9 ∨ n = 10 ∨ n = 11 ∨ n = 12 ∨ n = 13 ∨ n = 14 ∨ n = 15)
    by lia.
  repeat (destruct Hcases as [-> | Hcases]; [reflexivity|]). by subst n.
Qed.

Lemma hex_digit_inj n m :
  0 ≤ n < 16 → 0 ≤ m < 16 → Fmt.hex_digit n = Fmt.hex_digit m → n = m.
Proof.
  intros Hn Hm Heq. rewrite <- (hex_value_digit n), <- (hex_value_digit m) by done.
  by rewrite Heq.
Qed.

Lemma byte_high b : 0 ≤ b < 256 → 0 ≤ b / 16 < 16.
Proof.
  intros Hb. split; [apply Z.div_pos; lia | apply Z.div_lt_upper_bound; lia].
Qed.

Lemma hex_inj bs bs' :
  Forall (λ b, 0 ≤ b < 256) bs → Forall (λ b, 0 ≤ b < 256) bs' →
  Fmt.hex bs = Fmt.hex bs' → bs = bs'.
Proof.
  intros Hbs. revert bs'. induction Hbs as [|b bs Hb _ IH]; intros bs' Hbs' Heq.
  - by destruct bs'.
  - destruct Hbs' as [|b' bs' Hb' Hbs']; [done|].
    cbv beta in Hb, Hb'. simpl in Heq. injection Heq as Hhi Hlo Hrest.
    apply hex_digit_inj in Hhi; [|by apply byte_high..].
    apply hex_digit_inj in Hlo; [|by apply Z.mod_pos_bound..].
    f_equal; [|by apply IH].
    rewrite (Z.div_mod b 16), (Z.div_mod b' 16) by done. congruence.
Qed.

Lemma hex_length bs : String.length (Fmt.hex bs) = (2 * length bs)%nat.
Proof. induction bs as [|b bs IH]; simpl; [done|]. rewrite IH. lia. Qed.

Lemma Contains_colon_cons a s :
  Strings.Contains (String a s) ":" = false →
  a ≠ ":"%char ∧ Strings.Contains s ":" = false.
Proof.
  simpl. destruct (decide (a = ":"%char)) as [->|Hne].
  - by destruct s.
  - simpl. done.
Qed.

Lemma joined_inj u s u' s' :
  Strings.Contains u ":" = false → Strings.Contains u' ":" = false →
  joined u s = joined u' s' → u = u' ∧ s = s'.
Proof.
  unfold joined. revert u'. induction u as [|a u IH]; intros [|a' u'] Hu Hu'; simpl.
  - intros [= Hs]. split; [done|]. exact Hs.
  - intros [= Ha _]. apply Contains_colon_cons in Hu'. destruct Hu' as [Hu' _]. by subst a'.
  - intros [= Ha _]. apply Contains_colon_cons in Hu. destruct Hu as [Hu _]. by subst a.
  - intros [= -> Hrest].
    apply Contains_colon_cons in Hu as [_ Hu]. apply Contains_colon_cons in Hu' as [_ Hu'].
    destruct (IH u' Hu Hu' Hrest) as [-> ->]. done.
Qed.

(** C4, amended. The fingerprint is a function of the credential pair, and
    of the string [userID + "::" + secret] only: it is the MD5 digest of
    that string in 32 hexadecimal digits.  Two pairs have the same
    fingerprint exactly when the digests of their joined strings are the
    same, which is the case whenever the joined strings are; the joined
    strings of distinct pairs differ when the client identifiers contain no
    colon. *)
Theorem fingerprint_of_joined :
  (∀ u s u' s', (u, s) = (u', s') → fingerprint u s = fingerprint u' s')
  ∧ (∀ u s u' s', joined u s = joined u' s' → fingerprint u s = fingerprint u' s')
  ∧ (∀ u s u' s',
       fingerprint u s = fingerprint u' s'
       ↔ Md5.Sum (bytes_of (joined u s)) = Md5.Sum (bytes_of (joined u' s')))
  ∧ (∀ u s, String.length (fingerprint u s) = 32%nat)
  ∧ (∀ u s u' s',
       Strings.Contains u ":" = false → Strings.Contains u' ":" = false →
       (u, s) ≠ (u', s') → joined u s ≠ joined u' s').
Proof.
  repeat split.
  - by intros u s u' s' [= -> ->].
  - intros u s u' s' Hj. unfold fingerprint. fold (joined u s). fold (joined u' s').
    by rewrite Hj.
  - unfold fingerprint. fold (joined u s). fold (joined u' s').
    apply hex_inj; apply Md5_Sum_bytes.
  - unfold fingerprint. fold (joined u s). fold (joined u' s'). by intros ->.
  - intros u s. unfold fingerprint. by rewrite hex_length, Md5_Sum_length.
  - intros u s u' s' Hu Hu' Hne Hj. apply Hne.
    by destruct (joined_inj u s u' s' Hu Hu' Hj) as [-> ->].
Qed.

(** A pair whose identifier has no colon. *)
Lemma fingerprint_of_joined_witness :
  joined "user" "secret" ≠ joined "user2" "secret".
Proof.
  destruct fingerprint_of_joined as (_ & _ & _ & _ & Hinj).
  apply Hinj; [reflexivity | reflexivity | discriminate].
Defined.

(** C4 as stated fails: two distinct pairs with one joined string. *)
Lemma fingerprint_injective_counterexample : ¬ fingerprint_injective.
Proof.
  intros H. apply (H "a::b" "c" "a" "b::c"); [discriminate|].
  vm_compute. reflexivity.
Qed.

Example fingerprint_collision :
  fingerprint "a::b" "c" = "ef7093beb22e1bc92d13a2a0bef471c6"
  ∧ fingerprint "a" "b::c" = "ef7093beb22e1bc92d13a2a0bef471c6".
Proof. split; vm_compute; reflexivity. Qed.

(* ===================================================================== *)
(** ** base64 *)

(** Induction three bytes at a time, as [Base64.encode] recurses. *)
Lemma triples_ind {A} (P : list A → Prop) :
  P [] → (∀ a, P [a]) → (∀ a b, P [a; b]) →
  (∀ a b c rest, P rest → P (a :: b :: c :: rest)) →
  ∀ l, P l.
Proof.
  intros H0 H1 H2 H3 l.
  assert (Hall : P l ∧ (∀ a, P (a :: l)) ∧ (∀ a b, P (a :: b :: l))).
  { induction l as [|x l (IH0 & IH1 & IH2)]; [by auto|].
    split; [apply IH1|]. split; [intros a; apply IH2|]. intros a b. by apply H3. }
  apply Hall.
Qed.

(** [EncodedLen]: four characters for every three bytes, rounded up. *)
Lemma encode_length bs : length (Base64.encode bs) = (4 * ((length bs + 2) / 3))%nat.
Proof.
  induction bs as [| a | a b | a b c rest IH] using triples_ind; try reflexivity.
  cbn [Base64.encode length]. rewrite IH.
  replace (S (S (S (length rest))) + 2)%nat with (length rest + 2 + 1 * 3)%nat by lia.
  rewrite Nat.div_add by lia. lia.
Qed.

Lemma string_of_list_length (l : list ascii) :
  String.length (string_of_list_ascii l) = length l.
Proof. induction l as [|a l IH]; simpl; [done|]. by rewrite IH. Qed.

Lemma bytes_of_length s : length (bytes_of s) = String.length s.
Proof.
  unfold bytes_of. rewrite length_fmap.
  induction s as [|a s IH]; simpl; [done|]. by rewrite IH.
Qed.

Lemma EncodeToString_length s :
  String.length (Base64.EncodeToString s) = (4 * ((String.length s + 2) / 3))%nat.
Proof.
  unfold Base64.EncodeToString.
  by rewrite string_of_list_length, encode_length, bytes_of_length.
Qed.

(** Only the empty string is its own encoding. *)
Lemma EncodeToString_fixed s : Base64.EncodeToString s = s ↔ s = "".
Proof.
  split; [|by intros ->].
  intros Heq. apply (f_equal String.length) in Heq. rewrite EncodeToString_length in Heq.
  destruct s as [|a s]; [done|]. exfalso.
  change (String.length (String a s)) with (S (String.length s)) in Heq.
  set (n := S (String.length s)) in Heq. assert (Hn : (0 < n)%nat) by (subst n; lia).
  clearbody n.
  pose proof (Nat.div_mod_eq (n + 2) 3) as Hdiv.
  pose proof (Nat.mod_upper_bound (n + 2) 3) as Hmod.
  set (q := ((n + 2) / 3)%nat) in *. set (r := ((n + 2) mod 3)%nat) in *.
  clearbody q r. lia.
Qed.

(* ===================================================================== *)
(** ** SMTPSendMail and the caller's map *)

Section SMTP.

Variable E : Env.

(** C10, amended. When the caller's map holds a string under "html",
    [SMTPSendMail] puts its base64 encoding in its place, in the map the
    caller holds, before the payload is marshalled and before any request:
    the map is changed whether marshalling then fails or the request is
    sent, and it is still so when the call returns.  The entry differs
    from the original string when that string is not empty; the encoding
    of the empty string is the empty string and the map is then as it
    was. *)
Theorem SMTPSendMail_encodes_html fuel c l w m html :
  heap w !! l = Some m →
  m !! "html" = Some (VString html) →
  let m' := <["html" := VString (Base64.EncodeToString html)]> m in
  let w1 := set_heap (<[l := m']> (heap w)) w in
  (∀ r c' w', SMTPSendMail E fuel c (Some l) w = Some (r, c', w') →
              heap w' !! l = Some m')
  ∧ (html ≠ "" → m' !! "html" ≠ Some (VString html))
  ∧ (html = "" → m' = m)
  ∧ (json_Marshal E (VMap m') = None →
     SMTPSendMail E fuel c (Some l) w
     = Some (Err (Errorf "failed to serialize email data: %w" (Some (LibError "json"))),
             c, w1))
  ∧ (∀ emailJSON, json_Marshal E (VMap m') = Some emailJSON →
     SMTPSendMail E fuel c (Some l) w
     = match sendRequest E fuel c "smtp/emails" "POST"
               (Some (VMap {[ "email" := VString emailJSON ]})) true w1 with
       | None => None
       | Some (r, c', w') =>
           Some (error_of r, c', log (EvPrint ("Response: " +:+ body_of r +:+ newline)) w')
       end).
Proof.
  intros Hl Hhtml m' w1.
  assert (Henc : encodeHTML m = m') by (unfold encodeHTML; by rewrite Hhtml).
  assert (Hrun : SMTPSendMail E fuel c (Some l) w
                 = match json_Marshal E (VMap m') with
                   | None =>
                       Some (Err (Errorf "failed to serialize email data: %w"
                                    (Some (LibError "json"))), c, w1)
                   | Some emailJSON =>
                       match sendRequest E fuel c "smtp/emails" "POST"
                               (Some (VMap {[ "email" := VString emailJSON ]})) true w1 with
                       | None => None
                       | Some (r, c', w') =>
                           Some (error_of r, c',
                                 log (EvPrint ("Response: " +:+ body_of r +:+ newline)) w')
                       end
                   end).
  { unfold SMTPSendMail. rewrite Hl, Hhtml, Henc. done. }
  repeat split.
  - intros r c' w'. rewrite Hrun.
    destruct (json_Marshal E (VMap m')) as [emailJSON|].
    + destruct (sendRequest E fuel c _ _ _ _ w1) as [[[r1 c1] w2]|] eqn:Hsend; [|done].
      intros [= <- <- <-]. apply sendRequest_extends in Hsend as (Hheap & _ & _).
      simpl. rewrite Hheap. simpl. apply lookup_insert_eq.
    + intros [= <- <- <-]. simpl. apply lookup_insert_eq.
  - intros Hne. subst m'. rewrite lookup_insert_eq. intros [= Hfix].
    by apply EncodeToString_fixed in Hfix.
  - intros ->. subst m'. by apply insert_id.
  - intros Hnone. by rewrite Hrun, Hnone.
  - intros emailJSON Hsome. by rewrite Hrun, Hsome.
Qed.

(** C6, at the input where the code departs from it. An empty map that is
    not nil passes the check of [SMTPSendMail]: the payload is built and
    posted to smtp/emails, and with an answer other than 401 the call
    returns no error. *)
Theorem SMTPSendMail_empty_map fuel c l w emailJSON req status respBody :
  heap w !! l = Some ∅ →
  json_Marshal E (VMap ∅) = Some emailJSON →
  newRequest E c "smtp/emails" "POST" (Some (VMap {[ "email" := VString emailJSON ]})) true
  = Ok req →
  httpClient_Do E (requests (trace w)) req = Response status respBody →
  status ≠ 401 →
  SMTPSendMail E (S fuel) c (Some l) w
  = Some (Ok (), c,
          log (EvPrint ("Response: " +:+ respBody +:+ newline)) (log (EvHTTP req) w)).
Proof.
  intros Hl Hmarshal Hreq Hdo Hst. unfold SMTPSendMail. rewrite Hl.
  unfold encodeHTML. rewrite lookup_empty. rewrite Hmarshal.
  by rewrite (sendRequest_answered E fuel c _ _ _ _ w req status respBody).
Qed.

End SMTP.

(** *** Scripted runs of SMTPSendMail *)

Example encode_page : Base64.EncodeToString "<p>Hi</p>" = "PHA+SGk8L3A+".
Proof. vm_compute. reflexivity. Qed.

(** A page is sent: the caller's map then holds the encoded page. *)
Lemma SMTPSendMail_encodes_html_witness :
  ∃ w',
    SMTPSendMail (scripted [Response 200 "ok"] true) 1 client1 (Some 1%positive)
      (world_mail mail_page) = Some (Ok (), client1, w')
    ∧ heap w' !! 1%positive
      = Some (<["html" := VString (Base64.EncodeToString "<p>Hi</p>")]> mail_page)
    ∧ <["html" := VString (Base64.EncodeToString "<p>Hi</p>")]> mail_page !! "html"
      ≠ Some (VString "<p>Hi</p>").
Proof.
  eexists. split; [reflexivity|].
  destruct (SMTPSendMail_encodes_html (scripted [Response 200 "ok"] true) 1 client1
              1%positive (world_mail mail_page) mail_page "<p>Hi</p>" eq_refl eq_refl)
    as (Hheap & Hne & _).
  split; [eapply Hheap; reflexivity | apply Hne; discriminate].
Defined.

(** C10 as stated fails: the "html" entry is the empty string, its encoding
    is the empty string, and the map holds the original string after the
    call. *)
Lemma html_replaced_counterexample :
  ¬ html_replaced (scripted [Response 200 "ok"] true) 1 client1 1%positive
      (world_mail mail_blank).
Proof.
  intros H.
  edestruct (H mail_blank "") as (m' & _ & Henc & Hne); [reflexivity..|].
  apply Hne. rewrite Henc. reflexivity.
Qed.

(** An empty map is posted. *)
Lemma SMTPSendMail_empty_map_witness :
  SMTPSendMail (scripted [Response 200 "ok"] true) 1 client1 (Some 1%positive) (world_mail ∅)
  = Some (Ok (), client1,
          log (EvPrint ("Response: " +:+ "ok" +:+ newline))
            (log (EvHTTP (mail_request (bearer "cached"))) (world_mail ∅))).
Proof.
  apply (SMTPSendMail_empty_map (scripted [Response 200 "ok"] true) 0 client1 1%positive
           (world_mail ∅) "{}" (mail_request (bearer "cached")) 200 "ok");
    first [reflexivity | lia].
Defined.

(** The nil map is refused. *)
Example SMTPSendMail_nil_map :
  SMTPSendMail (scripted [Response 200 "ok"] true) 1 client1 None (world_mail ∅)
  = Some (Err (Errorf "empty email data" None), client1, world_mail ∅).
Proof. reflexivity. Qed.

(* ===================================================================== *)
(** ** The local argument checks *)

Section Validation.

Variable E : Env.
Variables (fuel : nat) (c : Client) (w : World).

Lemma refused_intro {A} msg :
  msg ∈ validation_messages → @refused A c w (Some (Err (Errorf msg None), c, w)).
Proof. intros Hin. exists (Errorf msg None). split; [done|]. by exists msg. Qed.

Local Ltac refuse :=
  intros; rewrite decide_True by (subst; auto);
  apply refused_intro; unfold validation_messages; rewrite !elem_of_cons; auto 20.

(** X11. Every check of the package refuses the zero arguments it looks
    at before any request: the call returns the error of the check, with
    the client and the world as they were. *)
Lemma zero_arguments_refused :
  refused c w (CreateAddressBook E fuel c "" w)
  ∧ (∀ id name, id = 0 ∨ name = "" → refused c w (EditAddressBook E fuel c id name w))
  ∧ refused c w (RemoveAddressBook E fuel c 0 w)
  ∧ refused c w (GetBookInfo E fuel c 0 w)
  ∧ refused c w (GetEmailsFromBook E fuel c 0 w)
  ∧ (∀ bookID emails, bookID = 0 ∨ emails = [] → refused c w (AddEmails E fuel c bookID emails w))
  ∧ (∀ bookID emails, bookID = 0 ∨ emails = [] →
       refused c w (RemoveEmails E fuel c bookID emails w))
  ∧ (∀ bookID email, bookID = 0 ∨ email = "" → refused c w (GetEmailInfo E fuel c bookID email w))
  ∧ (∀ bookID email variables, bookID = 0 ∨ email = "" ∨ variables = ∅ →
       refused c w (UpdateEmailVariables E fuel c bookID email variables w))
  ∧ refused c w (GetCampaignInfo E fuel c 0 w)
  ∧ (∀ senderName senderEmail subject body bookID name attachments,
       senderName = "" ∨ senderEmail = "" ∨ subject = "" ∨ body = "" ∨ bookID = 0 →
       refused c w (CreateCampaign E fuel c senderName senderEmail subject body bookID name
                  attachments w))
  ∧ refused c w (CancelCampaign E fuel c 0 w)
  ∧ refused c w (SMTPSendMail E fuel c None w)
  ∧ (∀ bookID phones, bookID = 0 ∨ phones = [] → refused c w (SMSAddPhones E fuel c bookID phones w))
  ∧ (∀ bookID phones, bookID = 0 ∨ phones = [] →
       refused c w (SMSAddPhonesWithVariables E fuel c bookID phones w))
  ∧ (∀ senderName phones body date transliterate route,
       senderName = "" ∨ phones = [] ∨ body = "" →
       refused c w (SMSSend E fuel c senderName phones body date transliterate route w))
  ∧ (∀ senderName bookID body date transliterate,
       senderName = "" ∨ bookID = 0 ∨ body = "" →
       refused c w (SMSAddCampaign E fuel c senderName bookID body date transliterate w)).
Proof.
  repeat apply conj.
  - unfold CreateAddressBook. refuse.
  - unfold EditAddressBook. refuse.
  - unfold RemoveAddressBook. refuse.
  - unfold GetBookInfo. refuse.
  - unfold GetEmailsFromBook. refuse.
  - unfold AddEmails. intros bookID emails [->| ->]; refuse.
  - unfold RemoveEmails. intros bookID emails [->| ->]; refuse.
  - unfold GetEmailInfo. refuse.
  - unfold UpdateEmailVariables. intros bookID email variables [->|[->| ->]]; refuse.
  - unfold GetCampaignInfo. refuse.
  - unfold CreateCampaign. refuse.
  - unfold CancelCampaign. refuse.
  - unfold SMTPSendMail. apply refused_intro.
    unfold validation_messages. rewrite !elem_of_cons. auto 20.
  - unfold SMSAddPhones. intros bookID phones [->| ->]; refuse.
  - unfold SMSAddPhonesWithVariables. intros bookID phones [->| ->]; refuse.
  - unfold SMSSend. intros senderName phones body date tr route [->|[->| ->]]; refuse.
  - unfold SMSAddCampaign. refuse.
Qed.

End Validation.

(* ===================================================================== *)
(** ** What the token manager and the dispatcher keep *)

Section Keeps.

Variable E : Env.

Lemma same_credentials_refl c : same_credentials c c.
Proof. by repeat split. Qed.

Lemma same_credentials_tokenPath c c' :
  same_credentials c c' → tokenPath E c' = tokenPath E c.
Proof. intros (Hu & Hs & Ht & _). unfold tokenPath. by rewrite Hu, Hs, Ht. Qed.

Lemma keeps_refl c w : keeps E c w c w.
Proof. split; [apply same_credentials_refl|]. by repeat split. Qed.

Lemma keeps_trans c1 w1 c2 w2 c3 w3 :
  keeps E c1 w1 c2 w2 → keeps E c2 w2 c3 w3 → keeps E c1 w1 c3 w3.
Proof.
  intros [Hc12 (Hh12 & Hd12 & Hf12)] [Hc23 (Hh23 & Hd23 & Hf23)].
  pose proof (same_credentials_tokenPath _ _ Hc12) as Hpath.
  destruct Hc12 as (? & ? & ? & ?), Hc23 as (? & ? & ? & ?).
  split; [repeat split; congruence|].
  repeat split; [congruence | congruence |].
  intros path Hne. rewrite Hf23 by congruence. by apply Hf12.
Qed.

Lemma keeps_log c w ev : keeps E c w c (log ev w).
Proof. split; [apply same_credentials_refl|]. by repeat split. Qed.

Lemma keeps_token c w w' tok :
  WriteFile E (tokenPath E c) tok w = Some w' → keeps E c w (set_Token tok c) w'.
Proof.
  unfold WriteFile. destruct (os_WriteFile_ok E _); [|done]. intros [= <-].
  split; [by repeat split|]. repeat split. intros path Hne. simpl.
  by apply lookup_insert_ne.
Qed.

Lemma keeps_set_Token c w tok : keeps E c w (set_Token tok c) w.
Proof. split; by repeat split. Qed.

Lemma keeps_failedWrite c w tok :
  keeps E c w (set_Token tok c) (failedWrite E (tokenPath E c) tok w).
Proof.
  unfold failedWrite. destruct (os_WriteFile_partial E _); [|apply keeps_set_Token].
  split; [by repeat split|]. repeat split. intros path Hne. simpl.
  by apply lookup_insert_ne.
Qed.

Lemma getToken_with_keeps send c w r c' w' :
  (∀ c0 path method data useToken w0 r0 c0' w0',
      send c0 path method data useToken w0 = Some (r0, c0', w0') → keeps E c0 w0 c0' w0') →
  getToken_with E send c w = Some (r, c', w') →
  keeps E c w c' w'.
Proof.
  intros Hsend. unfold getToken_with.
  destruct (send c _ _ _ _ _) as [[[[resp|err] c1] w1]|] eqn:Hs; [| |done].
  - apply Hsend in Hs.
    assert (Hstart : keeps E c w c1 w1)
      by (eapply keeps_trans; [apply keeps_log | exact Hs]).
    destruct (json_Unmarshal E TTokenResponse resp) as [tokenResp|].
    + change (tokenPath E (set_Token (AccessToken tokenResp) c1)) with (tokenPath E c1).
      destruct (WriteFile E _ _ w1) as [w2|] eqn:Hw.
      * intros [= <- <- <-]. apply keeps_token in Hw. by eapply keeps_trans.
      * intros [= <- <- <-]. eapply keeps_trans; [exact Hstart | apply keeps_failedWrite].
    + by intros [= <- <- <-].
  - apply Hsend in Hs. intros [= <- <- <-].
    eapply keeps_trans; [apply keeps_log | exact Hs].
Qed.

Lemma sendRequest_keeps fuel :
  ∀ c path method data useToken w r c' w',
    sendRequest E fuel c path method data useToken w = Some (r, c', w') →
    keeps E c w c' w'.
Proof.
  induction fuel as [|fuel IH]; intros c path method data useToken w r c' w'; [done|].
  rewrite sendRequest_unfold.
  destruct (newRequest E c path method data useToken) as [req|e].
  2: { intros [= <- <- <-]. apply keeps_refl. }
  destruct (httpClient_Do E (requests (trace w)) req) as [| |status body].
  1,2: intros [= <- <- <-]; apply keeps_log.
  destruct (decide (status = 401)).
  2: { intros [= <- <- <-]. apply keeps_log. }
  destruct (Strings.Contains body "invalid_client").
  { intros [= <- <- <-]. apply keeps_log. }
  destruct (getToken E fuel c (log (EvHTTP req) w)) as [[[[[]|err] c2] w2]|] eqn:Hg; [| |done].
  - intros Hretry. apply IH in Hretry.
    apply (getToken_with_keeps _ _ _ _ _ _ IH) in Hg.
    eapply keeps_trans; [apply keeps_log|].
    eapply keeps_trans; [exact Hg|].
    eapply keeps_trans; [apply keeps_log | exact Hretry].
  - intros [= <- <- <-].
    apply (getToken_with_keeps _ _ _ _ _ _ IH) in Hg.
    eapply keeps_trans; [apply keeps_log | exact Hg].
Qed.

Lemma getToken_keeps fuel c w r c' w' :
  getToken E fuel c w = Some (r, c', w') → keeps E c w c' w'.
Proof. apply getToken_with_keeps, sendRequest_keeps. Qed.

Lemma MkdirAll_keeps path w w1 :
  MkdirAll E path w = Some w1 →
  heap w1 = heap w ∧ files w1 = files w ∧ trace w1 = trace w
  ∧ dirs w1 ⊆ {[path]} ∪ os_MkdirAll_made E path ∪ dirs w ∧ dirs w ⊆ dirs w1.
Proof.
  unfold MkdirAll. destruct (decide (path ∈ dirs w)).
  - intros [= <-]. repeat split; set_solver.
  - destruct (os_MkdirAll_ok E path); [|done]. intros [= <-]. simpl.
    repeat split; set_solver.
Qed.

(** X1. Whatever they return, [sendRequest], [getToken] and [Init] leave
    the user id, the secret, the storage directory and the timeout of the
    client as they were, and of the world outside the trace they change at
    most the token file of this client.  [Init] may besides make
    directories: none when the storage directory is already there, else at
    most the storage directory and the parents that [os.MkdirAll] makes on
    its way to it; it removes none.  The maps of the callers and the other
    files are never touched. *)
Theorem client_keeps fuel c w :
  (∀ path method data useToken r c' w',
     sendRequest E fuel c path method data useToken w = Some (r, c', w') →
     same_credentials c c' ∧ token_file_only E c w w')
  ∧ (∀ r c' w',
       getToken E fuel c w = Some (r, c', w') →
       same_credentials c c' ∧ token_file_only E c w w')
  ∧ (∀ r c' w',
       Init E fuel c w = Some (r, c', w') →
       same_credentials c c'
       ∧ heap w' = heap w
       ∧ dirs w ⊆ dirs w'
       ∧ dirs w' ⊆ {[TokenStorage c]} ∪ os_MkdirAll_made E (TokenStorage c) ∪ dirs w
       ∧ (TokenStorage c ∈ dirs w → dirs w' = dirs w)
       ∧ ∀ path, path ≠ tokenPath E c → files w' !! path = files w !! path).
Proof.
  split; [|split].
  - intros path method data useToken r c' w' Hrun. by apply sendRequest_keeps in Hrun.
  - intros r c' w' Hrun. by apply getToken_keeps in Hrun.
  - intros r c' w'. unfold Init.
    destruct (MkdirAll E (TokenStorage c) w) as [w1|] eqn:Hmk.
    2: { intros [= <- <- <-]. split; [apply same_credentials_refl|]. simpl.
         split; [done|]. split; [set_solver|]. split; [set_solver|]. split; [|done].
         intros Hin. by rewrite MkdirAll_exists in Hmk. }
    pose proof (MkdirAll_keeps _ _ _ Hmk) as (Hh & Hf & _ & Hd1 & Hd2).
    assert (Hthere : TokenStorage c ∈ dirs w → dirs w1 = dirs w).
    { intros Hin. rewrite MkdirAll_exists in Hmk by done. by injection Hmk as <-. }
    set (c1 := match ReadFile (tokenPath E c) w1 with
               | Some tokenData => set_Token tokenData c
               | None => c
               end).
    assert (Hc1 : same_credentials c c1)
      by (subst c1; destruct (ReadFile _ w1); by repeat split).
    destruct (decide (Token c1 = "")).
    + intros Hg. apply getToken_keeps in Hg as [Hc (Hh' & Hd' & Hf')].
      rewrite (same_credentials_tokenPath _ _ Hc1) in Hf'.
      destruct Hc1 as (? & ? & ? & ?), Hc as (? & ? & ? & ?).
      split; [repeat split; congruence|].
      split; [congruence|]. split; [by rewrite Hd'|]. split; [by rewrite Hd'|].
      split; [intros Hin; rewrite Hd'; by apply Hthere|].
      intros path Hne. rewrite Hf' by done. by rewrite Hf.
    + intros [= <- <- <-]. split; [done|].
      split; [done|]. split; [done|]. split; [done|]. split; [done|].
      intros path _. by rewrite Hf.
Qed.

End Keeps.

(* ===================================================================== *)
(** ** The token file and the token in memory *)

Section Cache.

Variable E : Env.

Lemma cached_log c w ev : cached E c w → cached E c (log ev w).
Proof. done. Qed.

(** A [getToken] that succeeds has just written the token it holds. *)
Lemma getToken_with_ok_cached send c w c' w' :
  getToken_with E send c w = Some (Ok (), c', w') → cached E c' w'.
Proof.
  unfold getToken_with.
  destruct (send c _ _ _ _ _) as [[[[resp|err] c1] w1]|]; [| done..].
  destruct (json_Unmarshal E TTokenResponse resp) as [tokenResp|]; [|done].
  unfold WriteFile. destruct (os_WriteFile_ok E _); [|done].
  intros [= <- <-]. unfold cached. simpl. apply lookup_insert_eq.
Qed.

Lemma getToken_with_cached send p c w r c' w' :
  os_WriteFile_ok E p = true →
  (∀ c0 path method data useToken w0 r0 c0' w0',
      tokenPath E c0 = p → cached E c0 w0 →
      send c0 path method data useToken w0 = Some (r0, c0', w0') →
      tokenPath E c0' = p ∧ cached E c0' w0') →
  tokenPath E c = p → cached E c w →
  getToken_with E send c w = Some (r, c', w') →
  tokenPath E c' = p ∧ cached E c' w'.
Proof.
  intros Hok Hsend Hp Hc. unfold getToken_with.
  destruct (send c _ _ _ _ _) as [[[[resp|err] c1] w1]|] eqn:Hs; [| |done].
  - apply Hsend in Hs as [Hp1 Hc1]; [|done..].
    destruct (json_Unmarshal E TTokenResponse resp) as [tokenResp|].
    + unfold WriteFile.
      change (tokenPath E (set_Token (AccessToken tokenResp) c1)) with (tokenPath E c1).
      rewrite Hp1, Hok. intros [= <- <- <-]. split; [done|].
      unfold cached. simpl.
      change (tokenPath E (set_Token (AccessToken tokenResp) c1)) with (tokenPath E c1).
      rewrite Hp1. apply lookup_insert_eq.
    + by intros [= <- <- <-].
  - apply Hsend in Hs; [|done..]. by intros [= <- <- <-].
Qed.

Lemma sendRequest_cached fuel p :
  os_WriteFile_ok E p = true →
  ∀ c path method data useToken w r c' w',
    tokenPath E c = p → cached E c w →
    sendRequest E fuel c path method data useToken w = Some (r, c', w') →
    tokenPath E c' = p ∧ cached E c' w'.
Proof.
  intros Hok.
  induction fuel as [|fuel IH]; intros c path method data useToken w r c' w' Hp Hc; [done|].
  rewrite sendRequest_unfold.
  destruct (newRequest E c path method data useToken) as [req|e].
  2: { by intros [= <- <- <-]. }
  destruct (httpClient_Do E (requests (trace w)) req) as [| |status body].
  1,2: by intros [= <- <- <-].
  destruct (decide (status = 401)).
  2: { by intros [= <- <- <-]. }
  destruct (Strings.Contains body "invalid_client").
  { by intros [= <- <- <-]. }
  destruct (getToken E fuel c (log (EvHTTP req) w)) as [[[[[]|err] c2] w2]|] eqn:Hg; [| |done].
  - apply (getToken_with_cached _ p _ _ _ _ _ Hok IH Hp) in Hg as [Hp2 Hc2]; [|done].
    intros Hretry. by apply IH in Hretry.
  - apply (getToken_with_cached _ p _ _ _ _ _ Hok IH Hp) in Hg as [Hp2 Hc2]; [|done].
    by intros [= <- <- <-].
Qed.

(** X2. When the token file of the client can be written and holds the
    token the client has in memory, it still does after any [sendRequest]
    and any [getToken] that returns, with a result or with an error,
    however many refreshes happened on the way. *)
Theorem cache_stays_consistent fuel c w :
  os_WriteFile_ok E (tokenPath E c) = true →
  cached E c w →
  (∀ path method data useToken r c' w',
     sendRequest E fuel c path method data useToken w = Some (r, c', w') → cached E c' w')
  ∧ (∀ r c' w', getToken E fuel c w = Some (r, c', w') → cached E c' w').
Proof.
  intros Hok Hc. split.
  - intros path method data useToken r c' w' Hrun.
    by apply (sendRequest_cached fuel _ Hok) in Hrun as [_ ?].
  - intros r c' w' Hrun. unfold getToken in Hrun.
    apply (getToken_with_cached _ _ _ _ _ _ _ Hok (sendRequest_cached fuel _ Hok)) in Hrun
      as [_ ?]; done.
Qed.

(** X3. After a [getToken] that succeeds, and after an [Init] that succeeds
    on a client that had no token in memory (as [NewClient] makes it), the
    token file holds exactly the token the client has in memory. *)
Theorem success_is_cached fuel c w :
  (∀ c' w', getToken E fuel c w = Some (Ok (), c', w') → cached E c' w')
  ∧ (Token c = "" → ∀ c' w', Init E fuel c w = Some (Ok (), c', w') → cached E c' w').
Proof.
  split.
  - intros c' w'. apply getToken_with_ok_cached.
  - intros Htok c' w'. unfold Init.
    destruct (MkdirAll E (TokenStorage c) w) as [w1|] eqn:Hmk; [|done].
    apply MkdirAll_files in Hmk. unfold ReadFile. rewrite Hmk.
    destruct (files w !! tokenPath E c) as [tokenData|] eqn:Hfile.
    + destruct (decide (Token (set_Token tokenData c) = "")).
      * apply getToken_with_ok_cached.
      * intros [= <- <-]. unfold cached. by rewrite Hmk.
    + rewrite decide_True by done. apply getToken_with_ok_cached.
Qed.


End Cache.

(** *** Scripted runs *)

(** A refresh that replaces the cached token in memory and in the file. *)
Lemma cache_stays_consistent_witness :
  ∃ w',
    sendRequest (scripted [Response 401 "expired"; Response 200 "fresh"; Response 200 "ok"] true)
      2 client1 "balance" "GET" None true world_cached
    = Some (Ok "ok", set_Token "fresh" client1, w')
    ∧ cached (scripted [Response 401 "expired"; Response 200 "fresh"; Response 200 "ok"] true)
        (set_Token "fresh" client1) w'.
Proof.
  eexists. split; [reflexivity|].
  destruct (cache_stays_consistent
              (scripted [Response 401 "expired"; Response 200 "fresh"; Response 200 "ok"] true)
              2 client1 world_cached) as [Hsend _].
  - reflexivity.
  - vm_compute. reflexivity.
  - eapply (Hsend "balance" "GET" None true). reflexivity.
Defined.

(** A first [Init]: the token is fetched and written. *)
Lemma success_is_cached_witness :
  ∃ w',
    Init (scripted [Response 200 "fresh"] true) 1 client0 world0
    = Some (Ok (), set_Token "fresh" client0, w')
    ∧ cached (scripted [Response 200 "fresh"] true) (set_Token "fresh" client0) w'.
Proof.
  eexists. split; [reflexivity|].
  destruct (success_is_cached (scripted [Response 200 "fresh"] true) 1 client0 world0)
    as [_ Hinit].
  eapply (Hinit eq_refl). reflexivity.
Defined.


(* ===================================================================== *)
(** ** Refreshes that fail, refreshes that never end *)

Section Refresh.

Variable E : Env.

(** X5. When the answer to a call asks for a refresh and the token request
    then fails on its own answer (no answer, an unreadable one, a 401 that
    names invalid_client, a body that does not parse, or a token file that
    cannot be written), the call fails with the error of the fetch wrapped
    under "failed to refresh token"; the original request is not sent again:
    the trace gains the request, the fetch and the token request.  No file
    but the token file changes, and the token file changes only when it is
    its write that failed after the file was opened: it then holds the
    bytes of the new token written before the failure, none of them for
    one, while the client holds the whole token. *)
Theorem refresh_failure_is_final fuel c path method data useToken w req body treq :
  newRequest E c path method data useToken = Ok req →
  httpClient_Do E (requests (trace w)) req = Response 401 body →
  Strings.Contains body "invalid_client" = false →
  newRequest E c "oauth/access_token" "POST" (Some (tokenRequestData c)) false = Ok treq →
  asks_refresh (httpClient_Do E (requests (trace w) ++ [req]) treq) = false →
  fetch_fails E c (httpClient_Do E (requests (trace w) ++ [req]) treq) →
  ∃ err c' w',
    getToken E (S fuel) c (log (EvHTTP req) w) = Some (Err err, c', w')
    ∧ sendRequest E (S (S fuel)) c path method data useToken w
      = Some (Err (Errorf "failed to refresh token: %w" (Some err)), c', w')
    ∧ added w w' = [EvHTTP req; EvFetch; EvHTTP treq]
    ∧ retries (added w w') = 0%nat
    ∧ same_credentials c c'
    ∧ (∀ path, path ≠ tokenPath E c → files w' !! path = files w !! path)
    ∧ (files w' = files w
       ∨ ∃ status2 body2 tokenResp n,
           httpClient_Do E (requests (trace w) ++ [req]) treq = Response status2 body2
           ∧ status2 ≠ 401
           ∧ json_Unmarshal E TTokenResponse body2 = Some tokenResp
           ∧ os_WriteFile_ok E (tokenPath E c) = false
           ∧ os_WriteFile_partial E (tokenPath E c) = Some n
           ∧ Token c' = AccessToken tokenResp
           ∧ files w' = <[tokenPath E c := substring 0 n (AccessToken tokenResp)]> (files w)).
Proof.
  intros Hreq Hdo Hsig Htreq Hplain Hfail.
  destruct (sendRequest_refresh_fails E fuel c path method data useToken w req body treq)
    as (err & c' & w' & Hfetch & Hrun & Htr & Hsame & Hfiles); try done.
  exists err, c', w'. split; [done|]. split; [done|].
  rewrite (added_app w w' _ Htr). split; [done|]. split; [done|]. split; [done|].
  split; [|done].
  intros file Hne.
  destruct Hfiles as [-> | (status2 & body2 & tokenResp & n & _ & _ & _ & _ & _ & _ & ->)];
    [done|]. by apply lookup_insert_ne.
Qed.

Lemma token_request_never_returns c treq :
  newRequest E c "oauth/access_token" "POST" (Some (tokenRequestData c)) false = Ok treq →
  (∀ earlier, asks_refresh (httpClient_Do E earlier treq) = true) →
  ∀ fuel w,
    sendRequest E fuel c "oauth/access_token" "POST" (Some (tokenRequestData c)) false w = None.
Proof.
  intros Htreq Hall. induction fuel as [|fuel IH]; intros w; [done|].
  rewrite sendRequest_unfold, Htreq.
  destruct (asks_refresh_inv _ (Hall (requests (trace w)))) as (body & -> & Hsig).
  rewrite decide_True by done. rewrite Hsig.
  unfold getToken, getToken_with. by rewrite IH.
Qed.

(** X6. The refresh has no bound.  When the token endpoint answers every
    token request with a 401 that does not name invalid_client, a call whose
    own answer asks for a refresh never returns: the fetch it starts must
    refresh before it ends, and so must the fetch started by that one.
    Whatever the fuel, there is no outcome. *)
Theorem refused_refresh_never_returns c path method data useToken w req treq :
  newRequest E c path method data useToken = Ok req →
  asks_refresh (httpClient_Do E (requests (trace w)) req) = true →
  newRequest E c "oauth/access_token" "POST" (Some (tokenRequestData c)) false = Ok treq →
  (∀ earlier, asks_refresh (httpClient_Do E earlier treq) = true) →
  ∀ fuel, sendRequest E fuel c path method data useToken w = None.
Proof.
  intros Hreq Hask Htreq Hall [|fuel]; [done|].
  rewrite sendRequest_unfold, Hreq.
  destruct (asks_refresh_inv _ Hask) as (body & -> & Hsig).
  rewrite decide_True by done. rewrite Hsig.
  unfold getToken, getToken_with.
  by rewrite (token_request_never_returns c treq Htreq Hall).
Qed.

End Refresh.

(** The token endpoint is down after the first answer. *)
Lemma refresh_failure_is_final_witness :
  ∃ err c' w',
    sendRequest (scripted [Response 401 "expired"] true) 2 client1 "balance" "GET" None true
      world0
    = Some (Err (Errorf "failed to refresh token: %w" (Some err)), c', w')
    ∧ added world0 w'
      = [EvHTTP (balance_request (bearer "cached")); EvFetch; EvHTTP token_request]
    ∧ retries (added world0 w') = 0%nat
    ∧ same_credentials client1 c'.
Proof.
  destruct (refresh_failure_is_final (scripted [Response 401 "expired"] true) 0 client1
              "balance" "GET" None true world0 (balance_request (bearer "cached")) "expired"
              token_request eq_refl eq_refl eq_refl eq_refl eq_refl I)
    as (err & c' & w' & _ & Hrun & Hadded & Hretries & Hsame & _).
  by exists err, c', w'.
Defined.

(** The token is fetched and its file cannot be written to the end: the
    call fails, the client holds the new token and the file its first two
    bytes. *)
Example refresh_leaves_half_a_token :
  ∃ w',
    sendRequest (scripted_disk [Response 401 "expired"; Response 200 "fresh"] 2 ∅) 2 client1
      "balance" "GET" None true world_cached
    = Some (Err (Errorf "failed to refresh token: %w" (Some (LibError "os"))),
            set_Token "fresh" client1, w')
    ∧ files w' !! token_file = Some "fr".
Proof. eexists. split; [reflexivity|]. vm_compute. reflexivity. Qed.

(** A server that answers 401 to everything. *)
Lemma refused_refresh_never_returns_witness :
  sendRequest (stubborn (Response 401 "expired")) 1000 client1 "balance" "GET" None true world0
  = None.
Proof.
  apply (refused_refresh_never_returns (stubborn (Response 401 "expired")) client1
           "balance" "GET" None true world0 (balance_request (bearer "cached"))
           token_request); first [reflexivity | by intros].
Defined.

(* ===================================================================== *)
(** ** Where the requests go *)

Section ApiRequests.

Variable E : Env.

Lemma newRequest_api c path method data useToken req :
  newRequest E c path method data useToken = Ok req → api_request req.
Proof.
  unfold newRequest.
  destruct (match data with Some d => _ | None => _ end) as [body|e]; [|done].
  destruct (http_NewRequest E method _); [|done].
  intros [= <-]. split; [simpl; by destruct path|]. simpl.
  destruct useToken; simpl; [|by left].
  destruct (bool_decide (Token c = "")) eqn:Htok; simpl; [by left|].
  right. exists (Token c). split; [|done]. by apply bool_decide_eq_false in Htok.
Qed.

Lemma sends_api_requests_refl w : sends_api_requests w w.
Proof. exists []. split; [by rewrite app_nil_r | constructor]. Qed.

Lemma sends_api_requests_trans w1 w2 w3 :
  sends_api_requests w1 w2 → sends_api_requests w2 w3 → sends_api_requests w1 w3.
Proof.
  intros (evs1 & Ht1 & Hall1) (evs2 & Ht2 & Hall2). exists (evs1 ++ evs2). split.
  - rewrite Ht2, Ht1. by rewrite app_assoc.
  - rewrite requests_app. by apply Forall_app.
Qed.

Lemma sends_api_requests_http w req : api_request req → sends_api_requests w (log (EvHTTP req) w).
Proof. intros Hreq. exists [EvHTTP req]. split; [done|]. simpl. by constructor. Qed.

Lemma sends_api_requests_mark w ev :
  (∀ r, ev ≠ EvHTTP r) → sends_api_requests w (log ev w).
Proof.
  intros Hev. exists [ev]. split; [done|].
  destruct ev as [r| | |s]; [by destruct (Hev r) | simpl; constructor..].
Qed.

Lemma sends_api_requests_fetch w : sends_api_requests w (log EvFetch w).
Proof. apply sends_api_requests_mark. by intros r. Qed.

Lemma sends_api_requests_retry w : sends_api_requests w (log EvRetry w).
Proof. apply sends_api_requests_mark. by intros r. Qed.

Lemma sends_api_requests_files w fs : sends_api_requests w (set_files fs w).
Proof. exists []. split; [simpl; by rewrite app_nil_r | constructor]. Qed.

Lemma getToken_with_api send c w r c' w' :
  (∀ c0 path method data useToken w0 r0 c0' w0',
      send c0 path method data useToken w0 = Some (r0, c0', w0') →
      sends_api_requests w0 w0') →
  getToken_with E send c w = Some (r, c', w') →
  sends_api_requests w w'.
Proof.
  intros Hsend. unfold getToken_with.
  destruct (send c _ _ _ _ _) as [[[[resp|err] c1] w1]|] eqn:Hs; [| |done].
  - apply Hsend in Hs.
    assert (Hstart : sends_api_requests w w1).
    { eapply sends_api_requests_trans; [apply sends_api_requests_fetch | exact Hs]. }
    destruct (json_Unmarshal E TTokenResponse resp) as [tokenResp|].
    + unfold WriteFile, failedWrite. destruct (os_WriteFile_ok E _).
      * intros [= <- <- <-].
        eapply sends_api_requests_trans; [exact Hstart | apply sends_api_requests_files].
      * intros [= <- <- <-]. destruct (os_WriteFile_partial E _); [|done].
        eapply sends_api_requests_trans; [exact Hstart | apply sends_api_requests_files].
    + by intros [= <- <- <-].
  - apply Hsend in Hs. intros [= <- <- <-].
    eapply sends_api_requests_trans; [apply sends_api_requests_fetch | exact Hs].
Qed.

Lemma sendRequest_api fuel :
  ∀ c path method data useToken w r c' w',
    sendRequest E fuel c path method data useToken w = Some (r, c', w') →
    sends_api_requests w w'.
Proof.
  induction fuel as [|fuel IH]; intros c path method data useToken w r c' w'; [done|].
  rewrite sendRequest_unfold.
  destruct (newRequest E c path method data useToken) as [req|e] eqn:Hreq.
  2: { intros [= <- <- <-]. apply sends_api_requests_refl. }
  apply newRequest_api in Hreq.
  destruct (httpClient_Do E (requests (trace w)) req) as [| |status body].
  1,2: intros [= <- <- <-]; by apply sends_api_requests_http.
  destruct (decide (status = 401)).
  2: { intros [= <- <- <-]. by apply sends_api_requests_http. }
  destruct (Strings.Contains body "invalid_client").
  { intros [= <- <- <-]. by apply sends_api_requests_http. }
  destruct (getToken E fuel c (log (EvHTTP req) w)) as [[[[[]|err] c2] w2]|] eqn:Hg; [| |done].
  - intros Hretry. apply IH in Hretry.
    apply (getToken_with_api _ _ _ _ _ _ IH) in Hg.
    eapply sends_api_requests_trans; [by apply sends_api_requests_http|].
    eapply sends_api_requests_trans; [exact Hg|].
    eapply sends_api_requests_trans; [apply sends_api_requests_retry | exact Hretry].
  - intros [= <- <- <-].
    apply (getToken_with_api _ _ _ _ _ _ IH) in Hg.
    eapply sends_api_requests_trans; [by apply sends_api_requests_http | exact Hg].
Qed.

Lemma MkdirAll_api path w w1 : MkdirAll E path w = Some w1 → sends_api_requests w w1.
Proof.
  intros Hmk. apply MkdirAll_keeps in Hmk as (_ & _ & Ht & _).
  exists []. split; [by rewrite Ht, app_nil_r | constructor].
Qed.

(** X8. Every request that a [sendRequest], a [getToken] or an [Init] sends,
    the token requests and the retries included, goes to a URL under
    [APIUrl] and carries the JSON content type and at most one more header,
    an Authorization made of "Bearer " and a token that is not empty. *)
Theorem requests_go_to_the_api fuel c w :
  (∀ path method data useToken r c' w',
     sendRequest E fuel c path method data useToken w = Some (r, c', w') →
     Forall api_request (requests (added w w')))
  ∧ (∀ r c' w',
       getToken E fuel c w = Some (r, c', w') → Forall api_request (requests (added w w')))
  ∧ (∀ r c' w',
       Init E fuel c w = Some (r, c', w') → Forall api_request (requests (added w w'))).
Proof.
  assert (Hadded : ∀ w', sends_api_requests w w' → Forall api_request (requests (added w w'))).
  { intros w' (evs & Ht & Hall). by rewrite (added_app _ _ _ Ht). }
  split; [|split].
  - intros path method data useToken r c' w' Hrun. by apply sendRequest_api, Hadded in Hrun.
  - intros r c' w' Hrun. apply Hadded. unfold getToken in Hrun.
    by apply (getToken_with_api _ _ _ _ _ _ (sendRequest_api fuel)) in Hrun.
  - intros r c' w'. unfold Init.
    destruct (MkdirAll E (TokenStorage c) w) as [w1|] eqn:Hmk.
    2: { intros [= <- <- <-]. apply Hadded. exists []. split; [|constructor].
         simpl. by rewrite app_nil_r. }
    apply MkdirAll_api in Hmk.
    destruct (decide (Token _ = "")).
    + intros Hrun. apply Hadded. unfold getToken in Hrun.
      apply (getToken_with_api _ _ _ _ _ _ (sendRequest_api fuel)) in Hrun.
      by eapply sends_api_requests_trans.
    + intros [= <- <- <-]. by apply Hadded.
Qed.


End ApiRequests.

(** An expired token, a refresh, a retry: three requests, all to the API. *)
Lemma requests_go_to_the_api_witness :
  ∃ w',
    sendRequest (scripted [Response 401 "expired"; Response 200 "fresh"; Response 200 "ok"] true)
      2 client1 "balance" "GET" None true world0
    = Some (Ok "ok", set_Token "fresh" client1, w')
    ∧ length (requests (added world0 w')) = 3%nat
    ∧ Forall api_request (requests (added world0 w')).
Proof.
  eexists. split; [reflexivity|]. split; [vm_compute; reflexivity|].
  destruct (requests_go_to_the_api
              (scripted [Response 401 "expired"; Response 200 "fresh"; Response 200 "ok"] true)
              2 client1 world0) as [Hsend _].
  eapply (Hsend "balance" "GET" None true). reflexivity.
Defined.


(** The write fails after two bytes: the second [Init] adopts them as the
    token. *)
Example Init_adopts_half_a_token :
  ∃ w',
    Init (scripted_disk [Response 200 "fresh"] 2 ∅) 1 client0 world0
    = Some (Err (LibError "os"), set_Token "fresh" client0, w')
    ∧ files w' !! token_file = Some "fr"
    ∧ Init (scripted_disk [Response 200 "fresh"] 2 ∅) 1 (set_Token "fresh" client0) w'
      = Some (Ok (), set_Token "fr" client0, w').
Proof. eexists. split; [reflexivity|]. split; vm_compute; reflexivity. Qed.

(* ===================================================================== *)
(** ** SMTPSendMail and the maps of the caller *)

Section SMTPMaps.

Variable E : Env.

Lemma encodeHTML_other m k : k ≠ "html" → encodeHTML m !! k = m !! k.
Proof.
  intros Hk. unfold encodeHTML.
  destruct (m !! "html") as [[]|]; try done. by rewrite lookup_insert_ne.
Qed.

Lemma encodeHTML_no_string m :
  (∀ html, m !! "html" ≠ Some (VString html)) → encodeHTML m = m.
Proof.
  intros Hno. unfold encodeHTML.
  destruct (m !! "html") as [[| | |html| |]|] eqn:Hm; try done. by destruct (Hno html).
Qed.

Lemma encodeHTML_twice m html :
  m !! "html" = Some (VString html) →
  encodeHTML (encodeHTML m)
  = <["html" := VString (Base64.EncodeToString (Base64.EncodeToString html))]> m.
Proof.
  intros Hm. unfold encodeHTML at 2. rewrite Hm.
  unfold encodeHTML. rewrite lookup_insert_eq. by rewrite insert_insert_eq.
Qed.

(** The heap after a call that returned. *)
Lemma SMTPSendMail_heap fuel c l w m r c' w' :
  heap w !! l = Some m →
  SMTPSendMail E fuel c (Some l) w = Some (r, c', w') →
  heap w' = <[l := encodeHTML m]> (heap w) ∧ dirs w' = dirs w.
Proof.
  intros Hl. unfold SMTPSendMail. rewrite Hl.
  set (w1 := match m !! "html" with
             | Some (VString _) => set_heap (<[l := encodeHTML m]> (heap w)) w
             | _ => w
             end).
  assert (Hw1 : heap w1 = <[l := encodeHTML m]> (heap w) ∧ dirs w1 = dirs w).
  { subst w1. unfold encodeHTML.
    destruct (m !! "html") as [[]|]; simpl; split; try done; by rewrite insert_id. }
  destruct (json_Marshal E (VMap (encodeHTML m))) as [emailJSON|].
  - destruct (sendRequest E fuel c _ _ _ _ w1) as [[[r1 c1] w2]|] eqn:Hsend; [|done].
    intros [= <- <- <-]. apply sendRequest_extends in Hsend as (Hh & Hd & _).
    simpl. by rewrite Hh, Hd.
  - by intros [= <- <- <-].
Qed.

(** X9. Of the maps that callers hold, [SMTPSendMail] changes at most one
    entry: the "html" entry of the map it was given.  The other entries of
    that map and all other maps are as they were, and a map with no "html"
    entry, or with one that is not a string, is not changed at all. *)
Theorem SMTPSendMail_changes_html_only fuel c l w m r c' w' :
  heap w !! l = Some m →
  SMTPSendMail E fuel c (Some l) w = Some (r, c', w') →
  (∀ l', l' ≠ l → heap w' !! l' = heap w !! l')
  ∧ ∃ m', heap w' !! l = Some m'
          ∧ (∀ k, k ≠ "html" → m' !! k = m !! k)
          ∧ ((∀ html, m !! "html" ≠ Some (VString html)) → m' = m ∧ heap w' = heap w).
Proof.
  intros Hl Hrun. apply (SMTPSendMail_heap _ _ _ _ m) in Hrun as [Hh _]; [|done].
  split.
  - intros l' Hne. rewrite Hh. by apply lookup_insert_ne.
  - exists (encodeHTML m). split; [rewrite Hh; apply lookup_insert_eq|]. split.
    + intros k Hk. by apply encodeHTML_other.
    + intros Hno. apply encodeHTML_no_string in Hno. split; [done|].
      rewrite Hh, Hno. by apply insert_id.
Qed.

(** X10. The encoding is applied at every call: a map sent twice holds,
    after the second call, the base64 encoding of the base64 encoding of the
    page it held at first. *)
Theorem SMTPSendMail_twice_encodes_twice fuel fuel' c l w m html r1 c1 w1 r2 c2 w2 :
  heap w !! l = Some m →
  m !! "html" = Some (VString html) →
  SMTPSendMail E fuel c (Some l) w = Some (r1, c1, w1) →
  SMTPSendMail E fuel' c1 (Some l) w1 = Some (r2, c2, w2) →
  heap w2 !! l
  = Some (<["html" := VString (Base64.EncodeToString (Base64.EncodeToString html))]> m).
Proof.
  intros Hl Hhtml Hrun1 Hrun2.
  apply (SMTPSendMail_heap _ _ _ _ m) in Hrun1 as [Hh1 _]; [|done].
  assert (Hl1 : heap w1 !! l = Some (encodeHTML m)) by (rewrite Hh1; apply lookup_insert_eq).
  apply (SMTPSendMail_heap _ _ _ _ (encodeHTML m)) in Hrun2 as [Hh2 _]; [|done].
  rewrite Hh2, lookup_insert_eq. f_equal. by apply encodeHTML_twice.
Qed.

End SMTPMaps.

(** A map with a page and a subject. *)
Lemma SMTPSendMail_changes_html_only_witness :
  ∃ w',
    SMTPSendMail (scripted [Response 200 "ok"] true) 1 client1 (Some 1%positive)
      (world_mail mail_page) = Some (Ok (), client1, w')
    ∧ ∃ m', heap w' !! 1%positive = Some m'
            ∧ m' !! "subject" = Some (VString "Hello").
Proof.
  eexists. split; [reflexivity|].
  edestruct (SMTPSendMail_changes_html_only (scripted [Response 200 "ok"] true) 1 client1
               1%positive (world_mail mail_page) mail_page)
    as (_ & m' & Hm' & Hother & _); [reflexivity | reflexivity |].
  exists m'. split; [exact Hm'|]. rewrite Hother; [reflexivity | discriminate].
Defined.

(** The same map sent twice. *)
Lemma SMTPSendMail_twice_encodes_twice_witness :
  ∃ c1 w1 w2,
    SMTPSendMail (scripted [Response 200 "ok"; Response 200 "ok"] true) 1 client1
      (Some 1%positive) (world_mail mail_page) = Some (Ok (), c1, w1)
    ∧ SMTPSendMail (scripted [Response 200 "ok"; Response 200 "ok"] true) 1 c1
        (Some 1%positive) w1 = Some (Ok (), c1, w2)
    ∧ heap w2 !! 1%positive
      = Some (<["html" := VString (Base64.EncodeToString
                                     (Base64.EncodeToString "<p>Hi</p>"))]> mail_page).
Proof.
  eexists _, _, _. split; [reflexivity|]. split; [reflexivity|].
  eapply (SMTPSendMail_twice_encodes_twice (scripted [Response 200 "ok"; Response 200 "ok"] true)
            1 1 client1 1%positive (world_mail mail_page) mail_page "<p>Hi</p>");
    reflexivity.
Defined.

(* ===================================================================== *)
(** ** The public methods *)

Section Methods.

Variable E : Env.
Variables (fuel : nat) (c : Client) (w : World).

Lemma behaves_refused {A} (e : error) : behaves E c w (A := A) (Some (Err e, c, w)).
Proof.
  intros r c' w' [= <- <- <-]. split; [apply keeps_refl | apply sends_api_requests_refl].
Qed.

Lemma behaves_sendRequest path method data useToken :
  behaves E c w (sendRequest E fuel c path method data useToken w).
Proof.
  intros r c' w' Hrun. split; [by eapply sendRequest_keeps | by eapply sendRequest_api].
Qed.

Lemma behaves_decode t msg run : behaves E c w run → behaves E c w (decode E t msg run).
Proof.
  intros Hrun r c' w'. unfold decode.
  destruct run as [[[[resp|err] c1] w1]|]; [| |done].
  - destruct (json_Unmarshal E t resp); intros [= <- <- <-]; by eapply Hrun.
  - intros [= <- <- <-]. by eapply Hrun.
Qed.

Lemma behaves_discard run : behaves E c w run → behaves E c w (discard run).
Proof.
  intros Hrun r c' w'. unfold discard.
  destruct run as [[[[resp|err] c1] w1]|]; [| |done]; intros [= <- <- <-]; by eapply Hrun.
Qed.

Local Ltac behave :=
  intros;
  repeat first
    [ apply behaves_refused
    | match goal with
      | |- behaves _ _ _ (decode _ ?t ?msg ?run) => apply (behaves_decode t msg run)
      end
    | apply behaves_discard
    | apply behaves_sendRequest
    | match goal with
      | |- behaves _ _ _ (if ?b then _ else _) => destruct b
      | |- behaves _ _ _ (match ?o with Some _ => _ | None => _ end) => destruct o
      end ].

(** X12. Whatever their arguments and whatever they return, the methods of
    the client leave its credentials, storage directory and timeout as they
    were, change no file but the token file of the client, no directory and
    no map of a caller, and send requests to the API only.  [SMTPSendMail]
    does the same but for the "html" entry of the map it is given. *)
Theorem methods_behave :
  (∀ limit offset, behaves E c w (ListAddressBooks E fuel c limit offset w))
  ∧ (∀ name, behaves E c w (CreateAddressBook E fuel c name w))
  ∧ (∀ id name, behaves E c w (EditAddressBook E fuel c id name w))
  ∧ (∀ id, behaves E c w (RemoveAddressBook E fuel c id w))
  ∧ (∀ id, behaves E c w (GetBookInfo E fuel c id w))
  ∧ (∀ id, behaves E c w (GetEmailsFromBook E fuel c id w))
  ∧ (∀ bookID emails, behaves E c w (AddEmails E fuel c bookID emails w))
  ∧ (∀ bookID emails, behaves E c w (RemoveEmails E fuel c bookID emails w))
  ∧ (∀ bookID email, behaves E c w (GetEmailInfo E fuel c bookID email w))
  ∧ (∀ bookID email variables,
       behaves E c w (UpdateEmailVariables E fuel c bookID email variables w))
  ∧ (∀ limit offset, behaves E c w (ListCampaigns E fuel c limit offset w))
  ∧ (∀ id, behaves E c w (GetCampaignInfo E fuel c id w))
  ∧ (∀ senderName senderEmail subject body bookID name attachments,
       behaves E c w (CreateCampaign E fuel c senderName senderEmail subject body bookID name
                        attachments w))
  ∧ (∀ id, behaves E c w (CancelCampaign E fuel c id w))
  ∧ (∀ limit offset fromDate toDate sender recipient,
       behaves E c w (SMTPListEmails E fuel c limit offset fromDate toDate sender recipient w))
  ∧ (∀ bookID phones, behaves E c w (SMSAddPhones E fuel c bookID phones w))
  ∧ (∀ bookID phones, behaves E c w (SMSAddPhonesWithVariables E fuel c bookID phones w))
  ∧ (∀ senderName phones body date transliterate route,
       behaves E c w (SMSSend E fuel c senderName phones body date transliterate route w))
  ∧ (∀ senderName bookID body date transliterate,
       behaves E c w (SMSAddCampaign E fuel c senderName bookID body date transliterate w))
  ∧ (∀ currency, behaves E c w (GetBalance E fuel c currency w))
  ∧ (∀ path method data, behaves E c w (SendRawRequest E fuel c path method data w))
  ∧ (∀ emailData, behaves_but_heap E c w (SMTPSendMail E fuel c emailData w)).
Proof.
  repeat apply conj.
  - unfold ListAddressBooks. behave.
  - unfold CreateAddressBook. behave.
  - unfold EditAddressBook. behave.
  - unfold RemoveAddressBook. behave.
  - unfold GetBookInfo. behave.
  - unfold GetEmailsFromBook. behave.
  - unfold AddEmails. behave.
  - unfold RemoveEmails. behave.
  - unfold GetEmailInfo. behave.
  - unfold UpdateEmailVariables. behave.
  - unfold ListCampaigns. behave.
  - unfold GetCampaignInfo. behave.
  - unfold CreateCampaign. behave.
  - unfold CancelCampaign. behave.
  - unfold SMTPListEmails. behave.
  - unfold SMSAddPhones. behave.
  - unfold SMSAddPhonesWithVariables. behave.
  - unfold SMSSend. behave.
  - unfold SMSAddCampaign. behave.
  - unfold GetBalance. behave.
  - unfold SendRawRequest. behave.
  - intros emailData r c' w'. unfold SMTPSendMail.
    destruct emailData as [l|].
    2: { intros [= <- <- <-]. repeat split; [done.. | apply sends_api_requests_refl]. }
    destruct (heap w !! l) as [m|]; [|done].
    set (w1 := match m !! "html" with
               | Some (VString _) => set_heap (<[l := encodeHTML m]> (heap w)) w
               | _ => w
               end).
    assert (Hw1 : dirs w1 = dirs w ∧ files w1 = files w ∧ trace w1 = trace w)
      by (subst w1; by destruct (m !! "html") as [[]|]).
    destruct Hw1 as (Hd1 & Hf1 & Ht1).
    destruct (json_Marshal E (VMap (encodeHTML m))) as [emailJSON|].
    + destruct (sendRequest E fuel c _ _ _ _ w1) as [[[r1 c1] w2]|] eqn:Hsend; [|done].
      intros [= <- <- <-].
      pose proof (sendRequest_keeps _ _ _ _ _ _ _ _ _ _ _ Hsend) as [Hc (_ & Hd & Hf)].
      apply sendRequest_api in Hsend as (evs & Ht & Hall).
      split; [done|]. split; [simpl; congruence|]. split.
      * intros path Hne. simpl. rewrite Hf by done. by rewrite Hf1.
      * exists (evs ++ [EvPrint ("Response: " +:+ body_of r1 +:+ newline)]). split.
        -- simpl. rewrite Ht, Ht1. by rewrite app_assoc.
        -- rewrite requests_app. simpl. by rewrite app_nil_r.
    + intros [= <- <- <-]. split; [apply same_credentials_refl|].
      repeat split; [done | by intros; rewrite Hf1 |].
      exists []. split; [by rewrite Ht1, app_nil_r | constructor].
Qed.

End Methods.

(* ===================================================================== *)
(** ** The batch script *)

Section ScriptFacts.

Variable E : Env.
Variable H : Main.Host.

Local Arguments SMTPSendMail : simpl never.

Lemma newMap_fresh m w :
  heap w !! (Main.newMap m w).1 = None
  ∧ heap (Main.newMap m w).2 = <[(Main.newMap m w).1 := m]> (heap w)
  ∧ files (Main.newMap m w).2 = files w
  ∧ dirs (Main.newMap m w).2 = dirs w
  ∧ trace (Main.newMap m w).2 = trace w.
Proof.
  unfold Main.newMap. simpl. repeat split.
  apply not_elem_of_dom, is_fresh.
Qed.

Lemma emailData_html templateStr email :
  encodeHTML (Main.emailData templateStr email) = Main.mailed templateStr email.
Proof.
  unfold encodeHTML, Main.mailed, Main.emailData. by rewrite lookup_insert_eq.
Qed.

(** One pass of the loop over what is left of a sheet. *)
Lemma rowsLoop_mails fuel templateStr sheet rest :
  ∀ i sent p sent' p',
    Main.rowsLoop E H fuel templateStr sheet rest i sent p = Some (sent', p') →
    let rs := omap (Main.recipient H) (take (51 - i) rest) in
    sent ≤ sent' ≤ sent + Z.of_nat (length rs)
    ∧ Main.naps p' = Main.naps p
    ∧ size (heap (Main.world p')) = (size (heap (Main.world p)) + length rs)%nat
    ∧ (∀ l m, heap (Main.world p) !! l = Some m → heap (Main.world p') !! l = Some m)
    ∧ ∃ locs,
        Forall2 (λ l email,
                   heap (Main.world p) !! l = None
                   ∧ heap (Main.world p') !! l = Some (Main.mailed templateStr email))
                locs rs.
Proof.
  induction rest as [|row rest IH]; intros i sent p sent' p' Hrun rs.
  { injection Hrun as <- <-. subst rs. rewrite take_nil.
    repeat split; [simpl; lia | simpl; lia | simpl; lia | done |]. exists []. constructor. }
  cbn [Main.rowsLoop] in Hrun.
  destruct (decide (i ≤ 50)%nat) as [Hi|Hi].
  2: { injection Hrun as <- <-. subst rs. replace (51 - i)%nat with 0%nat by lia.
       repeat split; [simpl; lia | simpl; lia | simpl; lia | done |].
       exists []. constructor. }
  set (rs' := omap (Main.recipient H) (take (51 - S i) rest)).
  assert (Hrs : rs = match Main.recipient H row with Some e => e :: rs' | None => rs' end).
  { subst rs rs'. by replace (51 - i)%nat with (S (51 - S i)) by lia. }
  specialize (IH (S i)). cbv zeta in IH. fold rs' in IH.
  destruct row as [|cell cells].
  { rewrite Hrs. by apply IH in Hrun. }
  cbn [Main.recipient] in Hrs. cbv zeta in Hrun, Hrs.
  destruct (decide (Main.strings_TrimSpace H cell = "")) as [Hblank|Hemail].
  { rewrite Hrs. by apply IH in Hrun. }
  rewrite Hrs. clear Hrs rs.
  set (email := Main.strings_TrimSpace H cell) in *.
  set (m := Main.emailData templateStr email) in *.
  unfold Main.newMap in Hrun. cbv zeta in Hrun.
  set (l := fresh (dom (heap (Main.world p)))) in *.
  set (w1 := set_heap (<[l := m]> (heap (Main.world p))) (Main.world p)) in *.
  assert (Hfresh : heap (Main.world p) !! l = None) by apply not_elem_of_dom, is_fresh.
  destruct (SMTPSendMail E fuel (Main.client p) (Some l) w1) as [[[r c'] w2]|] eqn:Hsend;
    [|done].
  apply (SMTPSendMail_heap _ _ _ _ _ m) in Hsend as [Hh2 _]; [|apply lookup_insert_eq].
  change (heap w1) with (<[l := m]> (heap (Main.world p))) in Hh2.
  rewrite insert_insert_eq in Hh2. unfold m in Hh2. rewrite emailData_html in Hh2.
  assert (Hstep : ∀ sent0 line,
             Main.rowsLoop E H fuel templateStr sheet rest (S i) sent0
               (Main.print line {| Main.client := c'; Main.world := w2;
                                   Main.naps := Main.naps p |}) = Some (sent', p') →
             sent0 ≤ sent' ≤ sent0 + Z.of_nat (length rs')
             ∧ Main.naps p' = Main.naps p
             ∧ size (heap (Main.world p')) = (size (heap (Main.world p)) + S (length rs'))%nat
             ∧ (∀ l0 m0, heap (Main.world p) !! l0 = Some m0 →
                         heap (Main.world p') !! l0 = Some m0)
             ∧ ∃ locs,
                 Forall2 (λ l0 email0,
                            heap (Main.world p) !! l0 = None
                            ∧ heap (Main.world p') !! l0
                              = Some (Main.mailed templateStr email0))
                   locs (email :: rs')).
  { intros sent0 line Hloop.
    apply IH in Hloop as (Hsent & Hnaps & Hsize & Hold & locs & Hlocs).
    cbn [Main.print Main.world Main.naps log heap] in Hnaps, Hsize, Hold, Hlocs.
    rewrite Hh2 in Hsize, Hold, Hlocs.
    split; [done|]. split; [done|]. split.
    { rewrite Hsize, map_size_insert_None by done. lia. }
    split.
    { intros l0 m0 Hl0. apply Hold. rewrite lookup_insert_ne; [done|]. congruence. }
    exists (l :: locs). constructor.
    - split; [done|]. apply Hold. apply lookup_insert_eq.
    - eapply Forall2_impl; [exact Hlocs|]. intros l0 email0 [Hnone Hsome].
      split; [|done]. by apply lookup_insert_None in Hnone as [? _]. }
  destruct r as [[]|err]; apply Hstep in Hrun;
    destruct Hrun as (Hsent & Hnaps & Hsize & Hold & Hlocs);
    rewrite length_cons, Nat2Z.inj_succ;
    (split; [lia|]); (split; [done|]); (split; [lia|]); by split.
Qed.




End ScriptFacts.

Section ScriptLoops.

Variable E : Env.
Variable H : Main.Host.

Local Arguments SMTPSendMail : simpl never.

Lemma cooldownLoop_naps n :
  ∀ p, length (Main.naps (Main.cooldownLoop n p)) = (length (Main.naps p) + n)%nat
       ∧ heap (Main.world (Main.cooldownLoop n p)) = heap (Main.world p).
Proof.
  induction n as [|n IH]; intros p; [by simpl; split; [lia|]|].
  cbn [Main.cooldownLoop]. destruct (IH (Main.sleep (Main.print
    ("🕒 " +:+ Fmt.dec (Z.of_nat (S n)) +:+ " minutes remaining..." +:+ newline) p)))
    as [Hn Hh].
  rewrite Hn, Hh. cbn [Main.sleep Main.print Main.naps Main.world log heap].
  rewrite length_app. simpl. split; [lia|done].
Qed.

Lemma sheetsLoop_naps fuel templateStr sheets :
  ∀ p p',
    Main.sheetsLoop E H fuel templateStr sheets p = Some p' →
    length (Main.naps p') = (length (Main.naps p) + Main.cooldown * Main.waits sheets)%nat.
Proof.
  induction sheets as [|[sheet got] rest IH]; intros p p' Hrun.
  { injection Hrun as <-. simpl. lia. }
  cbn [Main.sheetsLoop] in Hrun. cbv zeta in Hrun. cbn [Main.waits].
  destruct got as [rows|err].
  2: { apply IH in Hrun. rewrite Hrun. cbn [Main.print Main.naps]. by destruct rest. }
  destruct (decide (length rows < 2)%nat).
  { apply IH in Hrun. rewrite Hrun. cbn [Main.print Main.naps]. destruct rest; lia. }
  destruct (Main.rowsLoop E H fuel templateStr sheet (drop 1 rows) 1 0 _)
    as [[sent p1]|] eqn:Hrows; [|done].
  apply rowsLoop_mails in Hrows as (_ & Hnaps & _).
  cbn [Main.print Main.naps] in Hnaps.
  destruct rest as [|next rest].
  { apply IH in Hrun. rewrite Hrun. cbn [Main.print Main.naps]. rewrite Hnaps. lia. }
  apply IH in Hrun. rewrite Hrun.
  destruct (cooldownLoop_naps Main.cooldown (Main.print
    ("⏳ Waiting 70 minutes before next batch..." +:+ newline)
    (Main.print ("✅ Finished sheet " +:+ sheet +:+ ": " +:+ Fmt.dec sent
                 +:+ " emails sent" +:+ newline) p1))) as [Hcool _].
  rewrite Hcool. cbn [Main.print Main.naps]. rewrite Hnaps. lia.
Qed.

Lemma Init_heap fuel c w r c' w' :
  Init E fuel c w = Some (r, c', w') → heap w' = heap w.
Proof.
  unfold Init. destruct (MkdirAll E (TokenStorage c) w) as [w1|] eqn:Hmk.
  2: { by intros [= <- <- <-]. }
  apply MkdirAll_keeps in Hmk as (Hh & _).
  destruct (decide (Token _ = "")).
  - intros Hg. apply getToken_keeps in Hg as [_ (Hh' & _)]. congruence.
  - by intros [= <- <- <-].
Qed.

Lemma sheetsLoop_cases fuel templateStr sheets p :
  Main.sheetsLoop E H fuel templateStr sheets p = None
  ∨ ∃ p', Main.sheetsLoop E H fuel templateStr sheets p = Some p'.
Proof. destruct (Main.sheetsLoop _ _ _ _ _ _); eauto. Qed.

(** A wait in full: [n] lines, each followed by one sleep, and nothing
    else. *)
Lemma cooldownLoop_sleeps n :
  ∀ p,
    Main.client (Main.cooldownLoop n p) = Main.client p
    ∧ files (Main.world (Main.cooldownLoop n p)) = files (Main.world p)
    ∧ dirs (Main.world (Main.cooldownLoop n p)) = dirs (Main.world p)
    ∧ heap (Main.world (Main.cooldownLoop n p)) = heap (Main.world p)
    ∧ trace (Main.world (Main.cooldownLoop n p)) = trace (Main.world p) ++ Main.countdown n
    ∧ Main.naps (Main.cooldownLoop n p)
      = Main.naps p ++ ((λ k, length (trace (Main.world p)) + k)%nat <$> seq 1 n).
Proof.
  induction n as [|n IH]; intros p.
  { simpl. by rewrite !app_nil_r. }
  cbn [Main.cooldownLoop Main.countdown].
  set (line := "🕒 " +:+ Fmt.dec (Z.of_nat (S n)) +:+ " minutes remaining..." +:+ newline).
  destruct (IH (Main.sleep (Main.print line p))) as (Hc & Hf & Hd & Hh & Ht & Hn).
  rewrite Hc, Hf, Hd, Hh, Ht, Hn.
  cbn [Main.sleep Main.print Main.client Main.world Main.naps log files dirs heap trace].
  split; [done|]. split; [done|]. split; [done|]. split; [done|]. split.
  - by rewrite <- app_assoc.
  - rewrite <- app_assoc. f_equal. rewrite length_app.
    change (seq 1 (S n)) with (1%nat :: seq 2 n).
    rewrite <- (fmap_S_seq 1 n), fmap_cons, <- list_fmap_compose.
    change (length [EvPrint line]) with 1%nat. simpl app. f_equal.
    apply list_fmap_ext. intros i k _. simpl. lia.
Qed.

(** X14. The waits of [main].

    When [main] panics it has not slept and has made no map: no mail was
    prepared.  When it returns it has run the loop over the sheets of the
    workbook, from a client that [Init] accepted and with no sleep before
    the loop, and its sleeps are those of that loop: 70 for every sheet but
    the last whose rows could be read and were at least two.

    The loop takes the sheets one after the other.  With a sheet it could
    not read or of fewer than two rows it does not sleep.  With any other
    sheet it first runs the loop over the rows, the mails of the sheet,
    during which it does not sleep, and prints the line that ends the
    sheet.  When no sheet follows it does not sleep.  When a sheet follows
    it prints the line that announces the wait and then 70 times a line with
    the minutes that remain, from 70 down to 1, each followed by one sleep
    of a minute and by nothing else; whether any mail of the sheet was sent
    plays no part.  Only then does it turn to the next sheet. *)
Theorem main_waits fuel :
  (∀ w exit w' ns,
     Main.main E H fuel w = Some (exit, w', ns) →
     match exit with
     | Main.Panicked _ => ns = [] ∧ heap w' = heap w
     | Main.Returned =>
         ∃ templateStr book c1 w1 p,
           files w !! "template.html" = Some templateStr
           ∧ Main.excelize_OpenFile H "out.xlsx" = Ok book
           ∧ Init E fuel (NewClient (Main.os_Getenv H "CLIENT_ID")
                            (Main.os_Getenv H "CLIENT_SECRET") "tokens") w
             = Some (Ok (), c1, w1)
           ∧ Main.sheetsLoop E H fuel templateStr book
               {| Main.client := c1; Main.world := w1; Main.naps := [] |} = Some p
           ∧ w' = Main.world (Main.print ("🎉 All sheets processed!" +:+ newline) p)
           ∧ ns = Main.naps p
           ∧ length ns = (70 * Main.waits book)%nat
     end)
  ∧ (∀ templateStr sheet got rest p0 p',
       Main.sheetsLoop E H fuel templateStr ((sheet, got) :: rest) p0 = Some p' →
       ∃ p2,
         Main.sheetsLoop E H fuel templateStr rest p2 = Some p'
         ∧ match got with
           | Err _ => Main.naps p2 = Main.naps p0
           | Ok rows =>
               if decide (length rows < 2)%nat then Main.naps p2 = Main.naps p0
               else
                 ∃ sent p1,
                   Main.rowsLoop E H fuel templateStr sheet (drop 1 rows) 1 0
                     (Main.print ("📄 Processing sheet: " +:+ sheet +:+ newline) p0)
                   = Some (sent, p1)
                   ∧ Main.naps p1 = Main.naps p0
                   ∧ Main.client p2 = Main.client p1
                   ∧ files (Main.world p2) = files (Main.world p1)
                   ∧ dirs (Main.world p2) = dirs (Main.world p1)
                   ∧ heap (Main.world p2) = heap (Main.world p1)
                   ∧ match rest with
                     | [] =>
                         trace (Main.world p2)
                         = trace (Main.world p1)
                             ++ [EvPrint ("✅ Finished sheet " +:+ sheet +:+ ": "
                                          +:+ Fmt.dec sent +:+ " emails sent" +:+ newline)]
                         ∧ Main.naps p2 = Main.naps p0
                     | _ :: _ =>
                         trace (Main.world p2)
                         = trace (Main.world p1)
                             ++ EvPrint ("✅ Finished sheet " +:+ sheet +:+ ": "
                                         +:+ Fmt.dec sent +:+ " emails sent" +:+ newline)
                                :: EvPrint ("⏳ Waiting 70 minutes before next batch..."
                                            +:+ newline)
                                :: Main.countdown 70
                         ∧ Main.naps p2
                           = Main.naps p0
                               ++ ((λ k, length (trace (Main.world p1)) + 2 + k)%nat
                                     <$> seq 1 70)
                     end
           end).
Proof.
  split.
  - intros w exit w' ns. unfold Main.main.
    destruct (Main.godotenv_Load H) as [err|]; [by intros [= <- <- <-]|].
    unfold ReadFile.
    destruct (files w !! "template.html") as [templateStr|]; [|by intros [= <- <- <-]].
    destruct (Main.excelize_OpenFile H "out.xlsx") as [book|err]; [|by intros [= <- <- <-]].
    destruct (Init E fuel _ w) as [[[[[]|err] c1] w1]|] eqn:Hinit; [| |done].
    + destruct (Main.sheetsLoop E H fuel templateStr book _) as [p|] eqn:Hloop; [|done].
      intros [= <- <- <-]. exists templateStr, book, c1, w1, p.
      repeat split; try done.
      apply sheetsLoop_naps in Hloop. by rewrite Hloop.
    + intros [= <- <- <-]. split; [done|]. by eapply Init_heap.
  - intros templateStr sheet got rest p0 p' Hrun.
    cbn [Main.sheetsLoop] in Hrun. cbv zeta in Hrun.
    destruct got as [rows|err]; [|by eexists].
    destruct (decide (length rows < 2)%nat); [by eexists|].
    destruct (Main.rowsLoop E H fuel templateStr sheet (drop 1 rows) 1 0 _)
      as [[sent p1]|] eqn:Hrows; [|done].
    pose proof (rowsLoop_mails _ _ _ _ _ _ _ _ _ _ _ Hrows) as (_ & Hnaps & _).
    cbn [Main.print Main.naps] in Hnaps.
    set (finished := "✅ Finished sheet " +:+ sheet +:+ ": " +:+ Fmt.dec sent
                     +:+ " emails sent" +:+ newline) in *.
    destruct rest as [|next rest].
    + exists (Main.print finished p1). split; [done|]. exists sent, p1.
      by repeat split.
    + set (waiting := "⏳ Waiting 70 minutes before next batch..." +:+ newline) in *.
      destruct (cooldownLoop_sleeps Main.cooldown (Main.print waiting (Main.print finished p1)))
        as (Hc & Hf & Hd & Hh & Ht & Hn).
      eexists. split; [exact Hrun|]. exists sent, p1.
      rewrite Hc, Hf, Hd, Hh, Ht, Hn.
      cbn [Main.print Main.client Main.world Main.naps log files dirs heap trace].
      repeat split; try done.
      * by rewrite <- !app_assoc.
      * rewrite Hnaps. f_equal. rewrite !length_app. simpl length.
        apply list_fmap_ext. intros i k _. simpl. lia.
Qed.

(** What [SMTPSendMail] does with a server that answers. *)
Lemma SMTPSendMail_answered fuel c l w m :
  (∀ v, is_Some (json_Marshal E v)) →
  (∀ method url, http_NewRequest E method url = true) →
  (∀ earlier req, ∃ status body,
      httpClient_Do E earlier req = Response status body ∧ status ≠ 401) →
  heap w !! l = Some m →
  ∃ w', SMTPSendMail E (S fuel) c (Some l) w = Some (Ok (), c, w').
Proof.
  intros Hmarshal Hnew Hdo Hl. unfold SMTPSendMail. rewrite Hl.
  destruct (Hmarshal (VMap (encodeHTML m))) as [emailJSON ->].
  set (w1 := match m !! "html" with Some (VString _) => _ | _ => w end).
  set (data := VMap {[ "email" := VString emailJSON ]}).
  destruct (Hmarshal data) as [body Hbody].
  assert (Hreq : ∃ req, newRequest E c "smtp/emails" "POST" (Some data) true = Ok req).
  { unfold newRequest. rewrite Hbody, Hnew. eauto. }
  destruct Hreq as [req Hreq].
  destruct (Hdo (requests (trace w1)) req) as (status & respBody & Hanswer & Hst).
  rewrite (sendRequest_answered E fuel c _ _ _ _ w1 req status respBody) by done.
  eauto.
Qed.

Lemma rowsLoop_all_sent fuel templateStr sheet rest :
  (∀ v, is_Some (json_Marshal E v)) →
  (∀ method url, http_NewRequest E method url = true) →
  (∀ earlier req, ∃ status body,
      httpClient_Do E earlier req = Response status body ∧ status ≠ 401) →
  ∀ i sent p,
    ∃ p', Main.rowsLoop E H (S fuel) templateStr sheet rest i sent p
          = Some (sent + Z.of_nat (length (omap (Main.recipient H) (take (51 - i) rest))), p').
Proof.
  intros Hmarshal Hnew Hdo.
  induction rest as [|row rest IH]; intros i sent p.
  { exists p. rewrite take_nil. simpl. do 2 f_equal. lia. }
  cbn [Main.rowsLoop].
  destruct (decide (i ≤ 50)%nat) as [Hi|Hi].
  2: { exists p. replace (51 - i)%nat with 0%nat by lia. simpl. do 2 f_equal. lia. }
  set (rs' := omap (Main.recipient H) (take (51 - S i) rest)).
  assert (Hrs : omap (Main.recipient H) (take (51 - i) (row :: rest))
                = match Main.recipient H row with Some e => e :: rs' | None => rs' end).
  { subst rs'. by replace (51 - i)%nat with (S (51 - S i)) by lia. }
  rewrite Hrs. clear Hrs.
  destruct row as [|cell cells]; [apply IH|].
  cbn [Main.recipient]. cbv zeta.
  destruct (decide (Main.strings_TrimSpace H cell = "")); [apply IH|].
  unfold Main.newMap. cbv zeta.
  set (l := fresh (dom (heap (Main.world p)))).
  set (m := Main.emailData templateStr (Main.strings_TrimSpace H cell)).
  set (w1 := set_heap (<[l := m]> (heap (Main.world p))) (Main.world p)).
  destruct (SMTPSendMail_answered fuel (Main.client p) l w1 m Hmarshal Hnew Hdo)
    as [w2 ->]; [apply lookup_insert_eq|].
  rewrite length_cons, Nat2Z.inj_succ.
  replace (sent + Z.succ (Z.of_nat (length rs'))) with (sent + 1 + Z.of_nat (length rs'))
    by lia.
  apply IH.
Qed.

(** X15. The script counts a mail as sent when [SMTPSendMail] returns no
    error, and that is so for any answer but a 401.  With a server that
    answers every request with such a status, a 500 for instance, the loop
    over a sheet returns and reports every recipient of the sheet as
    sent. *)
Theorem every_answer_counts_as_sent fuel templateStr sheet rows p :
  (∀ v, is_Some (json_Marshal E v)) →
  (∀ method url, http_NewRequest E method url = true) →
  (∀ earlier req, ∃ status body,
      httpClient_Do E earlier req = Response status body ∧ status ≠ 401) →
  ∃ p', Main.rowsLoop E H (S fuel) templateStr sheet (drop 1 rows) 1 0 p
        = Some (Z.of_nat (length (Main.recipients H rows)), p').
Proof.
  intros Hmarshal Hnew Hdo.
  destruct (rowsLoop_all_sent fuel templateStr sheet (drop 1 rows) Hmarshal Hnew Hdo 1%nat 0 p)
    as [p' Hrun].
  exists p'. rewrite Hrun. unfold Main.recipients. by change (51 - 1)%nat with 50%nat.
Qed.

End ScriptLoops.

(** *** Scripted runs of the script *)

Example recipients_sheet0 :
  Main.recipients (Main.host book0) sheet0 = ["a@example.org"; "b@example.org"].
Proof. reflexivity. Qed.

Example waits_book0 : Main.waits book0 = 2%nat.
Proof. reflexivity. Qed.


(** The whole script on five sheets: two waits, 140 sleeps. *)
Lemma main_waits_witness :
  ∃ w' ns,
    Main.main (stubborn (Response 200 "ok")) (Main.host book0) 1 world_batch
    = Some (Main.Returned, w', ns)
    ∧ length ns = 140%nat.
Proof.
  destruct (Main.main (stubborn (Response 200 "ok")) (Main.host book0) 1 world_batch)
    as [[[[|e] w'] ns]|] eqn:Hrun.
  - exists w', ns. split; [reflexivity|].
    destruct (main_waits (stubborn (Response 200 "ok")) (Main.host book0) 1) as [Hmain _].
    destruct (Hmain _ _ _ _ Hrun) as (templateStr & book & c1 & w1 & p & _ & Hbook & _ & _
                                      & _ & _ & Hlength).
    injection Hbook as <-. exact Hlength.
  - vm_compute in Hrun. discriminate Hrun.
  - vm_compute in Hrun. discriminate Hrun.
Defined.

(** One sheet followed by another: the 70 sleeps come after the mails and
    the two lines that end the sheet, one after each line of the
    countdown. *)
Example sheetsLoop_two_sheets :
  ∃ p',
    Main.sheetsLoop (stubborn (Response 200 "ok")) (Main.host book0) 1 "<p>Hi</p>"
      [("one", Ok sheet0); ("last", Ok sheet0)] process0 = Some p'
    ∧ take 3 (Main.naps p') = [10; 11; 12]%nat
    ∧ length (Main.naps p') = 70%nat
    ∧ take 11 (trace (Main.world p'))
      = [EvPrint ("📄 Processing sheet: one" +:+ newline);
         EvHTTP (mail_request (bearer "cached"));
         EvPrint ("Response: ok" +:+ newline);
         EvPrint ("✅ Email sent to a@example.org (sheet: one, row: 2)" +:+ newline);
         EvHTTP (mail_request (bearer "cached"));
         EvPrint ("Response: ok" +:+ newline);
         EvPrint ("✅ Email sent to b@example.org (sheet: one, row: 5)" +:+ newline);
         EvPrint ("✅ Finished sheet one: 2 emails sent" +:+ newline);
         EvPrint ("⏳ Waiting 70 minutes before next batch..." +:+ newline);
         EvPrint ("🕒 70 minutes remaining..." +:+ newline);
         EvPrint ("🕒 69 minutes remaining..." +:+ newline)].
Proof. eexists. split; [vm_compute; reflexivity|]. vm_compute. repeat split. Qed.

(** A server that answers 500 to everything. *)
Lemma every_answer_counts_as_sent_witness :
  ∃ p',
    Main.rowsLoop (stubborn (Response 500 "oops")) (Main.host book0) 1 "<p>Hi</p>" "one"
      (drop 1 sheet0) 1 0 process0
    = Some (Z.of_nat (length (Main.recipients (Main.host book0) sheet0)), p').
Proof.
  apply (every_answer_counts_as_sent (stubborn (Response 500 "oops")) (Main.host book0)
           0 "<p>Hi</p>" "one" sheet0 process0).
  - intros v. by eexists.
  - reflexivity.
  - intros earlier req. by exists 500, "oops".
Defined.

(* ===================================================================== *)
(** ** A token that is empty *)

Section EmptyToken.

Variable E : Env.

(** X16. The token is not checked.  When the token endpoint answers with a
    status other than 401 and a body that parses to an empty access token,
    [Init] on a new client succeeds all the same: the client holds the empty
    token, the token file is written empty, and the requests the client then
    builds carry no Authorization header even when they ask for the
    token. *)
Theorem Init_accepts_empty_token fuel userID secret tokenStorage w w1 treq status body
    tokenResp :
  let c := NewClient userID secret tokenStorage in
  MkdirAll E tokenStorage w = Some w1 →
  (files w !! tokenPath E c = None ∨ files w !! tokenPath E c = Some "") →
  newRequest E c "oauth/access_token" "POST" (Some (tokenRequestData c)) false = Ok treq →
  httpClient_Do E (requests (trace w)) treq = Response status body →
  status ≠ 401 →
  json_Unmarshal E TTokenResponse body = Some tokenResp →
  AccessToken tokenResp = "" →
  os_WriteFile_ok E (tokenPath E c) = true →
  ∃ w',
    Init E (S fuel) c w = Some (Ok (), c, w')
    ∧ files w' !! tokenPath E c = Some ""
    ∧ ∀ path method data req,
        newRequest E c path method data true = Ok req →
        req_header req !! "Authorization" = None.
Proof.
  intros c Hmk Hfile Htreq Hdo Hst Hparse Hempty Hwrite.
  pose proof (MkdirAll_keeps E _ _ _ Hmk) as (_ & Hf & Ht & _).
  assert (Hc : set_Token (AccessToken tokenResp) c = c) by (by rewrite Hempty).
  exists (set_files (<[tokenPath E c := AccessToken tokenResp]> (files w1))
            (log (EvHTTP treq) (log EvFetch w1))).
  split; [|split].
  - assert (Hfetch : Init E (S fuel) c w = getToken E (S fuel) c w1).
    { unfold Init, ReadFile. change (TokenStorage c) with tokenStorage.
      rewrite Hmk, Hf. by destruct Hfile as [-> | ->]. }
    rewrite Hfetch.
    rewrite (getToken_plain E fuel c w1 treq status body tokenResp); try done.
    + by rewrite Hc.
    + by rewrite Ht.
  - simpl. rewrite Hempty. apply lookup_insert_eq.
  - intros path method data req. unfold newRequest.
    destruct (match data with Some d => _ | None => _ end) as [jsonData|e]; [|done].
    destruct (http_NewRequest E method _); [|done].
    by intros [= <-].
Qed.

End EmptyToken.

(** A token endpoint that answers with an empty body. *)
Lemma Init_accepts_empty_token_witness :
  ∃ w',
    Init (scripted [Response 200 ""] true) 1 (NewClient "user" "secret" "tokens") world0
    = Some (Ok (), NewClient "user" "secret" "tokens", w')
    ∧ files w' !! tokenPath (scripted [Response 200 ""] true) (NewClient "user" "secret" "tokens")
      = Some ""
    ∧ ∀ path method data req,
        newRequest (scripted [Response 200 ""] true) (NewClient "user" "secret" "tokens")
          path method data true = Ok req →
        req_header req !! "Authorization" = None.
Proof.
  apply (Init_accepts_empty_token (scripted [Response 200 ""] true) 0 "user" "secret" "tokens"
           world0 world0 token_request 200 ""
           {| AccessToken := ""; TokenType := "Bearer"; ExpiresIn := 3600 |});
    first [reflexivity | discriminate | left; by vm_compute].
Defined.
